(** * aitk.robots: recorder, scrubber and playback controller

    A shallow embedding of [aitk/robots/watchers.py] (classes [_Player],
    [Recorder], [Player]) and of the helpers of [aitk/robots/utils.py]
    they use ([Point], [arange]).

    Numbers.  The Python code computes on binary floating point numbers.
    Here a float is an exact rational ([Q]): [0.1] is [1 # 10], [/] is
    exact division, [round(x)] rounds half to even to an integer and
    [round(x, 1)] rounds half to even to one decimal.  Integers are [Z].

    Exceptions are the left summand of [result]; a method of an object is
    a function that takes the object's state and returns the new one. *)

From Stdlib Require Import ZArith QArith Qround Qminmax Lia Lqa Ascii String.
From stdpp Require Import base option list strings gmap.

Open Scope Z_scope.

(** ** Python values and exceptions *)

Inductive exn : Type :=
| IndexError
| AttributeError.

Abbreviation result := (sum exn).

Definition ok {A} (a : A) : result A := inr a.
Definition raise {A} (e : exn) : result A := inl e.

#[global] Instance result_ret : MRet result := fun A a => inr a.
#[global] Instance result_fmap : FMap result := fun A B f m =>
  match m with
  | inl e => inl e
  | inr a => inr (f a)
  end.
#[global] Instance result_bind : MBind result := fun A B k m =>
  match m with
  | inl e => inl e
  | inr a => k a
  end.

(** [round(x)]: the nearest integer, a tie going to the even one. *)
Definition py_round (q : Q) : Z :=
  let f := Qfloor q in
  match (q - inject_Z f ?= 1 # 2)%Q with
  | Lt => f
  | Gt => f + 1
  | Eq => if Z.even f then f else f + 1
  end.

(** [round(x, 1)]. *)
Definition round1 (q : Q) : Q := (inject_Z (py_round (q * 10)) / 10)%Q.

(** [l[start:stop]] for a list, with Python's treatment of negative and
    of too large bounds. *)
Definition slice_bound (len i : Z) : Z :=
  if i <? 0 then Z.max (i + len) 0 else Z.min i len.

Definition py_slice {A} (l : list A) (start stop : Z) : list A :=
  let len := Z.of_nat (length l) in
  let lo := slice_bound len start in
  let hi := slice_bound len stop in
  take (Z.to_nat (hi - lo)) (drop (Z.to_nat lo) l).

(** ** utils.py *)

Record Point : Type := mkPoint { p_x : Q; p_y : Q }.

(** [arange.__iter__]: the values the generator yields.  The loop of the
    source need not end (a zero step), so the model carries fuel and
    answers [None] when it runs out. *)
Fixpoint arange_up (fuel : nat) (current stop step : Q) : option (list Q) :=
  match fuel with
  | O => None
  | S n =>
      if Qle_bool current stop
      then cons current <$> arange_up n (current + step)%Q stop step
      else Some []
  end.

Fixpoint arange_down (fuel : nat) (current stop step : Q) : option (list Q) :=
  match fuel with
  | O => None
  | S n =>
      if Qle_bool stop current
      then cons current <$> arange_down n (current + step)%Q stop step
      else Some []
  end.

Definition arange (fuel : nat) (start stop step : Q) : option (list Q) :=
  if Qlt_le_dec 0 step
  then arange_up fuel start stop step
  else arange_down fuel start stop step.

(** ** The simulation: robots and worlds

    [robot.py] and [world.py] are not among the sources; a robot and a
    world carry the attributes that [watchers.py] reads and writes. *)

Record Robot : Type := mkRobot {
  x : Q;
  y : Q;
  a : Q;
  vx : Q;
  vy : Q;
  va : Q;
  stalled : bool;
  trace : list (Point * Q);
  do_trace : bool;
  max_trace_length : Z
}.

(** Modelled from the spec: [Robot._set_pose(x, y, a, clear_trace=False)]
    of robot.py sets position and heading unconditionally, and leaves the
    trace alone when [clear_trace] is false. *)
Definition _set_pose (x' y' a' : Q) (r : Robot) : Robot :=
  mkRobot x' y' a' (vx r) (vy r) (va r) (stalled r)
          (trace r) (do_trace r) (max_trace_length r).

Definition set_vx (v : Q) (r : Robot) : Robot :=
  mkRobot (x r) (y r) (a r) v (vy r) (va r) (stalled r)
          (trace r) (do_trace r) (max_trace_length r).
Definition set_vy (v : Q) (r : Robot) : Robot :=
  mkRobot (x r) (y r) (a r) (vx r) v (va r) (stalled r)
          (trace r) (do_trace r) (max_trace_length r).
Definition set_va (v : Q) (r : Robot) : Robot :=
  mkRobot (x r) (y r) (a r) (vx r) (vy r) v (stalled r)
          (trace r) (do_trace r) (max_trace_length r).
Definition set_stalled (b : bool) (r : Robot) : Robot :=
  mkRobot (x r) (y r) (a r) (vx r) (vy r) (va r) b
          (trace r) (do_trace r) (max_trace_length r).
Definition set_trace (t : list (Point * Q)) (r : Robot) : Robot :=
  mkRobot (x r) (y r) (a r) (vx r) (vy r) (va r) (stalled r)
          t (do_trace r) (max_trace_length r).

(** A world: its robots, its clock, and two counters that stand for the
    parts of world.py the recorder only triggers. *)
Record World : Type := mkWorld {
  robots : list Robot;
  time : Q;
  ground_images : nat;
  updates : nat
}.

Definition set_robots (rs : list Robot) (w : World) : World :=
  mkWorld rs (time w) (ground_images w) (updates w).
Definition set_time (t : Q) (w : World) : World :=
  mkWorld (robots w) t (ground_images w) (updates w).

(** Modelled from the spec: [World.reset_ground_image] of world.py
    regenerates the static background; the model counts the
    regenerations. *)
Definition reset_ground_image (w : World) : World :=
  mkWorld (robots w) (time w) (S (ground_images w)) (updates w).

(** Modelled from the spec: [World.update] of world.py advances the
    world's internal bookkeeping by one logical update; the model counts
    the updates. *)
Definition World_update (w : World) : World :=
  mkWorld (robots w) (time w) (ground_images w) (S (updates w)).

(** ** watchers.py: Recorder *)

(** One robot's entry of a recorded step: the tuple
    [(x, y, a, vx, vy, va, stalled)]. *)
Definition snapshot : Type := (Q * Q * Q * Q * Q * Q * bool)%type.

Definition snapshot_of (r : Robot) : snapshot :=
  (x r, y r, a r, vx r, vy r, va r, stalled r).

(** The five assignments both branches of [Recorder.goto] make to a
    robot of the copy. *)
Definition apply_snapshot (s : snapshot) (r : Robot) : Robot :=
  let '(x', y', a', vx', vy', va', stalled') := s in
  set_stalled stalled' (set_va va' (set_vy vy' (set_vx vx' (_set_pose x' y' a' r)))).

Record Recorder : Type := mkRecorder {
  states : list (list snapshot);
  orig_world : World;
  world : World
}.

Definition set_world (w : World) (r : Recorder) : Recorder :=
  mkRecorder (states r) (orig_world r) w.
Definition set_states (s : list (list snapshot)) (r : Recorder) : Recorder :=
  mkRecorder s (orig_world r) (world r).

Module Recorder.

(** [Recorder.update]: record the states from the real world. *)
Definition update (r : Recorder) : Recorder :=
  set_states (states r ++ [snapshot_of <$> robots (orig_world r)]) r.

Definition reset (r : Recorder) : Recorder := set_states [] r.

(** [state[robot_index] for state in ...]: the first record without an
    entry for the robot raises. *)
Fixpoint entries (robot_index : nat) (window : list (list snapshot))
  : result (list snapshot) :=
  match window with
  | [] => ok []
  | state :: rest =>
      match state !! robot_index with
      | None => raise IndexError
      | Some s => cons s <$> entries robot_index rest
      end
  end.

Definition pose_of (s : snapshot) : Point * Q :=
  let '(x', y', a', _, _, _, _) := s in (mkPoint x' y', a').

Definition get_trace (r : Recorder) (robot_index : nat)
           (current_index max_length : Z) : result (list (Point * Q)) :=
  let start_index := Z.max (current_index - max_length) 0 in
  window ← entries robot_index
                   (py_slice (states r) start_index (current_index + 1));
  ok (fmap (M := list) pose_of window).

(** [for i, item in enumerate(items): body] where the body reads and
    writes [self.world.robots[i]]: both loops of [goto] have this shape.
    A missing robot [i] raises. *)
Fixpoint for_enumerate {A} (body : nat -> A -> Robot -> result Robot)
         (i : nat) (items : list A) (copy : list Robot) : result (list Robot) :=
  match items with
  | [] => ok copy
  | item :: rest =>
      match copy !! i with
      | None => raise IndexError
      | Some robot =>
          robot ← body i item robot;
          for_enumerate body (S i) rest (<[i := robot]> copy)
      end
  end.

(** The body of the loop of the empty-log branch. *)
Definition mirror_live (i : nat) (orig_robot : Robot) (robot : Robot)
  : result Robot :=
  let robot := apply_snapshot (snapshot_of orig_robot) robot in
  ok (set_trace [] robot).

(** The body of the loop of the other branch. *)
Definition mirror_recorded (r : Recorder) (index : Z) (i : nat)
           (state : snapshot) (robot : Robot) : result Robot :=
  let robot := apply_snapshot state robot in
  if do_trace robot
  then t ← get_trace r i index (max_trace_length robot);
       ok (set_trace t robot)
  else ok robot.

(** The index [Recorder.goto] reads the log at. *)
Definition clamp_index (r : Recorder) (index : Z) : Z :=
  Z.max (Z.min (Z.of_nat (length (states r)) - 1) index) 0.

(** The [if]/[else] of [goto]: place the robots of the copy where they
    go.  [index] is [round(time / 0.1)]. *)
Definition place_robots (index : Z) (r : Recorder) : result (list Robot) :=
  if (length (states r) =? 0)%nat
  then for_enumerate mirror_live 0 (robots (orig_world r)) (robots (world r))
  else
    let index := clamp_index r index in
    match states r !! Z.to_nat index with
    | None => raise IndexError
    | Some state =>
        for_enumerate (mirror_recorded r index) 0 state (robots (world r))
    end.

(** [self.world.time == 0]. *)
Definition at_time_zero (w : World) : bool := Qeq_bool (time w) 0.

(** The rest of [goto], up to the rendering. *)
Definition show_at (time : Q) (w : World) : World :=
  let w := set_time time w in
  let w := if at_time_zero w then reset_ground_image w else w in
  World_update w.

Section Display.
Context {Picture : Type}.
(** [World.display(format="image")] of world.py: the rendering. *)
Variable display : World -> Picture.

Definition goto (time : Q) (r : Recorder) : result (Picture * Recorder) :=
  let index := py_round (time / (1 # 10)) in
  robots' ← place_robots index r;
  let w := show_at time (set_robots robots' (world r)) in
  let picture := display w in
  ok (picture, set_world w r).

(** [image_to_gif] of utils.py re-encodes one picture as a GIF frame;
    the frame is identified with the picture it holds. *)
Definition image_to_gif (picture : Picture) : Picture := picture.

(** The frame loop of [save_as], over the values [arange] yields. *)
Fixpoint render_frames (times : list Q) (r : Recorder)
  : result (list Picture * Recorder) :=
  match times with
  | [] => ok ([], r)
  | time_step :: rest =>
      '(picture, r) ← goto time_step r;
      '(frames, r) ← render_frames rest r;
      ok (image_to_gif picture :: frames, r)
  end.

(** What a file holds, what [save_as] hands to the notebook, and the
    part of the operating system [save_as] touches. *)
Inductive file : Type :=
| AnimatedGif (frames : list Picture) (loop duration : Z)
| Video (source : string).

Inductive displayable : Type :=
| display_Image (url : string) (embed : bool)
| display_HTML (html : string).

Record OS : Type := mkOS {
  files : gmap string file;
  stdout : list string
}.

(** [os.system]: the external encoder, given the command line and the
    files; it answers an exit status and the files it leaves. *)
Variable os_system : string -> gmap string file -> Z * gmap string file.

Definition dquote : string := String "034"%char EmptyString.

Definition ffmpeg_command (movie_name : string) : string :=
  "ffmpeg -i " +:+ movie_name +:+ ".gif -movflags faststart -pix_fmt yuv420p -vf "
    +:+ dquote +:+ "scale=trunc(iw/2)*2:trunc(ih/2)*2" +:+ dquote
    +:+ " " +:+ movie_name +:+ ".mp4".

Definition video_tag (movie_name : string) : string :=
  "<video src='" +:+ movie_name +:+ ".mp4' controls style="
    +:+ dquote +:+ "width: 100%" +:+ dquote +:+ "></video>".

Definition ffmpeg_error : string :=
  "error running ffmpeg; see console log message or use mp4=False".

(** The end of the range [save_as] iterates over, after the two
    assignments to [stop]. *)
Definition export_stop (stop : option Q) (r : Recorder) : Q :=
  let recorded := (inject_Z (Z.of_nat (length (states r))) * (1 # 10))%Q in
  let stop := match stop with None => recorded | Some stop => stop end in
  Qmin stop recorded.

(** The frame loop of [save_as] with the range it iterates over:
    [None] when the loop does not end within the fuel. *)
Definition frame_loop (fuel : nat) (start stop step : Q) (r : Recorder)
  : option (result (list Picture * Recorder)) :=
  times ← arange fuel start stop step;
  Some (render_frames times r).

(** [save_as]: [None] when the frame loop does not end within the
    fuel; otherwise what the call raises or returns (Python's [None]
    is the inner [None]) with the recorder and the system it leaves. *)
Definition save_as (fuel : nat) (movie_name : string) (start : Q)
           (stop : option Q) (step : Q) (loop duration : Z)
           (embed mp4 : bool) (r : Recorder) (os : OS)
  : option (result (option displayable * Recorder * OS)) :=
  let stop := export_stop stop r in
  rendered ← frame_loop fuel start stop step r;
  Some (
    '(frames, r) ← rendered;
    match frames with
    | [] => ok (None, r, os)
    | first :: more =>
        let os := mkOS (<[movie_name +:+ ".gif" :=
                           AnimatedGif (first :: more) loop duration]> (files os))
                       (stdout os) in
        if negb mp4
        then ok (Some (display_Image (movie_name +:+ ".gif") embed), r, os)
        else
          let os := if bool_decide (is_Some (files os !! (movie_name +:+ ".mp4")))
                    then mkOS (delete (movie_name +:+ ".mp4") (files os)) (stdout os)
                    else os in
          let '(retval, files') := os_system (ffmpeg_command movie_name) (files os) in
          let os := mkOS files' (stdout os) in
          if retval =? 0
          then ok (Some (display_HTML (video_tag movie_name)), r, os)
          else ok (None, r, mkOS (files os) (stdout os ++ [ffmpeg_error]))
    end).
End Display.

End Recorder.

(** ** watchers.py: _Player, the background thread *)

Module _Player.

(** The thread object: [time_wait] and the event [can_run]. *)
Record t : Type := mk {
  time_wait : Q;
  can_run : bool
}.

(** [__init__]: the event starts cleared (paused). *)
Definition init (time_wait : Q) : t := mk time_wait false.

Definition pause (th : t) : t := mk (time_wait th) false.
Definition resume (th : t) : t := mk (time_wait th) true.

(** Where the thread is after some iterations of [run]. *)
Inductive status (C : Type) : Type :=
| Blocked (c : C)        (* inside [can_run.wait()], the event cleared *)
| Looping (c : C)        (* still in the [while True] loop *)
| Terminated (e : exn).  (* [run] left by an exception: the thread ended *)
Arguments Blocked {C} c.
Arguments Looping {C} c.
Arguments Terminated {C} e.

Section Run.
Context {C : Type}.
(** [self.controller.goto]. *)
Variable controller_goto : string -> C -> result C.

(** [run], [fuel] iterations of it at most.  [time.sleep] changes no
    state and is not modelled; the event is not changed by the loop. *)
Fixpoint run (fuel : nat) (th : t) (c : C) : status C :=
  match fuel with
  | O => Looping c
  | S n =>
      if can_run th
      then match controller_goto "next" c with
           | inl e => Terminated e
           | inr c => run n th c
           end
      else Blocked c
  end.
End Run.

End _Player.

(** ** watchers.py: Player, the controls *)

(** The ipywidgets slider: [min] is [0.0] and [step] is [0.1]. *)
Module FloatSlider.
Record t : Type := mk {
  value : Q;
  max : Q
}.
End FloatSlider.

(** [a < b] and [a > b] on floats. *)
Definition Qltb (a b : Q) : bool := negb (Qle_bool b a).

Module Player.

Section Controls.
Context {Picture : Type}.

Record t : Type := mk {
  player : _Player.t;
  length : Z;
  position_text : Q;
  total_text : Q;               (* the number after "of " *)
  control_slider : FloatSlider.t;
  button_play : string;         (* its description *)
  displayers : option (list Picture)  (* unset until [initialize] *)
}.

Definition set_player (th : _Player.t) (p : t) : t :=
  mk th (length p) (position_text p) (total_text p) (control_slider p)
     (button_play p) (displayers p).
Definition set_position_text (v : Q) (p : t) : t :=
  mk (player p) (length p) v (total_text p) (control_slider p)
     (button_play p) (displayers p).
Definition set_control_slider (sl : FloatSlider.t) (p : t) : t :=
  mk (player p) (length p) (position_text p) (total_text p) sl
     (button_play p) (displayers p).
Definition set_button_play (d : string) (p : t) : t :=
  mk (player p) (length p) (position_text p) (total_text p) (control_slider p)
     d (displayers p).
Definition set_displayers (ds : list Picture) (p : t) : t :=
  mk (player p) (length p) (position_text p) (total_text p) (control_slider p)
     (button_play p) (Some ds).

(** [self.control_slider.value]. *)
Definition slider_value (p : t) : Q := FloatSlider.value (control_slider p).

(** [__init__] with [make_controls]. *)
Definition init (length : Z) (play_rate : Q) : t :=
  mk (_Player.init play_rate) length 0
     (round1 (inject_Z length * (1 # 10)))
     (FloatSlider.mk 0 (Qmax (round1 (inject_Z length * (1 # 10))) 0))
     "Play" None.

Definition update_length (length : Z) (p : t) : t :=
  mk (player p) length (position_text p)
     (round1 (inject_Z length * (1 # 10)))
     (FloatSlider.mk (slider_value p)
                     (round1 (Qmax (inject_Z length * (1 # 10)) 0)))
     (button_play p) (displayers p).

Definition toggle_play (p : t) : t :=
  if String.eqb (button_play p) "Play"
  then set_player (_Player.resume (player p)) (set_button_play "Stop" p)
  else set_player (_Player.pause (player p)) (set_button_play "Play" p).

Section Function.
(** [function] takes a slider value and returns a displayable; [S]
    is the state of the object the function belongs to. *)
Context {S : Type}.
Variable function : Q -> S -> result (Picture * S).

(** [self.displayers[i].update(results[i])] for [i] in
    [range(len(self.displayers))]. *)
Fixpoint update_displayers (n i : nat) (results ds : list Picture)
  : result (list Picture) :=
  match n with
  | O => ok ds
  | Datatypes.S n =>
      match results !! i with
      | None => raise IndexError
      | Some picture =>
          update_displayers n (Datatypes.S i) results (<[i := picture]> ds)
      end
  end.

Definition initialize (p : t) (s : S) : result (t * S) :=
  '(results, s) ← function (slider_value p) s;
  ok (set_displayers [results] p, s).

(** The observer of the slider's value. *)
Definition update_slider_control (p : t) (s : S) : result (t * S) :=
  let p := set_position_text (slider_value p) p in
  '(results, s) ← function (slider_value p) s;
  let results := [results] in
  match displayers p with
  | None => raise AttributeError
  | Some ds =>
      ds ← update_displayers (List.length ds) 0 results ds;
      ok (set_displayers ds p, s)
  end.

(** [self.control_slider.value = v]: the widget stores the value and,
    when it differs from the old one, calls the observer.  The widget
    also keeps its value between [min] and [max]; the values the buttons
    assign lie in this range (see [end_within_slider]), and the model
    stores them as they are. *)
Definition set_slider_value (v : Q) (p : t) (s : S) : result (t * S) :=
  let old := slider_value p in
  let p := set_control_slider
             (FloatSlider.mk v (FloatSlider.max (control_slider p))) p in
  if Qeq_bool old v then ok (p, s) else update_slider_control p s.

Definition goto (position : string) (p : t) (s : S) : result (t * S) :=
  let recorded := (inject_Z (length p) * (1 # 10))%Q in
  '(p, s) ←
    (if String.eqb position "begin" then
       set_slider_value 0 p s
     else if String.eqb position "end" then
       set_slider_value (round1 recorded) p s
     else if String.eqb position "prev" then
       if Qltb (slider_value p - (1 # 10)) 0
       then set_slider_value (round1 recorded) p s
       else set_slider_value
              (round1 (Qmax (slider_value p - (1 # 10)) 0)) p s
     else if String.eqb position "next" then
       if Qltb (round1 recorded) (round1 (slider_value p + (1 # 10)))
       then set_slider_value 0 p s
       else set_slider_value
              (round1 (Qmin (slider_value p + (1 # 10)) recorded)) p s
     else ok (p, s));
  ok (set_position_text (round1 (slider_value p)) p, s).
End Function.
End Controls.

End Player.

(** * The notions the properties are stated with *)

Definition tenths (k : Z) : Q := (inject_Z k / 10)%Q.

(** The (position, heading) entry of robot [robot_index] at log index [k],
    if the log has one. *)
Definition pose_at (r : Recorder) (robot_index : nat) (k : Z)
  : option (Point * Q) :=
  match states r !! Z.to_nat k with
  | Some state => Recorder.pose_of <$> state !! robot_index
  | None => None
  end.

(** The trace window as the specification words it: the entries at the
    log indices [max(i - m, 0)], ..., [i], in this order. *)
Definition trace_window_spec (r : Recorder) (robot_index : nat) (i m : Z)
  : list (option (Point * Q)) :=
  let first := Z.max (i - m) 0 in
  pose_at r robot_index <$> seqZ first (i - first + 1).

(** Every recorded step has an entry for robot [robot_index]. *)
Definition tracks (r : Recorder) (robot_index : nat) : Prop :=
  forall state, state ∈ states r -> (robot_index < length state)%nat.

(** The copy has a robot for every robot of the real world, and every
    recorded step has one entry per robot. *)
Definition well_formed (r : Recorder) : Prop :=
  length (robots (orig_world r)) = length (robots (world r))
  /\ forall state, state ∈ states r -> length state = length (robots (world r)).

(** What the empty-log loop makes of robot [robot], given the live one. *)
Definition live_robot (orig_robot robot : Robot) : Robot :=
  set_trace [] (apply_snapshot (snapshot_of orig_robot) robot).

(** The trace [get_trace] returns, where it returns one. *)
Definition trace_of (r : Recorder) (i : nat) (index m : Z) : list (Point * Q) :=
  match Recorder.get_trace r i index m with
  | inr window => window
  | inl _ => []
  end.

(** What the other loop makes of robot [robot], given its entry. *)
Definition recorded_robot (r : Recorder) (index : Z) (i : nat)
           (state : snapshot) (robot : Robot) : Robot :=
  let robot := apply_snapshot state robot in
  if do_trace robot
  then set_trace (trace_of r i index (max_trace_length robot)) robot
  else robot.

(** The time [goto(t)] is claimed to be equivalent to:
    [clamp(round(t / step_duration), 0, L - 1) * step_duration]. *)
Definition clamped_time (r : Recorder) (t : Q) : Q :=
  (inject_Z (Recorder.clamp_index r (py_round (t / (1 # 10)))) * (1 # 10))%Q.

(** The time the log ends at: [len(self.states) * 0.1]. *)
Definition recorded_time (r : Recorder) : Q :=
  (inject_Z (Z.of_nat (length (states r))) * (1 # 10))%Q.

(** [presses n position]: the button for [position] pressed [n] times. *)
Fixpoint presses {Picture S : Type} (function : Q -> S -> result (Picture * S))
         (n : nat) (position : string) (p : Player.t) (s : S)
  : result (Player.t * S) :=
  match n with
  | O => ok (p, s)
  | Datatypes.S n =>
      '(p, s) ← Player.goto function position p s;
      presses function n position p s
  end.

(** The widget has been displayed: [initialize] has set [displayers] to
    the one display of the picture [function] returns. *)
Definition on_display {Picture : Type} (p : Player.t (Picture := Picture)) : Prop :=
  exists d, Player.displayers p = Some [d].

(** What a button leaves fixed. *)
Definition same_widget {Picture : Type} (p p' : Player.t (Picture := Picture))
  : Prop :=
  Player.length p' = Player.length p
  /\ Player.player p' = Player.player p
  /\ FloatSlider.max (Player.control_slider p')
     = FloatSlider.max (Player.control_slider p)
  /\ on_display p'.

(** The controller of the thread of a recorder's widget: the widget, with
    the recorder its [function] belongs to. *)
Definition controller_goto {Picture : Type} (display : World -> Picture)
           (position : string) (c : Player.t * Recorder)
  : result (Player.t * Recorder) :=
  Player.goto (Recorder.goto display) position c.1 c.2.

(** [n] advancements in a row, as the loop of [run] makes them. *)
Fixpoint advancements {C : Type} (controller_goto : string -> C -> result C)
         (n : nat) (c : C) : result C :=
  match n with
  | O => ok c
  | S n => c ← controller_goto "next" c; advancements controller_goto n c
  end.

(** The files the encoder is started on: the animated image written,
    and no video of the movie's name. *)
Definition staged {Picture : Type} (movie_name : string) (frames : list Picture)
           (loop duration : Z) (os : Recorder.OS) : gmap string Recorder.file :=
  delete (movie_name +:+ ".mp4")
         (<[movie_name +:+ ".gif" := Recorder.AnimatedGif frames loop duration]>
            (Recorder.files os)).

(** ** Sample recordings *)

Module Sample.

(** The real world: one robot, on the move. *)
Definition live_world : World :=
  mkWorld [mkRobot 5 6 1 (1 # 2) 0 (1 # 4) true [] true 1] (3 # 10) 0 3.

(** The copy: the same robot where it started, with an old trace. *)
Definition copy_world : World :=
  mkWorld [mkRobot 0 0 0 0 0 0 false [(mkPoint 9 9, 0%Q)] true 1] 0 0 0.

(** Three recorded steps of the robot, at x = 0, 1, 2. *)
Definition log3 : list (list snapshot) :=
  [ [(0, 0, 0, 1, 0, 0, false)];
    [(1, 0, 0, 1, 0, 0, false)];
    [(2, 0, 0, 1, 0, 0, false)] ]%Q.

Definition no_log : Recorder := mkRecorder [] live_world copy_world.
Definition two_steps : Recorder := mkRecorder (take 2 log3) live_world copy_world.
Definition three_steps : Recorder := mkRecorder log3 live_world copy_world.

(** A recorder whose real world gained a second robot after the copy
    was made. *)
Definition outgrown : Recorder :=
  mkRecorder []
    (mkWorld (robots live_world ++ robots live_world) 0 0 0) copy_world.

(** Two steps recorded after the real world gained a second robot, which
    the copy does not have. *)
Definition outgrown_log : Recorder :=
  Recorder.update (Recorder.update outgrown).

(** An encoder that fails and leaves the files as they are. *)
Definition failing_encoder {A} (command : string) (files : gmap string A)
  : Z * gmap string A := (1, files).

(** The picture of a world is the world itself. *)
Definition display (w : World) : World := w.

(** A widget for a log of [length] steps, on display. *)
Definition widget (length : Z) : Player.t (Picture := World) :=
  Player.set_displayers [copy_world]
    (Player.update_length length (Player.init 0 (1 # 10))).

End Sample.

(** * More of the sources, and the notions their properties use *)

(** ** utils.py: segments and lines *)

Module utils.

(** [ccw]: counter clockwise. *)
Definition ccw (ax ay bx by' cx cy : Q) : bool :=
  Qltb ((by' - ay) * (cx - ax)) ((cy - ay) * (bx - ax)).

(** [intersect]: true if the line segments AB and CD intersect. *)
Definition intersect (ax ay bx by' cx cy dx dy : Q) : bool :=
  negb (Bool.eqb (ccw ax ay cx cy dx dy) (ccw bx by' cx cy dx dy))
  && negb (Bool.eqb (ccw ax ay bx by' cx cy) (ccw ax ay bx by' dx dy)).

(** [coefs]: the list [[A, B, -C]]. *)
Definition coefs (p1x p1y p2x p2y : Q) : Q * Q * Q :=
  let A := (p1y - p2y)%Q in
  let B := (p2x - p1x)%Q in
  let C := (p1x * p2y - p2x * p1y)%Q in
  (A, B, - C)%Q.

Definition intersect_coefs (L1_0 L1_1 L1_2 L2_0 L2_1 L2_2 : Q) : option (Q * Q) :=
  let D := (L1_0 * L2_1 - L1_1 * L2_0)%Q in
  if negb (Qeq_bool D 0) then
    let Dx := (L1_2 * L2_1 - L1_1 * L2_2)%Q in
    let Dy := (L1_0 * L2_2 - L1_2 * L2_0)%Q in
    let x1 := (Dx / D)%Q in
    let y1 := (Dy / D)%Q in
    Some (x1, y1)
  else None.

(** [intersect_hit]: the intersection between two lines, kept when it
    falls on both segments. *)
Definition intersect_hit (p1x p1y p2x p2y p3x p3y p4x p4y : Q) : option (Q * Q) :=
  let '(L1_0, L1_1, L1_2) := coefs p1x p1y p2x p2y in
  let '(L2_0, L2_1, L2_2) := coefs p3x p3y p4x p4y in
  match intersect_coefs L1_0 L1_1 L1_2 L2_0 L2_1 L2_2 with
  | Some (x, y) =>
      let lowx := (Qmin p1x p2x - (1 # 10))%Q in
      let highx := (Qmax p1x p2x + (1 # 10))%Q in
      let lowy := (Qmin p1y p2y - (1 # 10))%Q in
      let highy := (Qmax p1y p2y + (1 # 10))%Q in
      if (Qle_bool lowx x && Qle_bool x highx)
         && (Qle_bool lowy y && Qle_bool y highy)
      then
        let lowx := (Qmin p3x p4x - (1 # 10))%Q in
        let highx := (Qmax p3x p4x + (1 # 10))%Q in
        let lowy := (Qmin p3y p4y - (1 # 10))%Q in
        let highy := (Qmax p3y p4y + (1 # 10))%Q in
        if Qle_bool lowx x && Qle_bool x highx
           && Qle_bool lowy y && Qle_bool y highy
        then Some (x, y)
        else None
      else None
  | None => None
  end.

End utils.

(** [Recorder.draw]: the widget learns the length of the log. *)
Definition draw {Picture : Type} (c : Player.t (Picture := Picture) * Recorder)
  : Player.t (Picture := Picture) * Recorder :=
  (Player.update_length (Z.of_nat (length (states c.2))) c.1, c.2).

(** Two buttons of a recorder's widget pressed one after the other. *)
Definition press_twice {Picture : Type} (display : World -> Picture)
           (first second : string) (p : Player.t) (r : Recorder)
  : result (Player.t * Recorder) :=
  '(p, r) ← Player.goto (Recorder.goto display) first p r;
  Player.goto (Recorder.goto display) second p r.

(** [toggle_play] clicked [n] times. *)
Fixpoint toggles {Picture : Type} (n : nat) (p : Player.t (Picture := Picture))
  : Player.t (Picture := Picture) :=
  match n with
  | O => p
  | S n => Player.toggle_play (toggles n p)
  end.

(** ** utils.py: Color *)

(** [s[start:stop]] for a string. *)
Definition py_substring (s : string) (start stop : Z) : string :=
  string_of_list_ascii (py_slice (list_ascii_of_string s) start stop).

(** [int(x)] for a number: the fraction is cut off. *)
Definition py_int (q : Q) : Z := Z.quot (Qnum q) (Z.pos (Qden q)).

(** The characters [int] takes for white space, among the ASCII ones. *)
Definition is_space (c : ascii) : bool :=
  let n := nat_of_ascii c in
  ((9 <=? n) && (n <=? 13) || (28 <=? n) && (n <=? 32))%nat.

(** The value of a character as a digit, in the bases up to 36. *)
Definition digit_value (c : ascii) : option Z :=
  let n := Z.of_nat (nat_of_ascii c) in
  if (48 <=? n) && (n <=? 57) then Some (n - 48)
  else if (97 <=? n) && (n <=? 122) then Some (n - 87)
  else if (65 <=? n) && (n <=? 90) then Some (n - 55)
  else None.

Fixpoint skip_spaces (l : list ascii) : list ascii :=
  match l with
  | c :: rest => if is_space c then skip_spaces rest else l
  | [] => []
  end.

(** The digits of a base 16 literal, single underscores between them
    allowed: the value read and the characters left, [None] for a doubled
    or a trailing underscore. *)
Fixpoint read_digits16 (l : list ascii) (acc : Z) (prev_underscore : bool)
  : option (Z * list ascii) :=
  match l with
  | [] => if prev_underscore then None else Some (acc, [])
  | c :: rest =>
      if Ascii.eqb c "_"
      then if prev_underscore then None else read_digits16 rest acc true
      else match digit_value c with
           | Some d =>
               if d <? 16 then read_digits16 rest (16 * acc + d) false
               else if prev_underscore then None else Some (acc, l)
           | None => if prev_underscore then None else Some (acc, l)
           end
  end.

(** [int(s, 16)] for a string of ASCII characters; [None] stands for
    [ValueError]. *)
Definition py_int16 (s : string) : option Z :=
  let l := skip_spaces (list_ascii_of_string s) in
  let '(sign, l) :=
    match l with
    | c :: rest =>
        if Ascii.eqb c "+" then (1, rest)
        else if Ascii.eqb c "-" then (-1, rest)
        else (1, l)
    | [] => (1, l)
    end in
  let l :=
    match l with
    | c0 :: c1 :: rest =>
        if Ascii.eqb c0 "0" && (Ascii.eqb c1 "x" || Ascii.eqb c1 "X")
        then match rest with
             | c2 :: rest' => if Ascii.eqb c2 "_" then rest' else rest
             | [] => rest
             end
        else l
    | _ => l
    end in
  match l with
  | [] => None
  | c :: _ =>
      if Ascii.eqb c "_" then None
      else
        match read_digits16 l 0 false with
        | None => None
        | Some (value, rest) =>
            if (length rest =? length l)%nat then None
            else match skip_spaces rest with
                 | [] => Some (sign * value)
                 | _ :: _ => None
                 end
        end
  end.

Definition hex_digit (d : Z) : ascii :=
  ascii_of_nat (Z.to_nat (if d <? 10 then 48 + d else 55 + d)).

Fixpoint hex_digits (fuel : nat) (n : Z) (acc : string) : string :=
  match fuel with
  | O => acc
  | S fuel =>
      if n =? 0 then acc
      else hex_digits fuel (n / 16) (String (hex_digit (n mod 16)) acc)
  end.

(** ["%X" % n] for a nonnegative [n]. *)
Definition format_X (n : Z) : string :=
  if n =? 0 then "0" else hex_digits (S (Z.to_nat (Z.log2 n))) n EmptyString.

(** ["%02X" % n]: at least two characters, the sign counted, zeros added
    after the sign. *)
Definition format_02X (n : Z) : string :=
  if n <? 0 then "-" +:+ format_X (- n)
  else let h := format_X n in
       if (String.length h <? 2)%nat then "0" +:+ h else h.

Module Color.

Record t : Type := mk {
  name : option string;
  red : Q;
  green : Q;
  blue : Q;
  alpha : Q
}.

(** What [__init__] takes for [red]: a string, a list or tuple, a color,
    or a number. *)
Inductive arg : Type :=
| Str (s : string)
| Seq (l : list Q)
| Col (c : t)
| Num (q : Q).

(** [hex_to_rgba]; [None] stands for the [ValueError] of [int]. *)
Definition hex_to_rgba (hex_string : string) : option (Z * Z * Z * Z) :=
  let r_hex := py_substring hex_string 1 3 in
  let g_hex := py_substring hex_string 3 5 in
  let b_hex := py_substring hex_string 5 7 in
  let a_hex := if (7 <? String.length hex_string)%nat
               then py_substring hex_string 7 9
               else "FF" in
  r ← py_int16 r_hex;
  g ← py_int16 g_hex;
  b ← py_int16 b_hex;
  a ← py_int16 a_hex;
  Some (r, g, b, a).

Section Colors.
(** [COLORS] of color_data.py: the hex strings of the named colors. *)
Variable COLORS : gmap string string.

(** [__init__]; [None] stands for [ValueError] (of [int], or of unpacking
    a list that has neither three nor four elements). *)
Definition init (red : arg) (green blue alpha : option Q) : option t :=
  '(name, red, green, blue, alpha) ←
    match red with
    | Str s =>
        if String.prefix "#" s
        then '(r, g, b, a) ← hex_to_rgba s;
             Some (None, inject_Z r, Some (inject_Z g), Some (inject_Z b),
                   Some (inject_Z a))
        else
          let hex_string := default "#00000000" (COLORS !! s) in
          '(r, g, b, a) ← hex_to_rgba hex_string;
          Some (Some s, inject_Z r, Some (inject_Z g), Some (inject_Z b),
                Some (inject_Z a))
    | Seq l =>
        match l with
        | [r; g; b] => Some (None, r, Some g, Some b, Some 255%Q)
        | [r; g; b; a] => Some (None, r, Some g, Some b, Some a)
        | _ => None
        end
    | Col c => Some (None, Color.red c, Some (Color.green c),
                     Some (Color.blue c), Some (Color.alpha c))
    | Num q => Some (None, q, green, blue, alpha)
    end;
  Some (mk name red (default red green) (default red blue) (default 255%Q alpha)).
End Colors.

Definition to_tuple (self : t) : Z * Z * Z * Z :=
  (py_int (red self), py_int (green self), py_int (blue self), py_int (alpha self)).

Definition to_hexcode (self : t) : string :=
  let '(r, g, b, a) := to_tuple self in
  "#" +:+ format_02X r +:+ format_02X g +:+ format_02X b +:+ format_02X a.

(** [__str__]. *)
Definition str (self : t) : string :=
  match name self with
  | Some name => name
  | None => to_hexcode self
  end.

End Color.

(** A hexadecimal digit, and its capital form. *)
Definition is_hex_digit (c : ascii) : bool :=
  match digit_value c with
  | Some d => d <? 16
  | None => false
  end.

Definition capital (c : ascii) : ascii :=
  match digit_value c with
  | Some d => hex_digit d
  | None => c
  end.

(** ** utils.py: throttle *)

Module throttle.

(** A [datetime] is a whole number of microseconds since [datetime.min],
    a [timedelta] a whole number of microseconds. *)
Record t : Type := mk {
  throttle_period : Z;
  time_of_last_call : Z
}.

(** [timedelta(seconds=seconds, minutes=minutes, hours=hours)], for whole
    numbers. *)
Definition timedelta (seconds minutes hours : Z) : Z :=
  (seconds + 60 * minutes + 3600 * hours) * 1000000.

(** [__init__]. *)
Definition init (seconds minutes hours : Z) : t :=
  mk (timedelta seconds minutes hours) 0.

(** [wrapper], called when [datetime.now()] is [now]: what it returns
    (Python's [None] when [fn] is not called) and the decorator it
    leaves. *)
Definition wrapper {A B : Type} (fn : A -> B) (self : t) (now : Z) (args : A)
  : option B * t :=
  let time_since_last_call := now - time_of_last_call self in
  if throttle_period self <? time_since_last_call
  then (Some (fn args), mk (throttle_period self) now)
  else (None, self).

End throttle.

(** The times, among those of a series of calls of a throttled function,
    at which the function is executed. *)
Fixpoint executions (self : throttle.t) (times : list Z) : list Z :=
  match times with
  | [] => []
  | now :: rest =>
      match throttle.wrapper (fun _ : unit => tt) self now tt with
      | (Some _, self) => now :: executions self rest
      | (None, self) => executions self rest
      end
  end.

(** What a session does to a recorder and its widget: the simulation
    records a step, the recorder is drawn, the scrubber is called, a
    button is pressed. *)
Inductive action : Type :=
| Update
| Draw
| Goto (t : Q)
| Press (position : string).

Definition act {Picture : Type} (display : World -> Picture) (a : action)
           (c : Player.t * Recorder) : result (Player.t * Recorder) :=
  match a with
  | Update => ok (c.1, Recorder.update c.2)
  | Draw => ok (draw c)
  | Goto t => '(_, r) ← Recorder.goto display t c.2; ok (c.1, r)
  | Press position => Player.goto (Recorder.goto display) position c.1 c.2
  end.

Fixpoint acts {Picture : Type} (display : World -> Picture) (l : list action)
         (c : Player.t * Recorder) : result (Player.t * Recorder) :=
  match l with
  | [] => ok c
  | a :: l => c ← act display a c; acts display l c
  end.

(** The widget is on display, the recorder is well formed, and the cursor
    is a whole number of steps within the slider, which ends no later
    than the log. *)
Definition in_sync {Picture : Type} (c : Player.t (Picture := Picture) * Recorder)
  : Prop :=
  well_formed c.2 /\ on_display c.1
  /\ exists k, 0 <= k <= Player.length c.1
              /\ Player.length c.1 <= Z.of_nat (length (states c.2))
              /\ (Player.slider_value c.1 == tenths k)%Q.

(** More sample values. *)
Module MoreSamples.

(** No file yet, nothing printed. *)
Definition no_files : Recorder.OS (Picture := World) := Recorder.mkOS ∅ [].

(** An encoder that succeeds and leaves a video of the movie. *)
Definition working_encoder (command : string)
           (files : gmap string (Recorder.file (Picture := World)))
  : Z * gmap string (Recorder.file (Picture := World)) :=
  (0, <["aitk_movie.mp4" := Recorder.Video command]> files).

End MoreSamples.

(** * Properties *)

(** ** Rounding *)

#[global] Instance py_round_proper : Proper (Qeq ==> eq) py_round.
Proof.
  intros q1 q2 Hq. unfold py_round.
  rewrite (Qfloor_comp _ _ Hq).
  assert (Hc : (q1 - inject_Z (Qfloor q2) ?= 1 # 2)%Q
               = (q2 - inject_Z (Qfloor q2) ?= 1 # 2)%Q).
  { apply Qcompare_comp; [rewrite Hq|]; reflexivity. }
  rewrite Hc. reflexivity.
Qed.

Lemma py_round_inject_Z (k : Z) : py_round (inject_Z k) = k.
Proof.
  unfold py_round. rewrite Qfloor_Z.
  assert (H : (inject_Z k - inject_Z k ?= 1 # 2)%Q = Lt).
  { rewrite <- Qlt_alt. lra. }
  rewrite H. reflexivity.
Qed.

#[global] Instance round1_proper : Proper (Qeq ==> eq) round1.
Proof.
  intros q1 q2 Hq. unfold round1.
  assert (H : (q1 * 10 == q2 * 10)%Q) by (rewrite Hq; reflexivity).
  rewrite (py_round_proper _ _ H). reflexivity.
Qed.

Lemma round1_tenths (k : Z) : round1 (tenths k) = tenths k.
Proof.
  unfold round1, tenths.
  assert (H : (inject_Z k / 10 * 10 == inject_Z k)%Q) by (field).
  rewrite (py_round_proper _ _ H), py_round_inject_Z. reflexivity.
Qed.

Lemma round1_eq_tenths (q : Q) (k : Z) : (q == tenths k)%Q -> round1 q = tenths k.
Proof. intros H. rewrite (round1_proper _ _ H). apply round1_tenths. Qed.

Lemma recorded_tenths (L : Z) : (inject_Z L * (1 # 10) == tenths L)%Q.
Proof. unfold tenths. field. Qed.

Lemma tenths_le (j k : Z) : (tenths j <= tenths k)%Q <-> j <= k.
Proof.
  unfold tenths. rewrite (Zle_Qle j k).
  generalize (inject_Z j) (inject_Z k). intros qj qk.
  unfold Qdiv. change (/ 10)%Q with (1 # 10)%Q. split; intros H; lra.
Qed.

Lemma tenths_plus (j k : Z) : (tenths j + tenths k == tenths (j + k))%Q.
Proof. unfold tenths. rewrite inject_Z_plus. field. Qed.

(** [round(t / 0.1)] at a time that is a whole number of steps. *)
Lemma py_round_step (k : Z) : py_round (tenths k / (1 # 10)) = k.
Proof.
  assert (H : (tenths k / (1 # 10) == inject_Z k)%Q) by (unfold tenths; field).
  rewrite (py_round_proper _ _ H). apply py_round_inject_Z.
Qed.

Lemma Qltb_lt (a b : Q) : Qltb a b = true <-> (a < b)%Q.
Proof.
  unfold Qltb. rewrite negb_true_iff, <- not_true_iff_false, Qle_bool_iff.
  split; intros H; [apply Qnot_le_lt|apply Qlt_not_le]; exact H.
Qed.

Lemma Qltb_comp (a a' b b' : Q) :
  (a == a')%Q -> (b == b')%Q -> Qltb a b = Qltb a' b'.
Proof.
  intros Ha Hb. destruct (Qltb a' b') eqn:E.
  - apply Qltb_lt. apply Qltb_lt in E. rewrite Ha, Hb. exact E.
  - apply not_true_iff_false. apply not_true_iff_false in E.
    intros H. apply E. apply Qltb_lt. apply Qltb_lt in H.
    rewrite <- Ha, <- Hb. exact H.
Qed.

Lemma Qltb_tenths (j k : Z) : Qltb (tenths j) (tenths k) = bool_decide (j < k).
Proof.
  destruct (bool_decide (j < k)) eqn:E.
  - apply bool_decide_eq_true in E. apply Qltb_lt.
    apply Qnot_le_lt. rewrite tenths_le. lia.
  - apply bool_decide_eq_false in E. apply not_true_iff_false.
    rewrite Qltb_lt. intros H. apply Qlt_not_le in H. apply H, tenths_le. lia.
Qed.

(** ** The two loops of [Recorder.goto] *)

Section ForEnumerate.
Context {A : Type}.
Variable body : nat -> A -> Robot -> result Robot.
(** What the body computes when it does not raise. *)
Variable f : nat -> A -> Robot -> Robot.

Lemma for_enumerate_spec (items : list A) :
  forall (i : nat) (copy : list Robot),
    (i + length items <= length copy)%nat ->
    (forall k item robot,
        items !! k = Some item -> copy !! (i + k)%nat = Some robot ->
        body (i + k)%nat item robot = inr (f (i + k)%nat item robot)) ->
    exists copy',
      Recorder.for_enumerate body i items copy = inr copy'
      /\ length copy' = length copy
      /\ (forall j, (j < i \/ i + length items <= j)%nat -> copy' !! j = copy !! j)
      /\ (forall k item robot,
             items !! k = Some item -> copy !! (i + k)%nat = Some robot ->
             copy' !! (i + k)%nat = Some (f (i + k)%nat item robot)).
Proof.
  induction items as [|item rest IH]; intros i copy Hlen Hbody; simpl in *.
  - exists copy. repeat split; auto. intros k item robot Hk. discriminate.
  - destruct (lookup_lt_is_Some_2 copy i) as [robot Hrobot]; [lia|].
    rewrite Hrobot.
    pose proof (Hbody 0%nat item robot eq_refl) as H0.
    rewrite Nat.add_0_r in H0. rewrite (H0 Hrobot). simpl.
    destruct (IH (S i) (<[i := f i item robot]> copy)) as (copy' & Hrun & Hl & Hout & Hin).
    + rewrite length_insert. lia.
    + intros k item' robot' Hk Hlk.
      rewrite list_lookup_insert_ne in Hlk by lia.
      replace (S i + k)%nat with (i + S k)%nat in * by lia.
      apply Hbody; assumption.
    + exists copy'. rewrite Hrun. split; [reflexivity|].
      split; [rewrite Hl; apply length_insert|]. split.
      * intros j Hj. rewrite Hout by lia.
        apply list_lookup_insert_ne. lia.
      * intros [|k] item' robot' Hk Hlk; simpl in Hk.
        -- injection Hk as <-. rewrite Nat.add_0_r in *.
           rewrite Hout by lia. rewrite Hrobot in Hlk. injection Hlk as <-.
           apply list_lookup_insert_eq. apply lookup_lt_Some in Hrobot. exact Hrobot.
        -- replace (i + S k)%nat with (S i + k)%nat in * by lia.
           apply Hin; [exact Hk|].
           rewrite list_lookup_insert_ne by lia. exact Hlk.
Qed.
End ForEnumerate.

(** ** The trace window *)

Lemma entries_spec (robot_index : nat) (window : list (list snapshot)) :
  (forall state, state ∈ window -> (robot_index < length state)%nat) ->
  exists l, Recorder.entries robot_index window = inr l
            /\ Some <$> l = (fun state => state !! robot_index) <$> window.
Proof.
  induction window as [|state rest IH]; intros Hall; simpl.
  - exists []. split; reflexivity.
  - destruct (lookup_lt_is_Some_2 state robot_index) as [s Hs].
    { apply Hall. left. }
    destruct IH as (l & Hl & Heq).
    { intros st Hst. apply Hall. right. exact Hst. }
    rewrite Hs, Hl. exists (s :: l). split; [reflexivity|].
    rewrite !fmap_cons, Heq. reflexivity.
Qed.

Lemma py_slice_lookup {A} (l : list A) (start stop : Z) (j : nat) :
  0 <= start -> 0 <= stop <= Z.of_nat (length l) ->
  py_slice l start stop !! j
  = if bool_decide (start + Z.of_nat j < stop)
    then l !! (Z.to_nat start + j)%nat else None.
Proof.
  intros Hstart Hstop. unfold py_slice, slice_bound.
  destruct (Z.ltb_spec start 0) as [?|_]; [lia|].
  destruct (Z.ltb_spec stop 0) as [?|_]; [lia|].
  rewrite (Z.min_l stop) by lia.
  case_bool_decide as Hj.
  - rewrite lookup_take_lt by lia. rewrite lookup_drop.
    rewrite Z.min_l by lia. reflexivity.
  - apply lookup_ge_None_2. rewrite length_take. lia.
Qed.

Lemma py_slice_elem_of {A} (l : list A) (start stop : Z) (a : A) :
  a ∈ py_slice l start stop -> a ∈ l.
Proof.
  unfold py_slice. intros H.
  apply subseteq_take in H. apply subseteq_drop in H. exact H.
Qed.

Lemma get_trace_spec (r : Recorder) (robot_index : nat) (i m : Z) :
  0 <= i < Z.of_nat (length (states r)) ->
  tracks r robot_index ->
  exists window,
    Recorder.get_trace r robot_index i m = inr window
    /\ Some <$> window = trace_window_spec r robot_index i m.
Proof.
  intros Hi Htracks. unfold Recorder.get_trace.
  set (first := Z.max (i - m) 0).
  destruct (entries_spec robot_index (py_slice (states r) first (i + 1)))
    as (l & Hl & Heq).
  { intros state Hstate. apply Htracks. eapply py_slice_elem_of, Hstate. }
  rewrite Hl. simpl. exists (Recorder.pose_of <$> l). split; [reflexivity|].
  unfold trace_window_spec. fold first.
  apply list_eq. intros j.
  assert (Hlk : Some <$> l !! j
                = (fun state => state !! robot_index)
                    <$> py_slice (states r) first (i + 1) !! j).
  { rewrite <- !list_lookup_fmap, Heq. reflexivity. }
  rewrite py_slice_lookup in Hlk by lia.
  rewrite !list_lookup_fmap.
  case_bool_decide as Hj.
  - rewrite lookup_seqZ_lt by lia. simpl. unfold pose_at.
    replace (Z.to_nat (first + Z.of_nat j)) with (Z.to_nat first + j)%nat by lia.
    destruct (lookup_lt_is_Some_2 (states r) (Z.to_nat first + j)) as [state Hstate];
      [lia|].
    rewrite Hstate in *.
    destruct (l !! j) as [s|]; simpl in *; [|discriminate].
    injection Hlk as <-. reflexivity.
  - rewrite lookup_seqZ_ge by lia.
    destruct (l !! j); [discriminate|reflexivity].
Qed.

(** ** Placing the robots *)

Lemma clamp_index_range (r : Recorder) (index : Z) :
  states r <> [] ->
  0 <= Recorder.clamp_index r index < Z.of_nat (length (states r)).
Proof.
  intros H. unfold Recorder.clamp_index.
  destruct (states r); [congruence|]. simpl length. lia.
Qed.

Lemma clamp_index_idem (r : Recorder) (index : Z) :
  Recorder.clamp_index r (Recorder.clamp_index r index)
  = Recorder.clamp_index r index.
Proof. unfold Recorder.clamp_index. lia. Qed.

Lemma place_robots_clamp (r : Recorder) (index : Z) :
  Recorder.place_robots (Recorder.clamp_index r index) r
  = Recorder.place_robots index r.
Proof.
  unfold Recorder.place_robots.
  destruct (length (states r) =? 0)%nat; [reflexivity|].
  rewrite clamp_index_idem. reflexivity.
Qed.

Lemma place_live (r : Recorder) (index : Z) :
  states r = [] ->
  (length (robots (orig_world r)) <= length (robots (world r)))%nat ->
  exists robots',
    Recorder.place_robots index r = inr robots'
    /\ length robots' = length (robots (world r))
    /\ (forall i orig_robot robot,
           robots (orig_world r) !! i = Some orig_robot ->
           robots (world r) !! i = Some robot ->
           robots' !! i = Some (live_robot orig_robot robot))
    /\ (forall i, (length (robots (orig_world r)) <= i)%nat ->
                  robots' !! i = robots (world r) !! i).
Proof.
  intros Hempty Hlen. unfold Recorder.place_robots. rewrite Hempty. simpl.
  destruct (for_enumerate_spec Recorder.mirror_live
              (fun _ orig_robot robot => live_robot orig_robot robot)
              (robots (orig_world r)) 0 (robots (world r)))
    as (robots' & Hrun & Hl & Hout & Hin).
  - simpl. exact Hlen.
  - intros. reflexivity.
  - exists robots'. split; [exact Hrun|]. split; [exact Hl|]. split.
    + intros i o m Ho Hm. apply (Hin i o m Ho Hm).
    + intros i Hi. apply Hout. right. simpl. exact Hi.
Qed.

Lemma well_formed_tracks (r : Recorder) (i : nat) :
  well_formed r -> (i < length (robots (world r)))%nat -> tracks r i.
Proof. intros [_ H] Hi state Hstate. rewrite (H state Hstate). exact Hi. Qed.

Lemma mirror_recorded_spec (r : Recorder) (index : Z) (i : nat)
      (state : snapshot) (robot : Robot) :
  0 <= index < Z.of_nat (length (states r)) -> tracks r i ->
  Recorder.mirror_recorded r index i state robot
  = inr (recorded_robot r index i state robot).
Proof.
  intros Hindex Htracks. unfold Recorder.mirror_recorded, recorded_robot, trace_of.
  destruct (do_trace (apply_snapshot state robot)); [|reflexivity].
  destruct (get_trace_spec r i index
              (max_trace_length (apply_snapshot state robot)) Hindex Htracks)
    as (window & Hwindow & _).
  rewrite Hwindow. reflexivity.
Qed.

Lemma place_recorded (r : Recorder) (index : Z) :
  states r <> [] -> well_formed r ->
  exists state robots',
    states r !! Z.to_nat (Recorder.clamp_index r index) = Some state
    /\ Recorder.place_robots index r = inr robots'
    /\ length robots' = length (robots (world r))
    /\ (forall i s robot,
           state !! i = Some s ->
           robots (world r) !! i = Some robot ->
           robots' !! i
           = Some (recorded_robot r (Recorder.clamp_index r index) i s robot)).
Proof.
  intros Hne Hwf. pose proof (clamp_index_range r index Hne) as Hrange.
  set (idx := Recorder.clamp_index r index) in *.
  destruct (lookup_lt_is_Some_2 (states r) (Z.to_nat idx)) as [state Hstate]; [lia|].
  assert (Hlen : length state = length (robots (world r))).
  { apply Hwf. eapply list_elem_of_lookup_2, Hstate. }
  destruct (for_enumerate_spec (Recorder.mirror_recorded r idx)
              (recorded_robot r idx) state 0 (robots (world r)))
    as (robots' & Hrun & Hl & Hout & Hin).
  - simpl. lia.
  - intros k s robot Hk Hrobot. simpl.
    apply mirror_recorded_spec; [exact Hrange|].
    apply well_formed_tracks; [exact Hwf|].
    apply lookup_lt_Some in Hk. lia.
  - exists state, robots'. split; [exact Hstate|].
    split; [|split; [exact Hl|]].
    + unfold Recorder.place_robots.
      assert (E : (length (states r) =? 0)%nat = false).
      { apply Nat.eqb_neq. lia. }
      rewrite E. cbv zeta. fold idx. rewrite Hstate. exact Hrun.
    + intros i s robot Hs Hrobot. apply (Hin i s robot Hs Hrobot).
Qed.

(** ** [Recorder.goto] *)

Lemma robots_show_at (t : Q) (w : World) :
  robots (Recorder.show_at t w) = robots w.
Proof.
  unfold Recorder.show_at.
  destruct (Recorder.at_time_zero (set_time t w)); reflexivity.
Qed.

Lemma time_show_at (t : Q) (w : World) : time (Recorder.show_at t w) = t.
Proof.
  unfold Recorder.show_at.
  destruct (Recorder.at_time_zero (set_time t w)); reflexivity.
Qed.

Section GotoFacts.
Context {Picture : Type}.
Variable display : World -> Picture.

Lemma goto_placed (t : Q) (r : Recorder) (robots' : list Robot) :
  Recorder.place_robots (py_round (t / (1 # 10))) r = inr robots' ->
  Recorder.goto display t r
  = inr (display (Recorder.show_at t (set_robots robots' (world r))),
         set_world (Recorder.show_at t (set_robots robots' (world r))) r).
Proof. intros H. unfold Recorder.goto. rewrite H. reflexivity. Qed.

(** [goto] on an empty log, with a robot in the copy for every live one. *)
Lemma goto_live (t : Q) (r : Recorder) :
  states r = [] ->
  (length (robots (orig_world r)) <= length (robots (world r)))%nat ->
  exists picture r',
    Recorder.goto display t r = inr (picture, r')
    /\ states r' = [] /\ orig_world r' = orig_world r
    /\ length (robots (world r')) = length (robots (world r))
    /\ forall i orig_robot robot,
        robots (orig_world r) !! i = Some orig_robot ->
        robots (world r) !! i = Some robot ->
        robots (world r') !! i = Some (live_robot orig_robot robot).
Proof.
  intros Hempty Hlen.
  destruct (place_live r (py_round (t / (1 # 10))) Hempty Hlen)
    as (robots' & Hrun & Hl & Hin & _).
  eexists _, _. split; [apply goto_placed, Hrun|].
  unfold set_world. cbn [states orig_world world].
  rewrite robots_show_at. unfold set_robots. cbn [robots].
  repeat split; auto.
Qed.

(** [goto] on a log with at least one step. *)
Lemma goto_recorded (t : Q) (r : Recorder) :
  states r <> [] -> well_formed r ->
  exists state picture r',
    states r !! Z.to_nat (Recorder.clamp_index r (py_round (t / (1 # 10))))
    = Some state
    /\ Recorder.goto display t r = inr (picture, r')
    /\ states r' = states r /\ orig_world r' = orig_world r
    /\ time (world r') = t
    /\ length (robots (world r')) = length (robots (world r))
    /\ forall i s robot,
        state !! i = Some s ->
        robots (world r) !! i = Some robot ->
        robots (world r') !! i
        = Some (recorded_robot r
                  (Recorder.clamp_index r (py_round (t / (1 # 10)))) i s robot).
Proof.
  intros Hne Hwf.
  destruct (place_recorded r (py_round (t / (1 # 10))) Hne Hwf)
    as (state & robots' & Hstate & Hrun & Hl & Hin).
  exists state. eexists _, _. split; [exact Hstate|].
  split; [apply goto_placed, Hrun|].
  unfold set_world. cbn [states orig_world world].
  rewrite robots_show_at, time_show_at. unfold set_robots. cbn [robots].
  repeat split; auto.
Qed.
End GotoFacts.

Lemma well_formed_set_world (r : Recorder) (w : World) :
  well_formed r -> length (robots w) = length (robots (world r)) ->
  well_formed (set_world w r).
Proof.
  intros [Ho Hs] Hw. split; simpl.
  - rewrite Hw. exact Ho.
  - intros state Hstate. rewrite Hw. apply Hs, Hstate.
Qed.

Lemma py_round_clamped_time (r : Recorder) (t : Q) :
  py_round (clamped_time r t / (1 # 10))
  = Recorder.clamp_index r (py_round (t / (1 # 10))).
Proof.
  unfold clamped_time.
  set (k := Recorder.clamp_index r (py_round (t / (1 # 10)))).
  assert (H : (inject_Z k * (1 # 10) / (1 # 10) == inject_Z k)%Q) by field.
  rewrite (py_round_proper _ _ H). apply py_round_inject_Z.
Qed.

(** C7.  [goto(time)] on an empty log does not read the log: it succeeds,
    and every robot of the copy gets the pose (x, y, a), the velocities
    (vx, vy, va) and the stalled flag of the robot of the real world at
    the same position, unchanged. *)
Theorem goto_empty_log_mirrors_live {Picture : Type} (display : World -> Picture)
        (t : Q) (r : Recorder) :
  states r = [] -> well_formed r ->
  exists picture r',
    Recorder.goto display t r = inr (picture, r')
    /\ states r' = []
    /\ forall i robot,
        robots (world r) !! i = Some robot ->
        exists orig_robot robot',
          robots (orig_world r) !! i = Some orig_robot
          /\ robots (world r') !! i = Some robot'
          /\ x robot' = x orig_robot /\ y robot' = y orig_robot
          /\ a robot' = a orig_robot
          /\ vx robot' = vx orig_robot /\ vy robot' = vy orig_robot
          /\ va robot' = va orig_robot
          /\ stalled robot' = stalled orig_robot.
Proof.
  intros Hempty [Hlen Hstates].
  destruct (goto_live display t r Hempty) as (picture & r' & Hrun & Hs & _ & _ & Hin).
  { rewrite Hlen. reflexivity. }
  exists picture, r'. split; [exact Hrun|]. split; [exact Hs|].
  intros i robot Hrobot.
  destruct (lookup_lt_is_Some_2 (robots (orig_world r)) i) as [orig_robot Ho].
  { rewrite Hlen. eapply lookup_lt_Some, Hrobot. }
  exists orig_robot, (live_robot orig_robot robot).
  split; [exact Ho|]. split; [apply (Hin i orig_robot robot Ho Hrobot)|].
  repeat split.
Qed.

Lemma goto_empty_log_mirrors_live_witness :
  states Sample.no_log = [] /\ well_formed Sample.no_log
  /\ exists picture r',
      Recorder.goto Sample.display (3 # 10) Sample.no_log = inr (picture, r')
      /\ states r' = []
      /\ forall i robot,
          robots (world Sample.no_log) !! i = Some robot ->
          exists orig_robot robot',
            robots (orig_world Sample.no_log) !! i = Some orig_robot
            /\ robots (world r') !! i = Some robot'
            /\ x robot' = x orig_robot /\ y robot' = y orig_robot
            /\ a robot' = a orig_robot
            /\ vx robot' = vx orig_robot /\ vy robot' = vy orig_robot
            /\ va robot' = va orig_robot
            /\ stalled robot' = stalled orig_robot.
Proof.
  assert (Hwf : well_formed Sample.no_log).
  { split; [reflexivity|]. intros state Hstate. inversion Hstate. }
  split; [reflexivity|]. split; [exact Hwf|].
  apply (goto_empty_log_mirrors_live Sample.display (3 # 10) Sample.no_log eq_refl Hwf).
Defined.

(** C8.  For a robot every recorded step has an entry for, a log index
    [i] and a maximum trace length [m], [get_trace] returns exactly the
    (position, heading) entries at the log indices [max(i - m, 0)], ...,
    [i], in this order; for [m = 1] at [i = 2] these are the two entries
    at the indices 1 and 2, and the entry at index 0 is not among them. *)
Theorem get_trace_window (r : Recorder) (robot_index : nat) (i m : Z) :
  0 <= i < Z.of_nat (length (states r)) ->
  tracks r robot_index ->
  exists window,
    Recorder.get_trace r robot_index i m = inr window
    /\ Some <$> window = trace_window_spec r robot_index i m
    /\ (i = 2 -> m = 1 ->
        Some <$> window = [pose_at r robot_index 1; pose_at r robot_index 2]).
Proof.
  intros Hi Htracks.
  destruct (get_trace_spec r robot_index i m Hi Htracks) as (window & Hrun & Hspec).
  exists window. split; [exact Hrun|]. split; [exact Hspec|].
  intros -> ->. rewrite Hspec. reflexivity.
Qed.

Lemma get_trace_window_witness :
  0 <= 2 < Z.of_nat (length (states Sample.three_steps))
  /\ tracks Sample.three_steps 0
  /\ exists window,
      Recorder.get_trace Sample.three_steps 0 2 1 = inr window
      /\ Some <$> window = trace_window_spec Sample.three_steps 0 2 1
      /\ (2 = 2 -> 1 = 1 ->
          Some <$> window = [pose_at Sample.three_steps 0 1;
                             pose_at Sample.three_steps 0 2]).
Proof.
  assert (Hi : 0 <= 2 < Z.of_nat (length (states Sample.three_steps))).
  { simpl. lia. }
  assert (Ht : tracks Sample.three_steps 0).
  { intros state Hstate. simpl in Hstate.
    repeat (apply elem_of_cons in Hstate as [->|Hstate]; [simpl; lia|]).
    inversion Hstate. }
  split; [exact Hi|]. split; [exact Ht|].
  apply (get_trace_window Sample.three_steps 0 2 1 Hi Ht).
Defined.

Lemma well_formed_three_steps : well_formed Sample.three_steps.
Proof.
  split; [reflexivity|]. intros state Hstate. simpl in Hstate.
  repeat (apply elem_of_cons in Hstate as [->|Hstate]; [reflexivity|]).
  inversion Hstate.
Defined.

(** C10.  On an empty log [goto(time)] leaves every robot of the copy
    with the empty trace.  On a log with steps it leaves the trace of a
    robot without trace drawing as it was, and gives a robot with trace
    drawing the trace window at the clamped index, of the robot's maximum
    trace length. *)
Theorem goto_trace_effect {Picture : Type} (display : World -> Picture)
        (t : Q) (r : Recorder) :
  well_formed r ->
  exists picture r',
    Recorder.goto display t r = inr (picture, r')
    /\ forall i robot,
        robots (world r) !! i = Some robot ->
        exists robot',
          robots (world r') !! i = Some robot'
          /\ match states r with
             | [] => trace robot' = []
             | _ :: _ =>
                 if do_trace robot
                 then Some <$> trace robot'
                      = trace_window_spec r i
                          (Recorder.clamp_index r (py_round (t / (1 # 10))))
                          (max_trace_length robot)
                 else trace robot' = trace robot
             end.
Proof.
  intros Hwf. destruct (states r) as [|state0 rest] eqn:Hstates.
  - destruct (goto_live display t r Hstates) as (picture & r' & Hrun & _ & _ & _ & Hin).
    { destruct Hwf as [-> _]. reflexivity. }
    exists picture, r'. split; [exact Hrun|]. intros i robot Hrobot.
    destruct (lookup_lt_is_Some_2 (robots (orig_world r)) i) as [orig_robot Ho].
    { destruct Hwf as [-> _]. eapply lookup_lt_Some, Hrobot. }
    exists (live_robot orig_robot robot).
    split; [apply (Hin i orig_robot robot Ho Hrobot)|reflexivity].
  - assert (Hne : states r <> []) by (rewrite Hstates; discriminate).
    destruct (goto_recorded display t r Hne Hwf)
      as (state & picture & r' & Hstate & Hrun & _ & _ & _ & _ & Hin).
    exists picture, r'. split; [exact Hrun|]. intros i robot Hrobot.
    set (idx := Recorder.clamp_index r (py_round (t / (1 # 10)))) in *.
    destruct (lookup_lt_is_Some_2 state i) as [s Hs].
    { destruct Hwf as [_ Hall]. rewrite (Hall state).
      - eapply lookup_lt_Some, Hrobot.
      - eapply list_elem_of_lookup_2, Hstate. }
    exists (recorded_robot r idx i s robot).
    split; [apply (Hin i s robot Hs Hrobot)|].
    unfold recorded_robot, trace_of.
    destruct s as [[[[[[x' y'] a'] vx'] vy'] va'] stalled'].
    destruct robot as [? ? ? ? ? ? ? old tracing longest]. simpl.
    destruct tracing; [|reflexivity]. simpl.
    destruct (get_trace_spec r i idx longest) as (window & Hwindow & Hspec).
    + apply clamp_index_range, Hne.
    + apply well_formed_tracks; [exact Hwf|]. eapply lookup_lt_Some, Hrobot.
    + rewrite Hwindow. exact Hspec.
Qed.

Lemma goto_trace_effect_witness :
  well_formed Sample.three_steps
  /\ exists picture r',
      Recorder.goto Sample.display 5 Sample.three_steps = inr (picture, r')
      /\ forall i robot,
          robots (world Sample.three_steps) !! i = Some robot ->
          exists robot',
            robots (world r') !! i = Some robot'
            /\ match states Sample.three_steps with
               | [] => trace robot' = []
               | _ :: _ =>
                   if do_trace robot
                   then Some <$> trace robot'
                        = trace_window_spec Sample.three_steps i
                            (Recorder.clamp_index Sample.three_steps
                               (py_round (5 / (1 # 10))))
                            (max_trace_length robot)
                   else trace robot' = trace robot
               end.
Proof.
  split; [exact well_formed_three_steps|].
  apply (goto_trace_effect Sample.display 5 Sample.three_steps well_formed_three_steps).
Defined.

Lemma recorded_robot_set_world (r : Recorder) (w : World) (index : Z) (i : nat)
      (s : snapshot) (robot : Robot) :
  recorded_robot (set_world w r) index i s robot = recorded_robot r index i s robot.
Proof. reflexivity. Qed.

Lemma recorded_robot_idem (r : Recorder) (index : Z) (i : nat)
      (s : snapshot) (robot : Robot) :
  recorded_robot r index i s (recorded_robot r index i s robot)
  = recorded_robot r index i s robot.
Proof.
  destruct s as [[[[[[x' y'] a'] vx'] vy'] va'] stalled'].
  destruct robot as [? ? ? ? ? ? ? ? tracing ?].
  unfold recorded_robot. simpl. destruct tracing; reflexivity.
Qed.

(** Scrubbing twice to the same time of a log with steps places the
    robots as scrubbing once does. *)
Lemma goto_twice {Picture : Type} (display : World -> Picture)
      (t : Q) (r : Recorder) (picture : Picture) (r1 : Recorder) :
  states r <> [] -> well_formed r ->
  Recorder.goto display t r = inr (picture, r1) ->
  exists picture2 r2,
    Recorder.goto display t r1 = inr (picture2, r2)
    /\ robots (world r2) = robots (world r1)
    /\ time (world r2) = time (world r1).
Proof.
  intros Hne Hwf Hrun.
  destruct (goto_recorded display t r Hne Hwf)
    as (state & picture' & r1' & Hstate & Hrun' & Hs1 & Ho1 & Ht1 & Hl1 & Hin1).
  rewrite Hrun in Hrun'. injection Hrun' as <- <-.
  assert (Hr1 : r1 = set_world (world r1) r).
  { destruct r1, r. simpl in *. subst. reflexivity. }
  assert (Hwf1 : well_formed r1).
  { rewrite Hr1. apply well_formed_set_world; assumption. }
  assert (Hne1 : states r1 <> []) by (rewrite Hs1; exact Hne).
  destruct (goto_recorded display t r1 Hne1 Hwf1)
    as (state' & picture2 & r2 & Hstate' & Hrun2 & Hs2 & Ho2 & Ht2 & Hl2 & Hin2).
  exists picture2, r2. split; [exact Hrun2|]. split; [|congruence].
  assert (Hidx : Recorder.clamp_index r1 (py_round (t / (1 # 10)))
                 = Recorder.clamp_index r (py_round (t / (1 # 10)))).
  { rewrite Hr1. reflexivity. }
  rewrite Hidx, Hs1, Hstate in Hstate'. injection Hstate' as <-.
  destruct Hwf as [_ Hall].
  assert (Hlen : length state = length (robots (world r))).
  { apply Hall. eapply list_elem_of_lookup_2, Hstate. }
  apply list_eq. intros i.
  destruct (robots (world r) !! i) as [robot|] eqn:Hrobot.
  - destruct (lookup_lt_is_Some_2 state i) as [s Hs].
    { rewrite Hlen. eapply lookup_lt_Some, Hrobot. }
    pose proof (Hin1 i s robot Hs Hrobot) as H1.
    rewrite (Hin2 i s _ Hs H1), H1, Hidx, Hr1.
    rewrite recorded_robot_set_world, recorded_robot_idem. reflexivity.
  - apply lookup_ge_None in Hrobot.
    rewrite !(lookup_ge_None_2 _ i); [reflexivity|lia|lia].
Qed.

(** C4, as the code has it.  On a log with steps, [goto(t)] and [goto] at
    the clamped time [clamp(round(t / 0.1), 0, L - 1) * 0.1] leave the
    robots of the copy in the same state (pose, velocities, stalled flag
    and trace); the clock of the copy is set to the time asked for, [t] in
    one case and the clamped time in the other.  Scrubbing again to the
    clamped time changes neither the robots nor the clock. *)
Theorem goto_clamped_time {Picture : Type} (display : World -> Picture)
        (t : Q) (r : Recorder) :
  states r <> [] -> well_formed r ->
  exists picture1 r1 picture2 r2 picture3 r3,
    Recorder.goto display t r = inr (picture1, r1)
    /\ Recorder.goto display (clamped_time r t) r = inr (picture2, r2)
    /\ robots (world r1) = robots (world r2)
    /\ time (world r1) = t
    /\ time (world r2) = clamped_time r t
    /\ Recorder.goto display (clamped_time r t) r2 = inr (picture3, r3)
    /\ robots (world r3) = robots (world r2)
    /\ time (world r3) = time (world r2).
Proof.
  intros Hne Hwf.
  destruct (place_recorded r (py_round (t / (1 # 10))) Hne Hwf)
    as (state & robots' & _ & Hplace & _).
  pose proof (goto_placed display t r robots' Hplace) as Hrun1.
  assert (Hplace2 : Recorder.place_robots
                      (py_round (clamped_time r t / (1 # 10))) r = inr robots').
  { rewrite py_round_clamped_time, place_robots_clamp. exact Hplace. }
  pose proof (goto_placed display (clamped_time r t) r robots' Hplace2) as Hrun2.
  destruct (goto_twice display (clamped_time r t) r _ _ Hne Hwf Hrun2)
    as (picture3 & r3 & Hrun3 & Hrobots3 & Htime3).
  eexists _, _, _, _, picture3, r3.
  split; [exact Hrun1|]. split; [exact Hrun2|].
  split; [cbn [world set_world]; rewrite !robots_show_at; reflexivity|].
  split; [apply time_show_at|]. split; [apply time_show_at|].
  split; [exact Hrun3|]. split; assumption.
Qed.

Lemma goto_clamped_time_witness :
  states Sample.three_steps <> [] /\ well_formed Sample.three_steps
  /\ exists picture1 r1 picture2 r2 picture3 r3,
      Recorder.goto Sample.display 5 Sample.three_steps = inr (picture1, r1)
      /\ Recorder.goto Sample.display (clamped_time Sample.three_steps 5)
                       Sample.three_steps = inr (picture2, r2)
      /\ robots (world r1) = robots (world r2)
      /\ time (world r1) = 5%Q
      /\ time (world r2) = clamped_time Sample.three_steps 5
      /\ Recorder.goto Sample.display (clamped_time Sample.three_steps 5) r2
         = inr (picture3, r3)
      /\ robots (world r3) = robots (world r2)
      /\ time (world r3) = time (world r2).
Proof.
  assert (Hne : states Sample.three_steps <> []) by discriminate.
  split; [exact Hne|]. split; [exact well_formed_three_steps|].
  apply (goto_clamped_time Sample.display 5 Sample.three_steps
           Hne well_formed_three_steps).
Defined.

(** C4 as stated fails: on the log of three steps, [goto(5)] and [goto]
    at the clamped time [0.2] leave different clocks in the copy (5 and
    0.2), hence different states of the copy and different pictures. *)
Lemma goto_clamped_time_counterexample :
  clamped_time Sample.three_steps 5 == 2 # 10
  /\ exists picture1 r1 picture2 r2,
      Recorder.goto Sample.display 5 Sample.three_steps = inr (picture1, r1)
      /\ Recorder.goto Sample.display (clamped_time Sample.three_steps 5)
                       Sample.three_steps = inr (picture2, r2)
      /\ ~ time (world r1) == time (world r2)
      /\ world r1 <> world r2
      /\ picture1 <> picture2.
Proof.
  split; [reflexivity|].
  eexists _, _, _, _. split; [reflexivity|]. split; [reflexivity|].
  split; [|split].
  - simpl. intros H. discriminate H.
  - intros H. discriminate H.
  - intros H. discriminate H.
Qed.

(** ** The controls *)

Section PlayerFacts.
Context {Picture S : Type}.
Variable function : Q -> S -> result (Picture * S).
(** A property of the state [function] keeps and does not raise in. *)
Variable Inv : S -> Prop.
Hypothesis function_ok :
  forall v s, Inv s -> exists picture s', function v s = inr (picture, s') /\ Inv s'.

Lemma update_slider_control_ok (p : Player.t) (s : S) :
  Inv s -> on_display p ->
  exists p' s',
    Player.update_slider_control function p s = inr (p', s')
    /\ Inv s' /\ same_widget p p'
    /\ Player.slider_value p' = Player.slider_value p.
Proof.
  intros Hs [d Hd]. unfold Player.update_slider_control.
  destruct (function_ok (Player.slider_value (Player.set_position_text
                                                (Player.slider_value p) p)) s Hs)
    as (picture & s' & Hf & Hs').
  rewrite Hf. simpl. rewrite Hd. simpl.
  eexists _, s'. split; [reflexivity|]. split; [exact Hs'|].
  split; [|reflexivity]. repeat split. eexists. reflexivity.
Qed.

Lemma set_slider_value_ok (v : Q) (p : Player.t) (s : S) :
  Inv s -> on_display p ->
  exists p' s',
    Player.set_slider_value function v p s = inr (p', s')
    /\ Inv s' /\ same_widget p p'
    /\ Player.slider_value p' = v.
Proof.
  intros Hs Hd. unfold Player.set_slider_value.
  destruct (Qeq_bool (Player.slider_value p) v).
  - eexists _, s. split; [reflexivity|]. split; [exact Hs|].
    split; [|reflexivity]. repeat split. exact Hd.
  - destruct (update_slider_control_ok
                (Player.set_control_slider
                   (FloatSlider.mk v (FloatSlider.max (Player.control_slider p))) p)
                s Hs Hd)
      as (p' & s' & Hrun & Hs' & Hsame & Hv).
    exists p', s'. split; [exact Hrun|]. split; [exact Hs'|].
    split; [exact Hsame|exact Hv].
Qed.

(** A button press ends with the text box showing the rounded slider
    value. *)
Lemma goto_finish (m : result (Player.t (Picture := Picture) * S)) (v : Q)
      (p : Player.t (Picture := Picture)) :
  (exists p1 s1, m = inr (p1, s1) /\ Inv s1 /\ same_widget p p1
                 /\ Player.slider_value p1 = v) ->
  exists p' s',
    ('(p, s) ← m; ok (Player.set_position_text
                        (round1 (Player.slider_value p)) p, s)) = inr (p', s')
    /\ Inv s' /\ same_widget p p'
    /\ Player.slider_value p' = v
    /\ Player.position_text p' = round1 v.
Proof.
  intros (p1 & s1 & -> & Hs1 & Hsame & Hv). simpl.
  eexists _, s1. split; [reflexivity|]. split; [exact Hs1|].
  split; [exact Hsame|]. split; [exact Hv|]. simpl. rewrite Hv. reflexivity.
Qed.

Lemma goto_end (p : Player.t) (s : S) :
  Inv s -> on_display p ->
  exists p' s',
    Player.goto function "end" p s = inr (p', s')
    /\ Inv s' /\ same_widget p p'
    /\ Player.slider_value p' = tenths (Player.length p)
    /\ Player.position_text p' = tenths (Player.length p).
Proof.
  intros Hs Hd. unfold Player.goto.
  change (String.eqb "end" "begin") with false.
  change (String.eqb "end" "end") with true. cbv iota.
  rewrite (round1_eq_tenths _ _ (recorded_tenths (Player.length p))).
  edestruct goto_finish as (p' & s' & Hrun & Hs' & Hsame & Hv & Hpos);
    [apply set_slider_value_ok; eassumption|].
  exists p', s'. rewrite Hrun, Hpos, round1_tenths. auto.
Qed.
Lemma goto_next (p : Player.t) (s : S) (k : Z) :
  Inv s -> on_display p ->
  (Player.slider_value p == tenths k)%Q ->
  exists p' s',
    Player.goto function "next" p s = inr (p', s')
    /\ Inv s' /\ same_widget p p'
    /\ (Player.slider_value p'
        == tenths (if bool_decide (Player.length p < k + 1)%Z then 0%Z else (k + 1)%Z))%Q.
Proof.
  intros Hs Hd Hv. unfold Player.goto.
  change (String.eqb "next" "begin") with false.
  change (String.eqb "next" "end") with false.
  change (String.eqb "next" "prev") with false.
  change (String.eqb "next" "next") with true. cbv iota.
  assert (Hstep : (Player.slider_value p + (1 # 10) == tenths (k + 1))%Q).
  { rewrite Hv, <- tenths_plus. reflexivity. }
  rewrite (round1_eq_tenths _ _ (recorded_tenths (Player.length p))).
  rewrite (round1_eq_tenths _ _ Hstep), Qltb_tenths.
  case_bool_decide as Hwrap.
  - edestruct goto_finish as (p' & s' & Hrun & Hs' & Hsame & Hv' & _);
      [apply (set_slider_value_ok 0); eassumption|].
    exists p', s'. rewrite Hrun, Hv'.
    split; [reflexivity|]. split; [exact Hs'|]. split; [exact Hsame|]. reflexivity.
  - assert (Hmin : (Qmin (Player.slider_value p + (1 # 10))
                         (inject_Z (Player.length p) * (1 # 10))
                    == tenths (k + 1))%Q).
    { rewrite Q.min_l; [exact Hstep|].
      rewrite Hstep, recorded_tenths. apply tenths_le. lia. }
    rewrite (round1_eq_tenths _ _ Hmin).
    edestruct goto_finish as (p' & s' & Hrun & Hs' & Hsame & Hv' & _);
      [apply (set_slider_value_ok (tenths (k + 1))); eassumption|].
    exists p', s'. rewrite Hrun, Hv'.
    split; [reflexivity|]. split; [exact Hs'|]. split; [exact Hsame|]. reflexivity.
Qed.

Lemma goto_prev (p : Player.t) (s : S) (k : Z) :
  Inv s -> on_display p ->
  (Player.slider_value p == tenths k)%Q ->
  exists p' s',
    Player.goto function "prev" p s = inr (p', s')
    /\ Inv s' /\ same_widget p p'
    /\ (Player.slider_value p'
        == tenths (if bool_decide (k - 1 < 0)%Z then Player.length p else (k - 1)%Z))%Q.
Proof.
  intros Hs Hd Hv. unfold Player.goto.
  change (String.eqb "prev" "begin") with false.
  change (String.eqb "prev" "end") with false.
  change (String.eqb "prev" "prev") with true. cbv iota.
  assert (Hstep : (Player.slider_value p - (1 # 10) == tenths (k - 1))%Q).
  { unfold Z.sub, Qminus. rewrite Hv, <- tenths_plus.
    apply Qplus_comp; reflexivity. }
  assert (Hcond : Qltb (Player.slider_value p - (1 # 10)) 0
                  = bool_decide (k - 1 < 0)).
  { rewrite <- Qltb_tenths. apply Qltb_comp; [exact Hstep|reflexivity]. }
  rewrite Hcond.
  case_bool_decide as Hwrap.
  - rewrite (round1_eq_tenths _ _ (recorded_tenths (Player.length p))).
    edestruct goto_finish as (p' & s' & Hrun & Hs' & Hsame & Hv' & _);
      [apply (set_slider_value_ok (tenths (Player.length p))); eassumption|].
    exists p', s'. rewrite Hrun, Hv'.
    split; [reflexivity|]. split; [exact Hs'|]. split; [exact Hsame|]. reflexivity.
  - assert (Hmax : (Qmax (Player.slider_value p - (1 # 10)) 0
                    == tenths (k - 1))%Q).
    { rewrite Q.max_l; [exact Hstep|].
      rewrite Hstep. assert (H0 : (0 == tenths 0)%Q) by reflexivity.
      rewrite H0. apply tenths_le. lia. }
    rewrite (round1_eq_tenths _ _ Hmax).
    edestruct goto_finish as (p' & s' & Hrun & Hs' & Hsame & Hv' & _);
      [apply (set_slider_value_ok (tenths (k - 1))); eassumption|].
    exists p', s'. rewrite Hrun, Hv'.
    split; [reflexivity|]. split; [exact Hs'|]. split; [exact Hsame|]. reflexivity.
Qed.
End PlayerFacts.

(** The slider of a widget whose length has been set ends at the time
    the log ends at, which is the value [end] assigns. *)
Lemma end_within_slider {Picture : Type} (L : Z) (p : Player.t (Picture := Picture)) :
  0 <= L ->
  FloatSlider.max (Player.control_slider (Player.update_length L p)) = tenths L
  /\ round1 (inject_Z (Player.length (Player.update_length L p)) * (1 # 10))
     = tenths L.
Proof.
  intros HL. simpl. split.
  - apply round1_eq_tenths. rewrite Q.max_l; [apply recorded_tenths|].
    rewrite recorded_tenths. assert (H0 : (0 == tenths 0)%Q) by reflexivity.
    rewrite H0. apply tenths_le. exact HL.
  - apply round1_eq_tenths, recorded_tenths.
Qed.

Section PressFacts.
Context {Picture S : Type}.
Variable function : Q -> S -> result (Picture * S).
Variable Inv : S -> Prop.
Hypothesis function_ok :
  forall v s, Inv s -> exists picture s', function v s = inr (picture, s') /\ Inv s'.

Lemma same_widget_trans (p1 p2 p3 : Player.t (Picture := Picture)) :
  same_widget p1 p2 -> same_widget p2 p3 -> same_widget p1 p3.
Proof.
  intros (Hl1 & Hp1 & Hm1 & _) (Hl2 & Hp2 & Hm2 & Hd).
  repeat split; [congruence..|exact Hd].
Qed.

Lemma presses_add (n m : nat) (position : string) (p : Player.t) (s : S) :
  presses function (n + m) position p s
  = '(p, s) ← presses function n position p s; presses function m position p s.
Proof.
  revert p s. induction n as [|n IH]; intros p s; simpl; [reflexivity|].
  destruct (Player.goto function position p s) as [e|[p1 s1]]; simpl;
    [reflexivity|apply IH].
Qed.

(** [next] pressed [n] times, while the slider has room: [n] steps up. *)
Lemma presses_next_climb (n : nat) :
  forall (p : Player.t) (s : S) (k : Z),
    Inv s -> on_display p ->
    (Player.slider_value p == tenths k)%Q ->
    k + Z.of_nat n <= Player.length p ->
    exists p' s',
      presses function n "next" p s = inr (p', s')
      /\ Inv s' /\ same_widget p p'
      /\ (Player.slider_value p' == tenths (k + Z.of_nat n))%Q.
Proof.
  induction n as [|n IH]; intros p s k Hs Hd Hv Hroom.
  - exists p, s. split; [reflexivity|]. split; [exact Hs|].
    split; [repeat split; exact Hd|]. rewrite Z.add_0_r. exact Hv.
  - destruct (goto_next function Inv function_ok p s k Hs Hd Hv)
      as (p1 & s1 & Hrun1 & Hs1 & Hsame1 & Hv1).
    rewrite bool_decide_eq_false_2 in Hv1 by lia.
    destruct (IH p1 s1 (k + 1)) as (p' & s' & Hrun & Hs' & Hsame & Hv');
      [exact Hs1|apply Hsame1|exact Hv1| |].
    { destruct Hsame1 as [-> _]. lia. }
    exists p', s'. simpl. rewrite Hrun1. simpl. rewrite Hrun.
    split; [reflexivity|]. split; [exact Hs'|].
    split; [eapply same_widget_trans; eassumption|].
    rewrite Hv'. replace (k + 1 + Z.of_nat n) with (k + Z.of_nat (Datatypes.S n)) by lia.
    reflexivity.
Qed.

(** [next] pressed once more than the log is long: back at 0. *)
Lemma presses_next_round (p : Player.t) (s : S) :
  Inv s -> on_display p ->
  (Player.slider_value p == 0)%Q ->
  0 <= Player.length p ->
  exists p' s',
    presses function (Datatypes.S (Z.to_nat (Player.length p))) "next" p s
    = inr (p', s')
    /\ Inv s' /\ same_widget p p'
    /\ (Player.slider_value p' == 0)%Q.
Proof.
  intros Hs Hd Hv HL.
  destruct (presses_next_climb (Z.to_nat (Player.length p)) p s 0)
    as (p1 & s1 & Hrun1 & Hs1 & Hsame1 & Hv1);
    [exact Hs|exact Hd|rewrite Hv; reflexivity|lia|].
  rewrite Z.add_0_l, Z2Nat.id in Hv1 by lia.
  destruct (goto_next function Inv function_ok p1 s1 (Player.length p) Hs1)
    as (p' & s' & Hrun & Hs' & Hsame & Hv'); [apply Hsame1|exact Hv1|].
  rewrite bool_decide_eq_true_2 in Hv' by (destruct Hsame1 as [-> _]; lia).
  exists p', s'.
  replace (Datatypes.S (Z.to_nat (Player.length p)))
    with (Z.to_nat (Player.length p) + 1)%nat by lia.
  rewrite presses_add, Hrun1. simpl. rewrite Hrun. simpl.
  split; [reflexivity|]. split; [exact Hs'|].
  split; [eapply same_widget_trans; eassumption|].
  rewrite Hv'. reflexivity.
Qed.
End PressFacts.

Lemma goto_well_formed {Picture : Type} (display : World -> Picture)
      (v : Q) (r : Recorder) :
  well_formed r ->
  exists picture r', Recorder.goto display v r = inr (picture, r') /\ well_formed r'.
Proof.
  intros Hwf.
  assert (Hkeep : forall r', states r' = states r -> orig_world r' = orig_world r ->
                             length (robots (world r')) = length (robots (world r)) ->
                             well_formed r').
  { intros r' Hs Ho Hl. destruct Hwf as [H1 H2]. split.
    - rewrite Ho, Hl. exact H1.
    - rewrite Hs, Hl. exact H2. }
  destruct (states r) eqn:Hstates.
  - destruct (goto_live display v r Hstates) as (picture & r' & Hrun & Hs & Ho & Hl & _).
    { destruct Hwf as [-> _]. reflexivity. }
    exists picture, r'. split; [exact Hrun|]. apply Hkeep; congruence.
  - assert (Hne : states r <> []) by (rewrite Hstates; discriminate).
    destruct (goto_recorded display v r Hne Hwf)
      as (state & picture & r' & _ & Hrun & Hs & Ho & _ & Hl & _).
    exists picture, r'. split; [exact Hrun|]. apply Hkeep; congruence.
Qed.

Lemma well_formed_two_steps : well_formed Sample.two_steps.
Proof.
  split; [reflexivity|]. intros state Hstate. simpl in Hstate.
  repeat (apply elem_of_cons in Hstate as [->|Hstate]; [reflexivity|]).
  inversion Hstate.
Defined.

Lemma on_display_widget (L : Z) : on_display (Sample.widget L).
Proof. eexists. reflexivity. Defined.

(** The log index [Recorder.goto] reads at the time [L * 0.1], on a log
    of [L >= 1] steps: the last one. *)
Lemma index_at_end (r : Recorder) (v : Q) :
  states r <> [] ->
  (v == tenths (Z.of_nat (length (states r))))%Q ->
  Recorder.clamp_index r (py_round (v / (1 # 10)))
  = Z.of_nat (length (states r)) - 1.
Proof.
  intros Hne Hv.
  assert (H : (v / (1 # 10) == tenths (Z.of_nat (length (states r))) / (1 # 10))%Q).
  { rewrite Hv. reflexivity. }
  rewrite (py_round_proper _ _ H), py_round_step.
  unfold Recorder.clamp_index. destruct (states r); [congruence|]. simpl length. lia.
Qed.

(** C1, as the code has it.  [end] sets the cursor (the slider and the
    text box) to [L * 0.1], the length of the log in time and one step
    past its last entry; this is 0 when the log is empty.  On a log with
    steps the scrubber, asked for this time, reads the last entry, the
    one at index [L - 1]. *)
Theorem end_sets_cursor {Picture : Type} (display : World -> Picture)
        (p : Player.t) (r : Recorder) :
  well_formed r -> on_display p ->
  Player.length p = Z.of_nat (length (states r)) ->
  exists p' r',
    Player.goto (Recorder.goto display) "end" p r = inr (p', r')
    /\ (Player.slider_value p' == inject_Z (Player.length p) * (1 # 10))%Q
    /\ (Player.position_text p' == inject_Z (Player.length p) * (1 # 10))%Q
    /\ (states r = [] -> (Player.slider_value p' == 0)%Q)
    /\ (states r <> [] ->
        Recorder.clamp_index r (py_round (Player.slider_value p' / (1 # 10)))
        = Player.length p - 1).
Proof.
  intros Hwf Hd HL.
  destruct (goto_end (Recorder.goto display) well_formed
              (goto_well_formed display) p r Hwf Hd)
    as (p' & r' & Hrun & _ & _ & Hv & Hpos).
  exists p', r'. split; [exact Hrun|].
  rewrite Hv, Hpos, recorded_tenths.
  split; [reflexivity|]. split; [reflexivity|]. split.
  - intros Hempty. rewrite HL, Hempty. reflexivity.
  - intros Hne. rewrite HL. apply index_at_end; [exact Hne|reflexivity].
Qed.

Lemma end_sets_cursor_witness :
  well_formed Sample.three_steps /\ on_display (Sample.widget 3)
  /\ Player.length (Sample.widget 3) = Z.of_nat (length (states Sample.three_steps))
  /\ exists p' r',
      Player.goto (Recorder.goto Sample.display) "end" (Sample.widget 3)
                  Sample.three_steps = inr (p', r')
      /\ (Player.slider_value p'
          == inject_Z (Player.length (Sample.widget 3)) * (1 # 10))%Q
      /\ (Player.position_text p'
          == inject_Z (Player.length (Sample.widget 3)) * (1 # 10))%Q
      /\ (states Sample.three_steps = [] -> (Player.slider_value p' == 0)%Q)
      /\ (states Sample.three_steps <> [] ->
          Recorder.clamp_index Sample.three_steps
            (py_round (Player.slider_value p' / (1 # 10)))
          = Player.length (Sample.widget 3) - 1).
Proof.
  split; [exact well_formed_three_steps|].
  split; [exact (on_display_widget 3)|]. split; [vm_compute; reflexivity|].
  apply (end_sets_cursor Sample.display (Sample.widget 3) Sample.three_steps
           well_formed_three_steps (on_display_widget 3) eq_refl).
Defined.

(** C1 as stated fails: on a log of two steps [end] leaves the cursor at
    time 0.2, not at (2 - 1) * 0.1. *)
Lemma end_sets_cursor_counterexample :
  exists p' r',
    Player.goto (Recorder.goto Sample.display) "end" (Sample.widget 2)
                Sample.two_steps = inr (p', r')
    /\ (Player.slider_value p' == 2 # 10)%Q
    /\ ~ (Player.slider_value p' == inject_Z (2 - 1) * (1 # 10))%Q.
Proof.
  eexists _, _. split; [vm_compute; reflexivity|].
  split; [vm_compute; reflexivity|].
  vm_compute. intros H. discriminate H.
Qed.

(** C2, as the code has it.  From the cursor at 0 on a log of [L] steps,
    [next] pressed [n <= L] times leaves the cursor at [n * 0.1]: it
    advances by one step as long as the advance does not exceed
    [L * 0.1].  Pressed [L + 1] times it is back at 0: the press at
    [L * 0.1] wraps. *)
Theorem next_round {Picture : Type} (display : World -> Picture)
        (p : Player.t) (r : Recorder) :
  well_formed r -> on_display p ->
  1 <= Player.length p ->
  (Player.slider_value p == 0)%Q ->
  (forall n : nat,
      Z.of_nat n <= Player.length p ->
      exists p' r',
        presses (Recorder.goto display) n "next" p r = inr (p', r')
        /\ (Player.slider_value p' == inject_Z (Z.of_nat n) * (1 # 10))%Q)
  /\ exists p' r',
      presses (Recorder.goto display)
              (Datatypes.S (Z.to_nat (Player.length p))) "next" p r = inr (p', r')
      /\ (Player.slider_value p' == 0)%Q.
Proof.
  intros Hwf Hd HL Hv. split.
  - intros n Hn.
    destruct (presses_next_climb (Recorder.goto display) well_formed
                (goto_well_formed display) n p r 0 Hwf Hd)
      as (p' & r' & Hrun & _ & _ & Hv'); [rewrite Hv; reflexivity|lia|].
    exists p', r'. split; [exact Hrun|].
    rewrite Hv', recorded_tenths. reflexivity.
  - destruct (presses_next_round (Recorder.goto display) well_formed
                (goto_well_formed display) p r Hwf Hd Hv)
      as (p' & r' & Hrun & _ & _ & Hv'); [lia|].
    exists p', r'. split; [exact Hrun|exact Hv'].
Qed.

Lemma next_round_witness :
  well_formed Sample.two_steps /\ on_display (Sample.widget 2)
  /\ 1 <= Player.length (Sample.widget 2)
  /\ (Player.slider_value (Sample.widget 2) == 0)%Q
  /\ (forall n : nat,
         Z.of_nat n <= Player.length (Sample.widget 2) ->
         exists p' r',
           presses (Recorder.goto Sample.display) n "next" (Sample.widget 2)
                   Sample.two_steps = inr (p', r')
           /\ (Player.slider_value p' == inject_Z (Z.of_nat n) * (1 # 10))%Q)
  /\ exists p' r',
      presses (Recorder.goto Sample.display)
              (Datatypes.S (Z.to_nat (Player.length (Sample.widget 2)))) "next"
              (Sample.widget 2) Sample.two_steps = inr (p', r')
      /\ (Player.slider_value p' == 0)%Q.
Proof.
  assert (HL : 1 <= Player.length (Sample.widget 2)) by (vm_compute; discriminate).
  assert (Hv : (Player.slider_value (Sample.widget 2) == 0)%Q)
    by (vm_compute; reflexivity).
  split; [exact well_formed_two_steps|].
  split; [exact (on_display_widget 2)|]. split; [exact HL|]. split; [exact Hv|].
  apply (next_round Sample.display (Sample.widget 2) Sample.two_steps
           well_formed_two_steps (on_display_widget 2) HL Hv).
Defined.

(** C2 as stated fails: on a log of two steps, [next] pressed twice from
    0 leaves the cursor at time 0.2, which is index 2 (and the scrubber
    at the entry of index 1), not at index 0. *)
Lemma next_round_counterexample :
  (Player.slider_value (Sample.widget 2) == 0)%Q
  /\ exists p' r',
      presses (Recorder.goto Sample.display) 2 "next" (Sample.widget 2)
              Sample.two_steps = inr (p', r')
      /\ (Player.slider_value p' == 2 # 10)%Q
      /\ py_round (Player.slider_value p' / (1 # 10)) = 2
      /\ Recorder.clamp_index Sample.two_steps
           (py_round (Player.slider_value p' / (1 # 10))) = 1
      /\ x <$> robots (world r') = [1%Q].
Proof.
  split; [vm_compute; reflexivity|].
  eexists _, _. split; [vm_compute; reflexivity|].
  repeat split; vm_compute; reflexivity.
Qed.

(** C3, as the code has it.  On a log of [L >= 1] steps, [prev] at the
    cursor 0 wraps to the end of the slider, the time [L * 0.1]; this is
    index [L], and the scrubber, asked for this time, reads the entry at
    index [L - 1].  At a cursor [k * 0.1] with [k >= 1], [prev] moves the
    cursor one step down. *)
Theorem prev_wraps {Picture : Type} (display : World -> Picture)
        (p : Player.t) (r : Recorder) (k : Z) :
  well_formed r -> on_display p ->
  Player.length p = Z.of_nat (length (states r)) ->
  1 <= Player.length p ->
  0 <= k ->
  (Player.slider_value p == inject_Z k * (1 # 10))%Q ->
  exists p' r',
    Player.goto (Recorder.goto display) "prev" p r = inr (p', r')
    /\ (k = 0 ->
        (Player.slider_value p' == inject_Z (Player.length p) * (1 # 10))%Q
        /\ py_round (Player.slider_value p' / (1 # 10)) = Player.length p
        /\ Recorder.clamp_index r (py_round (Player.slider_value p' / (1 # 10)))
           = Player.length p - 1)
    /\ (1 <= k ->
        (Player.slider_value p' == inject_Z (k - 1) * (1 # 10))%Q).
Proof.
  intros Hwf Hd HL Hlen Hk Hv. rewrite recorded_tenths in Hv.
  destruct (goto_prev (Recorder.goto display) well_formed
              (goto_well_formed display) p r k Hwf Hd Hv)
    as (p' & r' & Hrun & _ & _ & Hv').
  exists p', r'. split; [exact Hrun|]. split.
  - intros ->. rewrite bool_decide_eq_true_2 in Hv' by lia.
    assert (Hidx : py_round (Player.slider_value p' / (1 # 10)) = Player.length p).
    { assert (H : (Player.slider_value p' / (1 # 10)
                   == tenths (Player.length p) / (1 # 10))%Q)
        by (rewrite Hv'; reflexivity).
      rewrite (py_round_proper _ _ H). apply py_round_step. }
    split; [rewrite Hv', recorded_tenths; reflexivity|].
    split; [exact Hidx|].
    rewrite Hidx. unfold Recorder.clamp_index. lia.
  - intros Hk1. rewrite bool_decide_eq_false_2 in Hv' by lia.
    rewrite Hv', recorded_tenths. reflexivity.
Qed.

Lemma prev_wraps_witness :
  well_formed Sample.two_steps /\ on_display (Sample.widget 2)
  /\ Player.length (Sample.widget 2) = Z.of_nat (length (states Sample.two_steps))
  /\ 1 <= Player.length (Sample.widget 2)
  /\ 0 <= 0
  /\ (Player.slider_value (Sample.widget 2) == inject_Z 0 * (1 # 10))%Q
  /\ exists p' r',
      Player.goto (Recorder.goto Sample.display) "prev" (Sample.widget 2)
                  Sample.two_steps = inr (p', r')
      /\ (0 = 0 ->
          (Player.slider_value p'
           == inject_Z (Player.length (Sample.widget 2)) * (1 # 10))%Q
          /\ py_round (Player.slider_value p' / (1 # 10))
             = Player.length (Sample.widget 2)
          /\ Recorder.clamp_index Sample.two_steps
               (py_round (Player.slider_value p' / (1 # 10)))
             = Player.length (Sample.widget 2) - 1)
      /\ (1 <= 0 ->
          (Player.slider_value p' == inject_Z (0 - 1) * (1 # 10))%Q).
Proof.
  assert (HL : Player.length (Sample.widget 2)
               = Z.of_nat (length (states Sample.two_steps)))
    by (vm_compute; reflexivity).
  assert (Hlen : 1 <= Player.length (Sample.widget 2)) by (vm_compute; discriminate).
  assert (Hk : 0 <= 0) by lia.
  assert (Hv : (Player.slider_value (Sample.widget 2) == inject_Z 0 * (1 # 10))%Q)
    by (vm_compute; reflexivity).
  split; [exact well_formed_two_steps|]. split; [exact (on_display_widget 2)|].
  split; [exact HL|]. split; [exact Hlen|]. split; [exact Hk|]. split; [exact Hv|].
  apply (prev_wraps Sample.display (Sample.widget 2) Sample.two_steps 0
           well_formed_two_steps (on_display_widget 2) HL Hlen Hk Hv).
Defined.

(** C3 as stated fails: on a log of two steps, [prev] at the cursor 0
    leaves the cursor at time 0.2, which is index 2 and not 2 - 1. *)
Lemma prev_wraps_counterexample :
  (Player.slider_value (Sample.widget 2) == 0)%Q
  /\ exists p' r',
      Player.goto (Recorder.goto Sample.display) "prev" (Sample.widget 2)
                  Sample.two_steps = inr (p', r')
      /\ (Player.slider_value p' == 2 # 10)%Q
      /\ (Player.position_text p' == 2 # 10)%Q
      /\ py_round (Player.slider_value p' / (1 # 10)) <> 2 - 1.
Proof.
  split; [vm_compute; reflexivity|].
  eexists _, _. split; [vm_compute; reflexivity|].
  split; [vm_compute; reflexivity|]. split; [vm_compute; reflexivity|].
  vm_compute. discriminate.
Qed.

(** ** The playback thread *)

(** C5, as the code has it.  The loop of [run] has no handler: while the
    event is set, the first exception raised by a "next" advancement
    leaves [run] and ends the thread there, whatever the iterations left;
    advancements that return are followed by the next iteration. *)
Theorem run_ends_at_exception {C : Type} (controller_goto : string -> C -> result C)
        (th : _Player.t) (n : nat) :
  _Player.can_run th = true ->
  forall (c : C) (more : nat),
    match advancements controller_goto n c with
    | inl e => _Player.run controller_goto (n + more) th c = _Player.Terminated e
    | inr c' => _Player.run controller_goto (n + more) th c
                = _Player.run controller_goto more th c'
    end.
Proof.
  intros Hrun. induction n as [|n IH]; intros c more; simpl; [reflexivity|].
  rewrite Hrun.
  destruct (controller_goto "next" c) as [e|c1]; simpl; [reflexivity|].
  apply IH.
Qed.

Lemma run_ends_at_exception_witness :
  _Player.can_run (_Player.resume (_Player.init (1 # 10))) = true
  /\ match advancements (controller_goto Sample.display) 1
                        (Sample.widget 2, Sample.outgrown_log) with
     | inl e =>
         _Player.run (controller_goto Sample.display) (1 + 2)
                     (_Player.resume (_Player.init (1 # 10)))
                     (Sample.widget 2, Sample.outgrown_log)
         = _Player.Terminated e
     | inr c' =>
         _Player.run (controller_goto Sample.display) (1 + 2)
                     (_Player.resume (_Player.init (1 # 10)))
                     (Sample.widget 2, Sample.outgrown_log)
         = _Player.run (controller_goto Sample.display) 2
                       (_Player.resume (_Player.init (1 # 10))) c'
     end.
Proof.
  split; [reflexivity|].
  apply (run_ends_at_exception (controller_goto Sample.display)
           (_Player.resume (_Player.init (1 # 10))) 1 eq_refl
           (Sample.widget 2, Sample.outgrown_log) 2).
Defined.

(** C5 as stated fails: with a log recorded after the real world gained
    a robot the copy lacks, the first "next" of the running thread raises
    [IndexError]; the exception is not swallowed, and the thread has
    ended instead of looping on. *)
Lemma run_ends_at_exception_counterexample :
  controller_goto Sample.display "next" (Sample.widget 2, Sample.outgrown_log)
  = inl IndexError
  /\ _Player.run (controller_goto Sample.display) 3
                 (_Player.resume (_Player.init (1 # 10)))
                 (Sample.widget 2, Sample.outgrown_log)
     = _Player.Terminated IndexError
  /\ forall c,
      _Player.run (controller_goto Sample.display) 3
                  (_Player.resume (_Player.init (1 # 10)))
                  (Sample.widget 2, Sample.outgrown_log)
      <> _Player.Looping c.
Proof.
  assert (H : _Player.run (controller_goto Sample.display) 3
                (_Player.resume (_Player.init (1 # 10)))
                (Sample.widget 2, Sample.outgrown_log)
              = _Player.Terminated IndexError) by (vm_compute; reflexivity).
  split; [vm_compute; reflexivity|]. split; [exact H|].
  intros c Hc. rewrite H in Hc. discriminate Hc.
Qed.

(** ** Export *)

Lemma export_stop_le (stop : option Q) (r : Recorder) :
  (Recorder.export_stop stop r <= recorded_time r)%Q.
Proof. unfold Recorder.export_stop. apply Q.le_min_r. Qed.

Lemma arange_up_bounds (fuel : nat) :
  forall (current stop step : Q) (times : list Q),
    (0 < step)%Q ->
    arange_up fuel current stop step = Some times ->
    forall t, t ∈ times -> (current <= t <= stop)%Q.
Proof.
  induction fuel as [|fuel IH]; intros current stop step times Hstep Hrun t Ht;
    simpl in Hrun; [discriminate|].
  destruct (Qle_bool current stop) eqn:Hle.
  - destruct (arange_up fuel (current + step) stop step) as [rest|] eqn:Hrest;
      [|discriminate].
    injection Hrun as <-. apply Qle_bool_iff in Hle.
    apply elem_of_cons in Ht as [->|Ht].
    + split; [apply Qle_refl|exact Hle].
    + destruct (IH _ _ _ _ Hstep Hrest t Ht) as [H1 H2]. split; [lra|exact H2].
  - injection Hrun as <-. inversion Ht.
Qed.

Lemma arange_up_within (n : nat) :
  forall (current stop step : Q),
    (0 < step)%Q ->
    (stop - current < inject_Z (Z.of_nat n) * step)%Q ->
    exists times, arange_up (S n) current stop step = Some times.
Proof.
  induction n as [|n IH]; intros current stop step Hstep Hn.
  - exists []. simpl.
    destruct (Qle_bool current stop) eqn:Hle; [|reflexivity].
    apply Qle_bool_iff in Hle.
    change (inject_Z (Z.of_nat 0)) with 0%Q in Hn. lra.
  - assert (Hs : (inject_Z (Z.of_nat (S n)) == inject_Z (Z.of_nat n) + 1)%Q).
    { rewrite Nat2Z.inj_succ. unfold Z.succ. rewrite inject_Z_plus. reflexivity. }
    rewrite Hs in Hn.
    change (arange_up (S (S n)) current stop step)
      with (if Qle_bool current stop
            then cons current <$> arange_up (S n) (current + step)%Q stop step
            else Some []).
    destruct (Qle_bool current stop); [|exists []; reflexivity].
    destruct (IH (current + step)%Q stop step Hstep) as [rest Hrest].
    { set (k := inject_Z (Z.of_nat n)) in *. nra. }
    rewrite Hrest. exists (current :: rest). reflexivity.
Qed.

Lemma arange_up_total (current stop step : Q) :
  (0 < step)%Q -> exists fuel times, arange_up fuel current stop step = Some times.
Proof.
  intros Hstep.
  set (q := ((stop - current) / step)%Q).
  exists (S (Z.to_nat (Qfloor q + 1))).
  apply arange_up_within; [exact Hstep|].
  assert (Hq : (q < inject_Z (Z.of_nat (Z.to_nat (Qfloor q + 1))))%Q).
  { eapply Qlt_le_trans; [apply Qlt_floor|]. rewrite <- Zle_Qle. lia. }
  assert (Heq : (stop - current == q * step)%Q).
  { unfold q. field. lra. }
  rewrite Heq. apply Qmult_lt_r; assumption.
Qed.

Lemma render_frames_ok {Picture : Type} (display : World -> Picture)
      (times : list Q) :
  forall r, well_formed r ->
    exists frames r',
      Recorder.render_frames display times r = inr (frames, r')
      /\ length frames = length times /\ well_formed r'.
Proof.
  induction times as [|t rest IH]; intros r Hwf; simpl.
  - exists [], r. split; [reflexivity|]. split; [reflexivity|exact Hwf].
  - destruct (goto_well_formed display t r Hwf) as (picture & r1 & Hrun & Hwf1).
    rewrite Hrun. simpl.
    destruct (IH r1 Hwf1) as (frames & r' & Hrest & Hlen & Hwf').
    rewrite Hrest. simpl. exists (Recorder.image_to_gif picture :: frames), r'.
    split; [reflexivity|]. split; [simpl; congruence|exact Hwf'].
Qed.

Lemma well_formed_no_log : well_formed Sample.no_log.
Proof. split; [reflexivity|]. intros state Hstate. inversion Hstate. Defined.

Lemma arange_ascending (fuel : nat) (start stop step : Q) :
  (0 < step)%Q -> arange fuel start stop step = arange_up fuel start stop step.
Proof.
  intros Hstep. unfold arange. destruct (Qlt_le_dec 0 step) as [_|Hle]; [reflexivity|].
  exfalso. apply (Qlt_not_le _ _ Hstep Hle).
Qed.

(** C9, as the code has it.  [save_as] clamps [stop] to
    [min(stop, L * 0.1)] before the frame loop.  When the step is
    positive the loop ends, renders one frame for every time of the range
    and none of these times exceeds [L * 0.1].  On an empty log,
    [start = 0], [stop = 1.0] and [step = 0.1] make the clamped stop 0
    and the loop render exactly one frame, the one of time 0. *)
Theorem export_within_log {Picture : Type} (display : World -> Picture)
        (start : Q) (stop : option Q) (step : Q) (r : Recorder) :
  well_formed r -> (0 < step)%Q ->
  (forall s, stop = Some s -> Recorder.export_stop stop r = Qmin s (recorded_time r))
  /\ (Recorder.export_stop stop r <= recorded_time r)%Q
  /\ (exists fuel times frames r',
         arange fuel start (Recorder.export_stop stop r) step = Some times
         /\ (forall t, t ∈ times -> (t <= recorded_time r)%Q)
         /\ Recorder.frame_loop display fuel start (Recorder.export_stop stop r) step r
            = Some (inr (frames, r'))
         /\ length frames = length times)
  /\ (states r = [] ->
      forall fuel, (2 <= fuel)%nat ->
        (Recorder.export_stop (Some 1%Q) r == 0)%Q
        /\ arange fuel 0 (Recorder.export_stop (Some 1%Q) r) (1 # 10) = Some [0%Q]
        /\ exists picture r',
            Recorder.goto display 0 r = inr (picture, r')
            /\ Recorder.frame_loop display fuel 0
                 (Recorder.export_stop (Some 1%Q) r) (1 # 10) r
               = Some (inr ([picture], r'))).
Proof.
  intros Hwf Hstep. split; [intros s ->; reflexivity|].
  split; [apply export_stop_le|]. split.
  - destruct (arange_up_total start (Recorder.export_stop stop r) step Hstep)
      as (fuel & times & Htimes).
    destruct (render_frames_ok display times r Hwf) as (frames & r' & Hrun & Hlen & _).
    exists fuel, times, frames, r'.
    rewrite <- (arange_ascending fuel _ _ _ Hstep) in Htimes.
    split; [exact Htimes|]. split.
    + intros t Ht. rewrite arange_ascending in Htimes by exact Hstep.
      destruct (arange_up_bounds fuel _ _ _ _ Hstep Htimes t Ht) as [_ H].
      eapply Qle_trans; [exact H|apply export_stop_le].
    + unfold Recorder.frame_loop. rewrite Htimes. simpl. rewrite Hrun.
      split; [reflexivity|exact Hlen].
  - intros Hempty fuel Hfuel.
    assert (Hstop : Recorder.export_stop (Some 1%Q) r = (0 # 10)%Q).
    { unfold Recorder.export_stop. rewrite Hempty. reflexivity. }
    assert (Htimes : arange fuel 0 (0 # 10) (1 # 10) = Some [0%Q]).
    { destruct fuel as [|[|fuel]]; [lia|lia|]. reflexivity. }
    rewrite Hstop. split; [reflexivity|]. split; [exact Htimes|].
    destruct (goto_well_formed display 0 r Hwf) as (picture & r' & Hrun & _).
    exists picture, r'. split; [exact Hrun|].
    unfold Recorder.frame_loop. rewrite Htimes. simpl. rewrite Hrun. reflexivity.
Qed.

Lemma export_within_log_witness :
  well_formed Sample.no_log /\ (0 < 1 # 10)%Q
  /\ (forall s, Some 1%Q = Some s ->
                Recorder.export_stop (Some 1%Q) Sample.no_log
                = Qmin s (recorded_time Sample.no_log))
  /\ (Recorder.export_stop (Some 1%Q) Sample.no_log <= recorded_time Sample.no_log)%Q
  /\ (exists fuel times frames r',
         arange fuel 0 (Recorder.export_stop (Some 1%Q) Sample.no_log) (1 # 10)
         = Some times
         /\ (forall t, t ∈ times -> (t <= recorded_time Sample.no_log)%Q)
         /\ Recorder.frame_loop Sample.display fuel 0
              (Recorder.export_stop (Some 1%Q) Sample.no_log) (1 # 10) Sample.no_log
            = Some (inr (frames, r'))
         /\ length frames = length times)
  /\ (states Sample.no_log = [] ->
      forall fuel, (2 <= fuel)%nat ->
        (Recorder.export_stop (Some 1%Q) Sample.no_log == 0)%Q
        /\ arange fuel 0 (Recorder.export_stop (Some 1%Q) Sample.no_log) (1 # 10)
           = Some [0%Q]
        /\ exists picture r',
            Recorder.goto Sample.display 0 Sample.no_log = inr (picture, r')
            /\ Recorder.frame_loop Sample.display fuel 0
                 (Recorder.export_stop (Some 1%Q) Sample.no_log) (1 # 10)
                 Sample.no_log
               = Some (inr ([picture], r'))).
Proof.
  assert (Hstep : (0 < 1 # 10)%Q) by reflexivity.
  split; [exact well_formed_no_log|]. split; [exact Hstep|].
  apply (export_within_log Sample.display 0 (Some 1%Q) (1 # 10) Sample.no_log
           well_formed_no_log Hstep).
Defined.

(** C9 as stated fails: a descending export of the log of three steps,
    from time 1 down to 0 by steps of 0.5, renders three frames, the
    first of them at time 1, past the time 0.3 the log ends at. *)
Lemma export_within_log_counterexample :
  (recorded_time Sample.three_steps == 3 # 10)%Q
  /\ exists times frames r',
      arange 5 1 (Recorder.export_stop (Some 0%Q) Sample.three_steps) (-1 # 2)
      = Some times
      /\ Recorder.frame_loop Sample.display 5 1
           (Recorder.export_stop (Some 0%Q) Sample.three_steps) (-1 # 2)
           Sample.three_steps
         = Some (inr (frames, r'))
      /\ length frames = 3%nat
      /\ exists t, t ∈ times /\ ~ (t <= recorded_time Sample.three_steps)%Q.
Proof.
  split; [vm_compute; reflexivity|].
  eexists _, _, _. split; [vm_compute; reflexivity|].
  split; [vm_compute; reflexivity|]. split; [reflexivity|].
  exists 1%Q. split; [left|].
  vm_compute. intros H. apply H. reflexivity.
Qed.

Lemma gif_name_ne_mp4 (movie_name : string) :
  movie_name +:+ ".mp4" <> movie_name +:+ ".gif".
Proof. intros H. apply (inj (String.app movie_name)) in H. discriminate H. Qed.

(** C6, as the code has it.  When the frame loop has rendered frames, a
    video is asked for and the encoder exits with a status other than 0,
    [save_as] prints an error message and returns [None].  The animated
    image of the frames has been written under the movie's name before
    the encoder is started; [save_as] does not remove it, and the files
    it leaves are those the encoder left. *)
Theorem save_as_encoder_failure {Picture : Type} (display : World -> Picture)
        (os_system : string -> gmap string Recorder.file -> Z * gmap string Recorder.file)
        (fuel : nat) (movie_name : string) (start : Q) (stop : option Q) (step : Q)
        (loop duration : Z) (embed : bool) (r : Recorder) (os : Recorder.OS)
        (frames : list Picture) (r' : Recorder)
        (retval : Z) (files' : gmap string Recorder.file) :
  Recorder.frame_loop display fuel start (Recorder.export_stop stop r) step r
  = Some (inr (frames, r')) ->
  frames <> [] ->
  os_system (Recorder.ffmpeg_command movie_name)
            (staged movie_name frames loop duration os) = (retval, files') ->
  retval <> 0 ->
  Recorder.save_as display os_system fuel movie_name start stop step
                   loop duration embed true r os
  = Some (inr (None, r',
               Recorder.mkOS files' (Recorder.stdout os ++ [Recorder.ffmpeg_error])))
  /\ staged movie_name frames loop duration os !! (movie_name +:+ ".gif")
     = Some (Recorder.AnimatedGif frames loop duration).
Proof.
  intros Hloop Hframes Hsys Hret. split.
  - unfold Recorder.save_as. rewrite Hloop. simpl.
    destruct frames as [|first more]; [congruence|].
    unfold staged in Hsys.
    match goal with
    | |- context [if bool_decide (is_Some (?m !! ?k)) then _ else _] =>
        destruct (bool_decide (is_Some (m !! k))) eqn:Hexists
    end; simpl.
    + rewrite Hsys. rewrite (proj2 (Z.eqb_neq retval 0) Hret). reflexivity.
    + apply bool_decide_eq_false in Hexists.
      rewrite delete_id in Hsys by (apply eq_None_not_Some; exact Hexists).
      rewrite Hsys. rewrite (proj2 (Z.eqb_neq retval 0) Hret). reflexivity.
  - unfold staged. rewrite lookup_delete_ne by apply gif_name_ne_mp4.
    apply lookup_insert_eq.
Qed.

Lemma save_as_encoder_failure_witness :
  exists frames r' retval files',
    Recorder.frame_loop Sample.display 5 0
      (Recorder.export_stop (Some 1%Q) Sample.no_log) (1 # 10) Sample.no_log
    = Some (inr (frames, r'))
    /\ frames <> []
    /\ Sample.failing_encoder (Recorder.ffmpeg_command "aitk_movie")
         (staged "aitk_movie" frames 0 100 (Recorder.mkOS ∅ []))
       = (retval, files')
    /\ retval <> 0
    /\ Recorder.save_as Sample.display Sample.failing_encoder 5 "aitk_movie"
         0 (Some 1%Q) (1 # 10) 0 100 false true Sample.no_log (Recorder.mkOS ∅ [])
       = Some (inr (None, r',
                    Recorder.mkOS files' ([] ++ [Recorder.ffmpeg_error])))
    /\ staged "aitk_movie" frames 0 100 (Recorder.mkOS ∅ []) !! "aitk_movie.gif"
       = Some (Recorder.AnimatedGif frames 0 100).
Proof.
  eassert (Hloop : Recorder.frame_loop Sample.display 5 0
                     (Recorder.export_stop (Some 1%Q) Sample.no_log) (1 # 10)
                     Sample.no_log
                   = Some (inr ([_], _))) by (vm_compute; reflexivity).
  eassert (Hsys : Sample.failing_encoder (Recorder.ffmpeg_command "aitk_movie")
                    (staged "aitk_movie" _ 0 100 (Recorder.mkOS ∅ []))
                  = (1, _)) by reflexivity.
  assert (Hret : 1 <> 0) by discriminate.
  eexists _, _, _, _. split; [exact Hloop|]. split; [discriminate|].
  split; [exact Hsys|]. split; [exact Hret|].
  apply (save_as_encoder_failure Sample.display Sample.failing_encoder 5
           "aitk_movie" 0 (Some 1%Q) (1 # 10) 0 100 false Sample.no_log
           (Recorder.mkOS ∅ []) _ _ 1 _ Hloop ltac:(discriminate) Hsys Hret).
Defined.

(** C6 as stated fails: with an encoder that exits with status 1, the
    export of one frame returns [None], the value a call that renders no
    frame returns too; neither the animated image nor a failure value is
    returned, and the caller learns of the failure from the printed
    message only. *)
Lemma save_as_encoder_failure_counterexample :
  (exists r' os',
      Recorder.save_as Sample.display Sample.failing_encoder 5 "aitk_movie"
        0 (Some 1%Q) (1 # 10) 0 100 false true Sample.no_log (Recorder.mkOS ∅ [])
      = Some (inr (None, r', os'))
      /\ Recorder.stdout os' = [Recorder.ffmpeg_error]
      /\ is_Some (Recorder.files os' !! "aitk_movie.gif"))
  /\ (exists r' os',
         Recorder.save_as Sample.display Sample.failing_encoder 5 "aitk_movie"
           1 (Some 0%Q) (1 # 10) 0 100 false true Sample.no_log (Recorder.mkOS ∅ [])
         = Some (inr (None, r', os'))).
Proof.
  split.
  - eexists _, _. split; [vm_compute; reflexivity|].
    split; [reflexivity|]. eexists. vm_compute. reflexivity.
  - eexists _, _. vm_compute. reflexivity.
Qed.

(** * Further properties *)

(** ** The buttons *)

Section ButtonFacts.
Context {Picture S : Type}.
Variable function : Q -> S -> result (Picture * S).
Variable Inv : S -> Prop.
Hypothesis function_ok :
  forall v s, Inv s -> exists picture s', function v s = inr (picture, s') /\ Inv s'.

Lemma goto_begin (p : Player.t) (s : S) :
  Inv s -> on_display p ->
  exists p' s',
    Player.goto function "begin" p s = inr (p', s')
    /\ Inv s' /\ same_widget p p'
    /\ Player.slider_value p' = 0%Q.
Proof.
  intros Hs Hd. unfold Player.goto.
  change (String.eqb "begin" "begin") with true. cbv iota.
  edestruct (goto_finish (Picture := Picture) Inv)
    as (p' & s' & Hrun & Hs' & Hsame & Hv & _);
    [apply (set_slider_value_ok function Inv function_ok 0); eassumption|].
  exists p', s'. rewrite Hrun. auto.
Qed.

(** A position that is none of the four words moves nothing. *)
Lemma goto_other (position : string) (p : Player.t) (s : S) :
  position <> "begin" -> position <> "end" ->
  position <> "prev" -> position <> "next" ->
  Player.goto function position p s
  = inr (Player.set_position_text (round1 (Player.slider_value p)) p, s).
Proof.
  intros Hb He Hp Hn. unfold Player.goto.
  rewrite (proj2 (String.eqb_neq _ _) Hb), (proj2 (String.eqb_neq _ _) He),
    (proj2 (String.eqb_neq _ _) Hp), (proj2 (String.eqb_neq _ _) Hn).
  reflexivity.
Qed.

(** Whatever the position asked for, a press leaves the slider at a whole
    number of steps between 0 and the length of the log. *)
Lemma goto_in_range (position : string) (p : Player.t) (s : S) (k : Z) :
  Inv s -> on_display p ->
  0 <= k <= Player.length p ->
  (Player.slider_value p == tenths k)%Q ->
  exists p' s' k',
    Player.goto function position p s = inr (p', s')
    /\ Inv s' /\ same_widget p p'
    /\ 0 <= k' <= Player.length p
    /\ (Player.slider_value p' == tenths k')%Q.
Proof.
  intros Hs Hd Hk Hv.
  destruct (String.eqb_spec position "begin") as [->|Hb].
  { destruct (goto_begin p s Hs Hd) as (p' & s' & Hrun & Hs' & Hsame & Hv').
    exists p', s', 0. rewrite Hv'. repeat split; auto; try lia; apply Hsame. }
  destruct (String.eqb_spec position "end") as [->|He].
  { destruct (goto_end function Inv function_ok p s Hs Hd)
      as (p' & s' & Hrun & Hs' & Hsame & Hv' & _).
    exists p', s', (Player.length p). rewrite Hv'.
    repeat split; auto; try lia; apply Hsame. }
  destruct (String.eqb_spec position "prev") as [->|Hp].
  { destruct (goto_prev function Inv function_ok p s k Hs Hd Hv)
      as (p' & s' & Hrun & Hs' & Hsame & Hv').
    exists p', s', (if bool_decide (k - 1 < 0) then Player.length p else k - 1).
    split; [exact Hrun|]. split; [exact Hs'|]. split; [exact Hsame|].
    split; [case_bool_decide; lia|exact Hv']. }
  destruct (String.eqb_spec position "next") as [->|Hn].
  { destruct (goto_next function Inv function_ok p s k Hs Hd Hv)
      as (p' & s' & Hrun & Hs' & Hsame & Hv').
    exists p', s', (if bool_decide (Player.length p < k + 1) then 0 else k + 1).
    split; [exact Hrun|]. split; [exact Hs'|]. split; [exact Hsame|].
    split; [case_bool_decide; lia|exact Hv']. }
  exists (Player.set_position_text (round1 (Player.slider_value p)) p), s, k.
  split; [apply goto_other; assumption|]. split; [exact Hs|].
  split; [repeat split; exact Hd|]. split; [exact Hk|exact Hv].
Qed.
End ButtonFacts.

Lemma goto_position_text {Picture S : Type}
      (function : Q -> S -> result (Picture * S))
      (position : string) (p p' : Player.t) (s s' : S) :
  Player.goto function position p s = inr (p', s') ->
  Player.position_text p' = round1 (Player.slider_value p').
Proof.
  unfold Player.goto.
  match goal with
  | |- (?m ≫= _) = _ -> _ => destruct m as [e|[p1 s1]]
  end; simpl; [discriminate|].
  intros H. injection H as <- <-. reflexivity.
Qed.

(** X1.  Whatever string is passed as the position, a press on a widget
    on display, whose cursor is a whole number of steps between 0 and the
    end of the slider, returns and leaves the cursor such a number of
    steps again; the text box shows the cursor, and the recorder stays
    well formed. *)
Theorem press_keeps_cursor_in_range {Picture : Type} (display : World -> Picture)
        (position : string) (p : Player.t) (r : Recorder) (k : Z) :
  well_formed r -> on_display p ->
  0 <= k <= Player.length p ->
  (Player.slider_value p == inject_Z k * (1 # 10))%Q ->
  exists p' r' k',
    Player.goto (Recorder.goto display) position p r = inr (p', r')
    /\ 0 <= k' <= Player.length p'
    /\ (Player.slider_value p' == inject_Z k' * (1 # 10))%Q
    /\ (Player.position_text p' == Player.slider_value p')%Q
    /\ Player.length p' = Player.length p
    /\ on_display p' /\ well_formed r'.
Proof.
  intros Hwf Hd Hk Hv. rewrite recorded_tenths in Hv.
  destruct (goto_in_range (Recorder.goto display) well_formed
              (goto_well_formed display) position p r k Hwf Hd Hk Hv)
    as (p' & r' & k' & Hrun & Hwf' & (Hlen & _ & _ & Hd') & Hk' & Hv').
  exists p', r', k'. split; [exact Hrun|].
  split; [rewrite Hlen; exact Hk'|].
  split; [rewrite Hv', recorded_tenths; reflexivity|].
  split; [|auto].
  rewrite (goto_position_text _ _ _ _ _ _ Hrun), (round1_eq_tenths _ _ Hv'), Hv'.
  reflexivity.
Qed.

Lemma press_keeps_cursor_in_range_witness :
  well_formed Sample.two_steps /\ on_display (Sample.widget 2)
  /\ 0 <= 0 <= Player.length (Sample.widget 2)
  /\ (Player.slider_value (Sample.widget 2) == inject_Z 0 * (1 # 10))%Q
  /\ exists p' r' k',
      Player.goto (Recorder.goto Sample.display) "prev" (Sample.widget 2)
                  Sample.two_steps = inr (p', r')
      /\ 0 <= k' <= Player.length p'
      /\ (Player.slider_value p' == inject_Z k' * (1 # 10))%Q
      /\ (Player.position_text p' == Player.slider_value p')%Q
      /\ Player.length p' = Player.length (Sample.widget 2)
      /\ on_display p' /\ well_formed r'.
Proof.
  assert (Hk : 0 <= 0 <= Player.length (Sample.widget 2))
    by (vm_compute; split; discriminate).
  assert (Hv : (Player.slider_value (Sample.widget 2) == inject_Z 0 * (1 # 10))%Q)
    by (vm_compute; reflexivity).
  split; [exact well_formed_two_steps|]. split; [exact (on_display_widget 2)|].
  split; [exact Hk|]. split; [exact Hv|].
  apply (press_keeps_cursor_in_range Sample.display "prev" (Sample.widget 2)
           Sample.two_steps 0 well_formed_two_steps (on_display_widget 2) Hk Hv).
Defined.

(** X2.  On a widget on display, [next] and [prev] undo each other at
    every cursor between 0 and the end of the slider, the two ends
    included: [next] then [prev], and [prev] then [next], bring the
    cursor back to where it was. *)
Theorem next_prev_inverse {Picture : Type} (display : World -> Picture)
        (p : Player.t) (r : Recorder) (k : Z) :
  well_formed r -> on_display p ->
  0 <= k <= Player.length p ->
  (Player.slider_value p == inject_Z k * (1 # 10))%Q ->
  (exists p' r',
      press_twice display "next" "prev" p r = inr (p', r')
      /\ (Player.slider_value p' == inject_Z k * (1 # 10))%Q)
  /\ (exists p' r',
         press_twice display "prev" "next" p r = inr (p', r')
         /\ (Player.slider_value p' == inject_Z k * (1 # 10))%Q).
Proof.
  intros Hwf Hd Hk Hv. rewrite recorded_tenths in Hv. split.
  - destruct (goto_next (Recorder.goto display) well_formed
                (goto_well_formed display) p r k Hwf Hd Hv)
      as (p1 & r1 & Hrun1 & Hwf1 & (Hlen & _ & _ & Hd1) & Hv1).
    destruct (goto_prev (Recorder.goto display) well_formed
                (goto_well_formed display) p1 r1 _ Hwf1 Hd1 Hv1)
      as (p' & r' & Hrun & _ & _ & Hv').
    exists p', r'. unfold press_twice. rewrite Hrun1. simpl.
    split; [exact Hrun|]. rewrite Hv', recorded_tenths, Hlen.
    repeat case_bool_decide; try lia;
      match goal with |- (tenths ?a == tenths ?b)%Q => replace a with b by lia end;
      reflexivity.
  - destruct (goto_prev (Recorder.goto display) well_formed
                (goto_well_formed display) p r k Hwf Hd Hv)
      as (p1 & r1 & Hrun1 & Hwf1 & (Hlen & _ & _ & Hd1) & Hv1).
    destruct (goto_next (Recorder.goto display) well_formed
                (goto_well_formed display) p1 r1 _ Hwf1 Hd1 Hv1)
      as (p' & r' & Hrun & _ & _ & Hv').
    exists p', r'. unfold press_twice. rewrite Hrun1. simpl.
    split; [exact Hrun|]. rewrite Hv', recorded_tenths, Hlen.
    repeat case_bool_decide; try lia;
      match goal with |- (tenths ?a == tenths ?b)%Q => replace a with b by lia end;
      reflexivity.
Qed.

Lemma next_prev_inverse_witness :
  well_formed Sample.two_steps /\ on_display (Sample.widget 2)
  /\ 0 <= 0 <= Player.length (Sample.widget 2)
  /\ (Player.slider_value (Sample.widget 2) == inject_Z 0 * (1 # 10))%Q
  /\ (exists p' r',
         press_twice Sample.display "next" "prev" (Sample.widget 2)
                     Sample.two_steps = inr (p', r')
         /\ (Player.slider_value p' == inject_Z 0 * (1 # 10))%Q)
  /\ (exists p' r',
         press_twice Sample.display "prev" "next" (Sample.widget 2)
                     Sample.two_steps = inr (p', r')
         /\ (Player.slider_value p' == inject_Z 0 * (1 # 10))%Q).
Proof.
  assert (Hk : 0 <= 0 <= Player.length (Sample.widget 2))
    by (vm_compute; split; discriminate).
  assert (Hv : (Player.slider_value (Sample.widget 2) == inject_Z 0 * (1 # 10))%Q)
    by (vm_compute; reflexivity).
  split; [exact well_formed_two_steps|]. split; [exact (on_display_widget 2)|].
  split; [exact Hk|]. split; [exact Hv|].
  apply (next_prev_inverse Sample.display (Sample.widget 2) Sample.two_steps 0
           well_formed_two_steps (on_display_widget 2) Hk Hv).
Defined.

(** X3.  A position that is none of "begin", "end", "prev" and "next"
    is ignored: the press returns, the slider keeps its value, [function]
    is not called (its state is returned as it was, whatever [function]
    is and whether or not the widget is on display), and only the text
    box is set, to the rounded slider value. *)
Theorem unknown_position_ignored {Picture S : Type}
        (function : Q -> S -> result (Picture * S))
        (position : string) (p : Player.t) (s : S) :
  position <> "begin" -> position <> "end" ->
  position <> "prev" -> position <> "next" ->
  exists p',
    Player.goto function position p s = inr (p', s)
    /\ Player.control_slider p' = Player.control_slider p
    /\ Player.position_text p' = round1 (Player.slider_value p)
    /\ Player.displayers p' = Player.displayers p
    /\ Player.length p' = Player.length p
    /\ Player.player p' = Player.player p.
Proof.
  intros Hb He Hp Hn.
  exists (Player.set_position_text (round1 (Player.slider_value p)) p).
  split; [apply goto_other; assumption|]. repeat split.
Qed.

Lemma unknown_position_ignored_witness :
  "stop" <> "begin" /\ "stop" <> "end" /\ "stop" <> "prev" /\ "stop" <> "next"
  /\ exists p',
      Player.goto (Recorder.goto Sample.display) "stop"
                  (Player.init (Picture := World) 2 (1 # 10)) Sample.outgrown_log
      = inr (p', Sample.outgrown_log)
      /\ Player.control_slider p' = Player.control_slider (Player.init (Picture := World) 2 (1 # 10))
      /\ Player.position_text p'
         = round1 (Player.slider_value (Player.init (Picture := World) 2 (1 # 10)))
      /\ Player.displayers p' = Player.displayers (Player.init (Picture := World) 2 (1 # 10))
      /\ Player.length p' = Player.length (Player.init (Picture := World) 2 (1 # 10))
      /\ Player.player p' = Player.player (Player.init (Picture := World) 2 (1 # 10)).
Proof.
  assert (Hb : "stop" <> "begin") by discriminate.
  assert (He : "stop" <> "end") by discriminate.
  assert (Hp : "stop" <> "prev") by discriminate.
  assert (Hn : "stop" <> "next") by discriminate.
  split; [exact Hb|]. split; [exact He|]. split; [exact Hp|]. split; [exact Hn|].
  apply (unknown_position_ignored (Recorder.goto Sample.display) "stop"
           (Player.init (Picture := World) 2 (1 # 10)) Sample.outgrown_log Hb He Hp Hn).
Defined.

(** X4.  On a widget that has not been displayed ([initialize] has not
    run, so [displayers] is unset), [begin] with the cursor away from 0
    calls [function] and then raises [AttributeError]; with the cursor at
    0 the slider does not change, [function] is not called and the press
    returns. *)
Theorem begin_before_display {Picture S : Type}
        (function : Q -> S -> result (Picture * S))
        (p : Player.t) (s : S) :
  Player.displayers p = None ->
  (~ (Player.slider_value p == 0)%Q ->
   forall picture s', function 0%Q s = inr (picture, s') ->
                      Player.goto function "begin" p s = inl AttributeError)
  /\ ((Player.slider_value p == 0)%Q ->
      exists p', Player.goto function "begin" p s = inr (p', s)
                 /\ Player.slider_value p' = 0%Q).
Proof.
  intros Hnone. unfold Player.goto.
  change (String.eqb "begin" "begin") with true. cbv iota.
  unfold Player.set_slider_value. split.
  - intros Hv picture s' Hf.
    destruct (Qeq_bool (Player.slider_value p) 0) eqn:E.
    { apply Qeq_bool_iff in E. contradiction. }
    unfold Player.update_slider_control, Player.slider_value. simpl.
    rewrite Hf. simpl. rewrite Hnone. reflexivity.
  - intros Hv. apply Qeq_bool_iff in Hv. rewrite Hv. simpl.
    eexists. split; reflexivity.
Qed.

Lemma begin_before_display_witness :
  Player.displayers (Player.init (Picture := World) 2 (1 # 10)) = None
  /\ (~ (Player.slider_value (Player.init (Picture := World) 2 (1 # 10)) == 0)%Q ->
      forall picture s',
        Recorder.goto Sample.display 0%Q Sample.two_steps = inr (picture, s') ->
        Player.goto (Recorder.goto Sample.display) "begin"
                    (Player.init 2 (1 # 10)) Sample.two_steps
        = inl AttributeError)
  /\ ((Player.slider_value (Player.init (Picture := World) 2 (1 # 10)) == 0)%Q ->
      exists p',
        Player.goto (Recorder.goto Sample.display) "begin"
                    (Player.init 2 (1 # 10)) Sample.two_steps
        = inr (p', Sample.two_steps)
        /\ Player.slider_value p' = 0%Q).
Proof.
  split; [reflexivity|].
  apply (begin_before_display (Recorder.goto Sample.display)
           (Player.init 2 (1 # 10)) Sample.two_steps eq_refl).
Defined.

(** ** Play and stop *)

Lemma toggles_state {Picture : Type} (p : Player.t (Picture := Picture)) (n : nat) :
  Player.button_play p = "Play" ->
  _Player.can_run (Player.player p) = false ->
  Player.button_play (toggles n p) = (if Nat.odd n then "Stop" else "Play")
  /\ _Player.can_run (Player.player (toggles n p)) = Nat.odd n
  /\ _Player.time_wait (Player.player (toggles n p))
     = _Player.time_wait (Player.player p)
  /\ Player.control_slider (toggles n p) = Player.control_slider p
  /\ Player.length (toggles n p) = Player.length p.
Proof.
  intros Hb Hc. induction n as [|n (IHb & IHc & IHt & IHs & IHl)].
  - simpl. auto.
  - rewrite Nat.odd_succ, <- Nat.negb_odd. simpl toggles.
    unfold Player.toggle_play. rewrite IHb.
    destruct (Nat.odd n); simpl; auto.
Qed.

(** X5.  From the state a new widget is in (the button reads "Play", the
    thread is paused), after [n] clicks on the play button the button
    reads "Stop" and the thread may run exactly when [n] is odd; the
    thread's sleep time, the slider and the length are as before.  After
    an even number of clicks the thread sits in its wait: [run] makes no
    advancement. *)
Theorem toggle_play_alternates {Picture C : Type} (p : Player.t (Picture := Picture))
        (controller_goto : string -> C -> result C) (n fuel : nat) (c : C) :
  Player.button_play p = "Play" ->
  _Player.can_run (Player.player p) = false ->
  Player.button_play (toggles n p) = (if Nat.odd n then "Stop" else "Play")
  /\ _Player.can_run (Player.player (toggles n p)) = Nat.odd n
  /\ _Player.time_wait (Player.player (toggles n p))
     = _Player.time_wait (Player.player p)
  /\ Player.control_slider (toggles n p) = Player.control_slider p
  /\ (Nat.odd n = false ->
      _Player.run controller_goto (S fuel) (Player.player (toggles n p)) c
      = _Player.Blocked c).
Proof.
  intros Hb Hc. destruct (toggles_state p n Hb Hc) as (H1 & H2 & H3 & H4 & _).
  repeat split; auto.
  intros Heven. simpl. rewrite H2, Heven. reflexivity.
Qed.

Lemma toggle_play_alternates_witness :
  Player.button_play (Player.init (Picture := World) 2 (1 # 10)) = "Play"
  /\ _Player.can_run (Player.player (Player.init (Picture := World) 2 (1 # 10)))
     = false
  /\ Player.button_play (toggles 2 (Player.init (Picture := World) 2 (1 # 10)))
     = (if Nat.odd 2 then "Stop" else "Play")
  /\ _Player.can_run
       (Player.player (toggles 2 (Player.init (Picture := World) 2 (1 # 10))))
     = Nat.odd 2
  /\ _Player.time_wait
       (Player.player (toggles 2 (Player.init (Picture := World) 2 (1 # 10))))
     = _Player.time_wait (Player.player (Player.init (Picture := World) 2 (1 # 10)))
  /\ Player.control_slider (toggles 2 (Player.init (Picture := World) 2 (1 # 10)))
     = Player.control_slider (Player.init (Picture := World) 2 (1 # 10))
  /\ (Nat.odd 2 = false ->
      _Player.run (controller_goto Sample.display) 3
        (Player.player (toggles 2 (Player.init (Picture := World) 2 (1 # 10))))
        (Sample.widget 2, Sample.two_steps)
      = _Player.Blocked (Sample.widget 2, Sample.two_steps)).
Proof.
  split; [reflexivity|]. split; [reflexivity|].
  apply (toggle_play_alternates (Player.init (Picture := World) 2 (1 # 10))
           (controller_goto Sample.display) 2 2
           (Sample.widget 2, Sample.two_steps) eq_refl eq_refl).
Defined.

(** ** Recording and scrubbing *)

Lemma update_well_formed (r : Recorder) :
  well_formed r -> well_formed (Recorder.update r).
Proof.
  intros [Ho Hs]. split; [exact Ho|]. simpl. intros state Hstate.
  apply elem_of_app in Hstate as [Hstate|Hstate]; [apply Hs, Hstate|].
  apply list_elem_of_singleton in Hstate as ->.
  rewrite length_fmap. exact Ho.
Qed.

(** X6.  Recording and scrubbing round trip: after [update] has recorded
    the real world, [goto] at any time whose index is at or past the new
    last entry gives every robot of the copy the pose, the velocities and
    the stalled flag the robot of the real world had when recorded. *)
Theorem update_then_goto {Picture : Type} (display : World -> Picture)
        (t : Q) (r : Recorder) :
  well_formed r ->
  Z.of_nat (length (states r)) <= py_round (t / (1 # 10)) ->
  exists picture r',
    Recorder.goto display t (Recorder.update r) = inr (picture, r')
    /\ forall i robot,
        robots (world r) !! i = Some robot ->
        exists orig_robot robot',
          robots (orig_world r) !! i = Some orig_robot
          /\ robots (world r') !! i = Some robot'
          /\ x robot' = x orig_robot /\ y robot' = y orig_robot
          /\ a robot' = a orig_robot
          /\ vx robot' = vx orig_robot /\ vy robot' = vy orig_robot
          /\ va robot' = va orig_robot
          /\ stalled robot' = stalled orig_robot.
Proof.
  intros Hwf Hidx.
  assert (Hne : states (Recorder.update r) <> []).
  { simpl. intros H. apply app_eq_nil in H as [_ H]. discriminate H. }
  destruct (goto_recorded display t (Recorder.update r) Hne (update_well_formed r Hwf))
    as (state & picture & r' & Hstate & Hrun & _ & _ & _ & _ & Hin).
  assert (Hclamp : Recorder.clamp_index (Recorder.update r) (py_round (t / (1 # 10)))
                   = Z.of_nat (length (states r))).
  { unfold Recorder.clamp_index. simpl. rewrite length_app. simpl. lia. }
  rewrite Hclamp in Hstate, Hin. rewrite Nat2Z.id in Hstate. simpl in Hstate.
  rewrite list_lookup_middle in Hstate by reflexivity. injection Hstate as <-.
  exists picture, r'. split; [exact Hrun|]. intros i robot Hrobot.
  destruct (lookup_lt_is_Some_2 (robots (orig_world r)) i) as [orig_robot Ho].
  { destruct Hwf as [-> _]. eapply lookup_lt_Some, Hrobot. }
  exists orig_robot. eexists. split; [exact Ho|]. split.
  - apply (Hin i (snapshot_of orig_robot) robot); [|exact Hrobot].
    rewrite list_lookup_fmap, Ho. reflexivity.
  - unfold recorded_robot. simpl.
    destruct (do_trace robot); repeat split.
Qed.

Lemma update_then_goto_witness :
  well_formed Sample.two_steps
  /\ Z.of_nat (length (states Sample.two_steps)) <= py_round (5 / (1 # 10))
  /\ exists picture r',
      Recorder.goto Sample.display 5 (Recorder.update Sample.two_steps)
      = inr (picture, r')
      /\ forall i robot,
          robots (world Sample.two_steps) !! i = Some robot ->
          exists orig_robot robot',
            robots (orig_world Sample.two_steps) !! i = Some orig_robot
            /\ robots (world r') !! i = Some robot'
            /\ x robot' = x orig_robot /\ y robot' = y orig_robot
            /\ a robot' = a orig_robot
            /\ vx robot' = vx orig_robot /\ vy robot' = vy orig_robot
            /\ va robot' = va orig_robot
            /\ stalled robot' = stalled orig_robot.
Proof.
  assert (Hidx : Z.of_nat (length (states Sample.two_steps))
                 <= py_round (5 / (1 # 10))) by (vm_compute; discriminate).
  split; [exact well_formed_two_steps|]. split; [exact Hidx|].
  apply (update_then_goto Sample.display 5 Sample.two_steps
           well_formed_two_steps Hidx).
Defined.

(** [goto] writes the copy only: the log and the real world are as
    before. *)
Lemma goto_frame {Picture : Type} (display : World -> Picture)
      (t : Q) (r : Recorder) (picture : Picture) (r' : Recorder) :
  Recorder.goto display t r = inr (picture, r') ->
  states r' = states r /\ orig_world r' = orig_world r.
Proof.
  unfold Recorder.goto.
  destruct (Recorder.place_robots (py_round (t / (1 # 10))) r) as [e|robots'];
    simpl; [discriminate|].
  intros H. injection H as _ <-. split; reflexivity.
Qed.

Lemma goto_keeps_log {Picture : Type} (display : World -> Picture)
      (n : nat) (v : Q) (r : Recorder) :
  well_formed r /\ length (states r) = n ->
  exists picture r',
    Recorder.goto display v r = inr (picture, r')
    /\ (well_formed r' /\ length (states r') = n).
Proof.
  intros [Hwf Hn].
  destruct (goto_well_formed display v r Hwf) as (picture & r' & Hrun & Hwf').
  exists picture, r'. split; [exact Hrun|]. split; [exact Hwf'|].
  destruct (goto_frame display v r picture r' Hrun) as [-> _]. exact Hn.
Qed.

Lemma act_in_sync {Picture : Type} (display : World -> Picture)
      (a : action) (c : Player.t * Recorder) :
  in_sync c -> exists c', act display a c = inr c' /\ in_sync c'.
Proof.
  destruct c as [p r]. intros (Hwf & Hd & k & Hk & Hlen & Hv). simpl in *.
  destruct a as [| |t|position]; simpl.
  - eexists. split; [reflexivity|]. split; [apply update_well_formed, Hwf|].
    split; [exact Hd|]. exists k. simpl. rewrite length_app. simpl.
    split; [exact Hk|]. split; [lia|exact Hv].
  - eexists. split; [reflexivity|]. split; [exact Hwf|].
    split; [exact Hd|]. exists k. simpl. split; [lia|]. split; [lia|exact Hv].
  - destruct (goto_keeps_log display (length (states r)) t r (conj Hwf eq_refl))
      as (picture & r' & Hrun & Hwf' & Hn).
    rewrite Hrun. simpl. eexists. split; [reflexivity|]. split; [exact Hwf'|].
    split; [exact Hd|]. exists k. simpl. rewrite Hn. auto.
  - destruct (goto_in_range (Recorder.goto display)
                (fun r' => well_formed r' /\ length (states r') = length (states r))
                (goto_keeps_log display (length (states r)))
                position p r k (conj Hwf eq_refl) Hd Hk Hv)
      as (p' & r' & k' & Hrun & (Hwf' & Hn) & (Hl & _ & _ & Hd') & Hk' & Hv').
    exists (p', r'). split; [exact Hrun|]. split; [exact Hwf'|].
    split; [exact Hd'|]. exists k'. simpl. rewrite Hl, Hn. auto.
Qed.

(** X7.  A session never fails: from a well-formed recorder whose widget
    is on display, with the cursor a whole number of steps within the
    slider and the slider no longer than the log, every sequence of
    recordings ([update]), redraws ([draw]), scrubs ([goto]) and button
    presses returns, and leaves recorder and widget in such a state
    again. *)
Theorem session_never_raises {Picture : Type} (display : World -> Picture)
        (l : list action) (c : Player.t * Recorder) :
  in_sync c -> exists c', acts display l c = inr c' /\ in_sync c'.
Proof.
  revert c. induction l as [|a l IH]; intros c Hc; simpl.
  - exists c. split; [reflexivity|exact Hc].
  - destruct (act_in_sync display a c Hc) as (c1 & Hrun1 & Hc1).
    rewrite Hrun1. simpl. apply IH, Hc1.
Qed.

Lemma in_sync_sample : in_sync (Sample.widget 2, Sample.two_steps).
Proof.
  split; [exact well_formed_two_steps|]. split; [exact (on_display_widget 2)|].
  exists 0. vm_compute. repeat split; discriminate.
Defined.

Lemma session_never_raises_witness :
  in_sync (Sample.widget 2, Sample.two_steps)
  /\ exists c',
      acts Sample.display [Press "next"; Update; Draw; Press "end"; Goto (1 # 4)]
           (Sample.widget 2, Sample.two_steps) = inr c'
      /\ in_sync c'.
Proof.
  split; [exact in_sync_sample|].
  apply (session_never_raises Sample.display
           [Press "next"; Update; Draw; Press "end"; Goto (1 # 4)]
           (Sample.widget 2, Sample.two_steps) in_sync_sample).
Defined.

(** ** The trace window, at the edges *)

Lemma entries_length (robot_index : nat) (window : list (list snapshot)) :
  forall l, Recorder.entries robot_index window = inr l -> length l = length window.
Proof.
  induction window as [|state rest IH]; intros l; simpl.
  - intros H. injection H as <-. reflexivity.
  - destruct (state !! robot_index) as [s|]; [|discriminate].
    destruct (Recorder.entries robot_index rest) as [e|l']; simpl; [discriminate|].
    intros H. injection H as <-. simpl. rewrite (IH l' eq_refl). reflexivity.
Qed.

Lemma entries_raise (robot_index : nat) (window : list (list snapshot)) :
  forall j state,
    window !! j = Some state -> (length state <= robot_index)%nat ->
    Recorder.entries robot_index window = inl IndexError.
Proof.
  induction window as [|state0 rest IH]; intros j state Hj Hshort; [discriminate|].
  simpl. destruct (state0 !! robot_index) as [s|] eqn:Hs; [|reflexivity].
  destruct j as [|j]; simpl in Hj.
  - injection Hj as ->. apply lookup_lt_Some in Hs. lia.
  - rewrite (IH j state Hj Hshort). reflexivity.
Qed.

(** X8.  For a nonnegative index and a nonnegative maximum trace length,
    a trace that [get_trace] returns has at most [max_length + 1]
    entries, whatever the index (also past the end of the log), and never
    more than the log has. *)
Theorem get_trace_bounded (r : Recorder) (robot_index : nat) (i m : Z)
        (window : list (Point * Q)) :
  0 <= i -> 0 <= m ->
  Recorder.get_trace r robot_index i m = inr window ->
  (length window <= Z.to_nat (m + 1))%nat
  /\ (length window <= length (states r))%nat.
Proof.
  intros Hi Hm. unfold Recorder.get_trace.
  destruct (Recorder.entries robot_index
              (py_slice (states r) (Z.max (i - m) 0) (i + 1))) as [e|l] eqn:Hl;
    simpl; [discriminate|].
  intros H. injection H as <-. rewrite length_fmap, (entries_length _ _ _ Hl).
  unfold py_slice, slice_bound.
  destruct (Z.ltb_spec (Z.max (i - m) 0) 0) as [?|_]; [lia|].
  destruct (Z.ltb_spec (i + 1) 0) as [?|_]; [lia|].
  rewrite length_take, length_drop. lia.
Qed.

Lemma get_trace_bounded_witness :
  0 <= 7 /\ 0 <= 1
  /\ Recorder.get_trace Sample.three_steps 0 7 1 = inr []
  /\ (length ([] : list (Point * Q)) <= Z.to_nat (1 + 1))%nat
  /\ (length ([] : list (Point * Q)) <= length (states Sample.three_steps))%nat.
Proof.
  assert (Hi : 0 <= 7) by lia. assert (Hm : 0 <= 1) by lia.
  assert (Hrun : Recorder.get_trace Sample.three_steps 0 7 1 = inr [])
    by reflexivity.
  split; [exact Hi|]. split; [exact Hm|]. split; [exact Hrun|].
  apply (get_trace_bounded Sample.three_steps 0 7 1 [] Hi Hm Hrun).
Defined.

(** X9.  [get_trace] raises [IndexError] as soon as one recorded step of
    the window, the log indices [max(i - m, 0)] to [i], has no entry for
    the robot (the robot joined the world after that step was
    recorded). *)
Theorem get_trace_missing_entry (r : Recorder) (robot_index : nat) (i m k : Z)
        (state : list snapshot) :
  0 <= i < Z.of_nat (length (states r)) ->
  Z.max (i - m) 0 <= k <= i ->
  states r !! Z.to_nat k = Some state ->
  (length state <= robot_index)%nat ->
  Recorder.get_trace r robot_index i m = inl IndexError.
Proof.
  intros Hi Hk Hstate Hshort. unfold Recorder.get_trace.
  rewrite (entries_raise robot_index _ (Z.to_nat (k - Z.max (i - m) 0)) state);
    [reflexivity| |exact Hshort].
  rewrite py_slice_lookup by lia.
  rewrite bool_decide_eq_true_2 by lia.
  rewrite <- Hstate. f_equal. lia.
Qed.

Lemma get_trace_missing_entry_witness :
  0 <= 1 < Z.of_nat (length (states Sample.outgrown_log))
  /\ Z.max (1 - 1) 0 <= 0 <= 1
  /\ states Sample.outgrown_log !! Z.to_nat 0
     = Some (snapshot_of <$> robots (orig_world Sample.outgrown_log))
  /\ (length (snapshot_of <$> robots (orig_world Sample.outgrown_log)) <= 2)%nat
  /\ Recorder.get_trace Sample.outgrown_log 2 1 1 = inl IndexError.
Proof.
  assert (Hi : 0 <= 1 < Z.of_nat (length (states Sample.outgrown_log)))
    by (vm_compute; split; [discriminate|reflexivity]).
  assert (Hk : Z.max (1 - 1) 0 <= 0 <= 1) by (vm_compute; split; discriminate).
  assert (Hs : states Sample.outgrown_log !! Z.to_nat 0
               = Some (snapshot_of <$> robots (orig_world Sample.outgrown_log)))
    by reflexivity.
  assert (Hl : (length (snapshot_of <$> robots (orig_world Sample.outgrown_log))
                <= 2)%nat) by (vm_compute; lia).
  split; [exact Hi|]. split; [exact Hk|]. split; [exact Hs|]. split; [exact Hl|].
  apply (get_trace_missing_entry Sample.outgrown_log 2 1 1 0 _ Hi Hk Hs Hl).
Defined.

(** ** [arange], in both directions *)

Lemma inject_Z_S (k : nat) :
  (inject_Z (Z.of_nat (S k)) == inject_Z (Z.of_nat k) + 1)%Q.
Proof. rewrite Nat2Z.inj_succ. unfold Z.succ. rewrite inject_Z_plus. reflexivity. Qed.

Lemma arange_up_nth (fuel : nat) (stop step : Q) :
  forall (current : Q) (times : list Q),
    arange_up fuel current stop step = Some times ->
    (forall k t, times !! k = Some t ->
                 (t == current + inject_Z (Z.of_nat k) * step)%Q /\ (t <= stop)%Q)
    /\ (stop < current + inject_Z (Z.of_nat (length times)) * step)%Q.
Proof.
  induction fuel as [|fuel IH]; intros current times Hrun; simpl in Hrun;
    [discriminate|].
  destruct (Qle_bool current stop) eqn:Hle.
  - destruct (arange_up fuel (current + step) stop step) as [rest|] eqn:Hrest;
      [|discriminate].
    injection Hrun as <-. apply Qle_bool_iff in Hle.
    destruct (IH _ _ Hrest) as [Hnth Hlast]. split.
    + intros [|k] t Hk; simpl in Hk.
      * injection Hk as <-. split; [simpl; ring|exact Hle].
      * destruct (Hnth k t Hk) as [Ht Hs]. split; [|exact Hs].
        rewrite Ht, inject_Z_S. ring.
    + simpl length. rewrite inject_Z_S.
      eapply Qlt_le_trans; [exact Hlast|]. apply Qle_lteq. right. ring.
  - injection Hrun as <-. split; [intros k t Hk; discriminate|].
    simpl. apply not_true_iff_false in Hle. rewrite Qle_bool_iff in Hle.
    apply Qnot_le_lt in Hle. eapply Qlt_le_trans; [exact Hle|].
    apply Qle_lteq. right. ring.
Qed.

Lemma arange_down_nth (fuel : nat) (stop step : Q) :
  forall (current : Q) (times : list Q),
    arange_down fuel current stop step = Some times ->
    (forall k t, times !! k = Some t ->
                 (t == current + inject_Z (Z.of_nat k) * step)%Q /\ (stop <= t)%Q)
    /\ (current + inject_Z (Z.of_nat (length times)) * step < stop)%Q.
Proof.
  induction fuel as [|fuel IH]; intros current times Hrun; simpl in Hrun;
    [discriminate|].
  destruct (Qle_bool stop current) eqn:Hle.
  - destruct (arange_down fuel (current + step) stop step) as [rest|] eqn:Hrest;
      [|discriminate].
    injection Hrun as <-. apply Qle_bool_iff in Hle.
    destruct (IH _ _ Hrest) as [Hnth Hlast]. split.
    + intros [|k] t Hk; simpl in Hk.
      * injection Hk as <-. split; [simpl; ring|exact Hle].
      * destruct (Hnth k t Hk) as [Ht Hs]. split; [|exact Hs].
        rewrite Ht, inject_Z_S. ring.
    + simpl length. rewrite inject_Z_S.
      eapply Qle_lt_trans; [|exact Hlast]. apply Qle_lteq. right. ring.
  - injection Hrun as <-. split; [intros k t Hk; discriminate|].
    simpl. apply not_true_iff_false in Hle. rewrite Qle_bool_iff in Hle.
    apply Qnot_le_lt in Hle. eapply Qle_lt_trans; [|exact Hle].
    apply Qle_lteq. right. ring.
Qed.

Lemma arange_down_within (n : nat) :
  forall (current stop step : Q),
    (step < 0)%Q ->
    (current - stop < inject_Z (Z.of_nat n) * - step)%Q ->
    exists times, arange_down (S n) current stop step = Some times.
Proof.
  induction n as [|n IH]; intros current stop step Hstep Hn.
  - exists []. simpl.
    destruct (Qle_bool stop current) eqn:Hle; [|reflexivity].
    apply Qle_bool_iff in Hle.
    change (inject_Z (Z.of_nat 0)) with 0%Q in Hn. lra.
  - rewrite inject_Z_S in Hn.
    change (arange_down (S (S n)) current stop step)
      with (if Qle_bool stop current
            then cons current <$> arange_down (S n) (current + step)%Q stop step
            else Some []).
    destruct (Qle_bool stop current); [|exists []; reflexivity].
    destruct (IH (current + step)%Q stop step Hstep) as [rest Hrest].
    { set (k := inject_Z (Z.of_nat n)) in *. nra. }
    rewrite Hrest. exists (current :: rest). reflexivity.
Qed.

Lemma arange_down_total (current stop step : Q) :
  (step < 0)%Q -> exists fuel times, arange_down fuel current stop step = Some times.
Proof.
  intros Hstep.
  set (q := ((current - stop) / - step)%Q).
  exists (S (Z.to_nat (Qfloor q + 1))).
  apply arange_down_within; [exact Hstep|].
  assert (Hq : (q < inject_Z (Z.of_nat (Z.to_nat (Qfloor q + 1))))%Q).
  { eapply Qlt_le_trans; [apply Qlt_floor|]. rewrite <- Zle_Qle. lia. }
  assert (Heq : (current - stop == q * - step)%Q).
  { unfold q. field. lra. }
  rewrite Heq. apply Qmult_lt_r; [lra|exact Hq].
Qed.

(** X10.  With a step other than zero the loop of
    [arange(start, stop, step)] ends, and the values it yields are
    [start + k * step] for [k = 0, 1, ...] in this order.  With a
    positive step they are all at most [stop] and the next one would
    exceed it; with a negative step they are all at least [stop] and the
    next one would be below it: the range includes both of its ends when
    the step reaches them. *)
Theorem arange_values (start stop step : Q) :
  (~ (step == 0)%Q ->
   exists fuel times, arange fuel start stop step = Some times)
  /\ forall fuel times,
      arange fuel start stop step = Some times ->
      (forall k t, times !! k = Some t ->
                   (t == start + inject_Z (Z.of_nat k) * step)%Q)
      /\ ((0 < step)%Q ->
          (forall t, t ∈ times -> (t <= stop)%Q)
          /\ (stop < start + inject_Z (Z.of_nat (length times)) * step)%Q)
      /\ (~ (0 < step)%Q ->
          (forall t, t ∈ times -> (stop <= t)%Q)
          /\ (start + inject_Z (Z.of_nat (length times)) * step < stop)%Q).
Proof.
  split.
  - intros Hstep. unfold arange. destruct (Qlt_le_dec 0 step) as [Hpos|Hneg].
    + apply arange_up_total, Hpos.
    + apply arange_down_total. apply Qle_lteq in Hneg as [Hneg|Hneg];
        [exact Hneg|contradiction].
  - intros fuel times. unfold arange.
    destruct (Qlt_le_dec 0 step) as [Hpos|Hneg]; intros Hrun.
    + destruct (arange_up_nth fuel stop step start times Hrun) as [Hnth Hlast].
      split; [intros k t Hk; apply (Hnth k t Hk)|]. split; [|contradiction].
      intros _. split; [|exact Hlast].
      intros t Ht. apply list_elem_of_lookup_1 in Ht as [k Hk]. apply (Hnth k t Hk).
    + destruct (arange_down_nth fuel stop step start times Hrun) as [Hnth Hlast].
      split; [intros k t Hk; apply (Hnth k t Hk)|]. split.
      * intros Hpos. exfalso. apply (Qlt_not_le _ _ Hpos Hneg).
      * intros _. split; [|exact Hlast].
        intros t Ht. apply list_elem_of_lookup_1 in Ht as [k Hk].
        apply (Hnth k t Hk).
Qed.



(** ** The branches of [save_as] *)

Lemma render_frames_frame {Picture : Type} (display : World -> Picture)
      (times : list Q) :
  forall r frames r',
    Recorder.render_frames display times r = inr (frames, r') ->
    states r' = states r /\ orig_world r' = orig_world r
    /\ length frames = length times.
Proof.
  induction times as [|t rest IH]; intros r frames r'; simpl.
  - intros H. injection H as <- <-. repeat split.
  - destruct (Recorder.goto display t r) as [e|[picture r1]] eqn:Hgoto; simpl;
      [discriminate|].
    destruct (Recorder.render_frames display rest r1) as [e|[frames1 r2]] eqn:Hrest;
      simpl; [discriminate|].
    intros H. injection H as <- <-.
    destruct (goto_frame display t r picture r1 Hgoto) as [Hs1 Ho1].
    destruct (IH r1 frames1 r2 Hrest) as (Hs2 & Ho2 & Hlen).
    split; [congruence|]. split; [congruence|]. simpl. congruence.
Qed.

(** X12.  Whatever [save_as] returns, it has written the copy only: the
    recorder it leaves has the log and the real world of the recorder it
    was called on. *)
Theorem save_as_keeps_log {Picture : Type} (display : World -> Picture)
        (os_system : string -> gmap string Recorder.file -> Z * gmap string Recorder.file)
        (fuel : nat) (movie_name : string) (start : Q) (stop : option Q) (step : Q)
        (loop duration : Z) (embed mp4 : bool) (r : Recorder) (os : Recorder.OS)
        (value : option Recorder.displayable) (r' : Recorder) (os' : Recorder.OS) :
  Recorder.save_as display os_system fuel movie_name start stop step
                   loop duration embed mp4 r os = Some (inr (value, r', os')) ->
  states r' = states r /\ orig_world r' = orig_world r.
Proof.
  unfold Recorder.save_as, Recorder.frame_loop.
  destruct (arange fuel start (Recorder.export_stop stop r) step) as [times|];
    simpl; [|discriminate].
  destruct (Recorder.render_frames display times r) as [e|[frames r1]] eqn:Hframes;
    simpl; [discriminate|].
  destruct (render_frames_frame display times r frames r1 Hframes) as (Hs & Ho & _).
  destruct frames as [|first more].
  - intros H. injection H as _ <- _. split; assumption.
  - destruct mp4; simpl.
    + match goal with
      | |- context [os_system ?c ?f] => destruct (os_system c f) as [retval files']
      end.
      destruct (retval =? 0); intros H; injection H as _ <- _; split; assumption.
    + intros H. injection H as _ <- _. split; assumption.
Qed.

Lemma save_as_keeps_log_witness :
  exists value r' os',
    Recorder.save_as Sample.display Sample.failing_encoder 5 "aitk_movie"
      0 None (1 # 10) 0 100 false true Sample.two_steps (Recorder.mkOS ∅ [])
    = Some (inr (value, r', os'))
    /\ states r' = states Sample.two_steps
    /\ orig_world r' = orig_world Sample.two_steps.
Proof.
  eassert (Hrun : Recorder.save_as Sample.display Sample.failing_encoder 5
                    "aitk_movie" 0 None (1 # 10) 0 100 false true Sample.two_steps
                    (Recorder.mkOS ∅ [])
                  = Some (inr (_, _, _))) by (vm_compute; reflexivity).
  eexists _, _, _. split; [exact Hrun|].
  apply (save_as_keeps_log _ _ _ _ _ _ _ _ _ _ _ _ _ _ _ _ Hrun).
Defined.

(** X13.  An ascending export whose start lies past the clamped stop
    renders no frame: [save_as] returns [None] at once, writes no file,
    prints nothing, starts no encoder and leaves the recorder as it
    was. *)
Theorem save_as_empty_range {Picture : Type} (display : World -> Picture)
        (os_system : string -> gmap string Recorder.file -> Z * gmap string Recorder.file)
        (fuel : nat) (movie_name : string) (start : Q) (stop : option Q) (step : Q)
        (loop duration : Z) (embed mp4 : bool) (r : Recorder) (os : Recorder.OS) :
  (0 < step)%Q ->
  (Recorder.export_stop stop r < start)%Q ->
  Recorder.save_as display os_system (S fuel) movie_name start stop step
                   loop duration embed mp4 r os = Some (inr (None, r, os)).
Proof.
  intros Hstep Hstart. unfold Recorder.save_as, Recorder.frame_loop.
  rewrite (arange_ascending _ _ _ _ Hstep). simpl.
  assert (Hle : Qle_bool start (Recorder.export_stop stop r) = false).
  { apply not_true_iff_false. rewrite Qle_bool_iff. apply Qlt_not_le, Hstart. }
  rewrite Hle. reflexivity.
Qed.

Lemma save_as_empty_range_witness :
  (0 < 1 # 10)%Q
  /\ (Recorder.export_stop None Sample.two_steps < 1)%Q
  /\ Recorder.save_as Sample.display Sample.failing_encoder 1 "aitk_movie"
       1 None (1 # 10) 0 100 false true Sample.two_steps (Recorder.mkOS ∅ [])
     = Some (inr (None, Sample.two_steps, Recorder.mkOS ∅ [])).
Proof.
  assert (Hstep : (0 < 1 # 10)%Q) by reflexivity.
  assert (Hstart : (Recorder.export_stop None Sample.two_steps < 1)%Q)
    by (vm_compute; reflexivity).
  split; [exact Hstep|]. split; [exact Hstart|].
  apply (save_as_empty_range Sample.display Sample.failing_encoder 0 "aitk_movie"
           1 None (1 # 10) 0 100 false true Sample.two_steps (Recorder.mkOS ∅ [])
           Hstep Hstart).
Defined.

(** X14.  With [mp4=False] and at least one frame rendered, [save_as]
    writes the animated image of all the frames under the movie's name,
    returns the image to display, starts no encoder (the outcome is the
    same whatever the encoder) and leaves every other file, a video of
    the same name included, as it was; nothing is printed. *)
Theorem save_as_gif_only {Picture : Type} (display : World -> Picture)
        (fuel : nat) (movie_name : string) (start : Q) (stop : option Q) (step : Q)
        (loop duration : Z) (embed : bool) (r : Recorder) (os : Recorder.OS)
        (frames : list Picture) (r' : Recorder) :
  Recorder.frame_loop display fuel start (Recorder.export_stop stop r) step r
  = Some (inr (frames, r')) ->
  frames <> [] ->
  exists os',
    (forall os_system,
        Recorder.save_as display os_system fuel movie_name start stop step
                         loop duration embed false r os
        = Some (inr (Some (Recorder.display_Image (movie_name +:+ ".gif") embed),
                     r', os')))
    /\ Recorder.files os' !! (movie_name +:+ ".gif")
       = Some (Recorder.AnimatedGif frames loop duration)
    /\ (forall name, name <> movie_name +:+ ".gif" ->
                     Recorder.files os' !! name = Recorder.files os !! name)
    /\ Recorder.stdout os' = Recorder.stdout os.
Proof.
  intros Hloop Hframes.
  exists (Recorder.mkOS
            (<[movie_name +:+ ".gif" := Recorder.AnimatedGif frames loop duration]>
               (Recorder.files os))
            (Recorder.stdout os)).
  split; [|split; [|split]].
  - intros os_system. unfold Recorder.save_as. rewrite Hloop. simpl.
    destruct frames as [|first more]; [congruence|]. reflexivity.
  - simpl. apply lookup_insert_eq.
  - intros name Hname. simpl. apply lookup_insert_ne. congruence.
  - reflexivity.
Qed.

Lemma save_as_gif_only_witness :
  exists frames r',
    Recorder.frame_loop Sample.display 5 0
      (Recorder.export_stop (Some 1%Q) Sample.no_log) (1 # 10) Sample.no_log
    = Some (inr (frames, r'))
    /\ frames <> []
    /\ exists os',
        (forall os_system,
            Recorder.save_as Sample.display os_system 5 "aitk_movie"
              0 (Some 1%Q) (1 # 10) 0 100 false false Sample.no_log
              MoreSamples.no_files
            = Some (inr (Some (Recorder.display_Image ("aitk_movie" +:+ ".gif") false),
                         r', os')))
        /\ Recorder.files os' !! ("aitk_movie" +:+ ".gif")
           = Some (Recorder.AnimatedGif frames 0 100)
        /\ (forall name, name <> "aitk_movie" +:+ ".gif" ->
                         Recorder.files os' !! name
                         = Recorder.files MoreSamples.no_files !! name)
        /\ Recorder.stdout os' = Recorder.stdout MoreSamples.no_files.
Proof.
  eassert (Hloop : Recorder.frame_loop Sample.display 5 0
                     (Recorder.export_stop (Some 1%Q) Sample.no_log) (1 # 10)
                     Sample.no_log
                   = Some (inr ([_], _))) by (vm_compute; reflexivity).
  eexists _, _. split; [exact Hloop|]. split; [discriminate|].
  apply (save_as_gif_only Sample.display 5 "aitk_movie" 0 (Some 1%Q) (1 # 10)
           0 100 false Sample.no_log MoreSamples.no_files _ _ Hloop
           ltac:(discriminate)).
Defined.

(** X15.  When a video is asked for, frames have been rendered and the
    encoder exits with status 0, [save_as] returns the video tag of the
    movie and prints nothing.  The encoder is started on files that hold
    the animated image and no video of the movie's name: a video left by
    an earlier export has been removed first. *)
Theorem save_as_encoder_success {Picture : Type} (display : World -> Picture)
        (os_system : string -> gmap string Recorder.file -> Z * gmap string Recorder.file)
        (fuel : nat) (movie_name : string) (start : Q) (stop : option Q) (step : Q)
        (loop duration : Z) (embed : bool) (r : Recorder) (os : Recorder.OS)
        (frames : list Picture) (r' : Recorder)
        (files' : gmap string Recorder.file) :
  Recorder.frame_loop display fuel start (Recorder.export_stop stop r) step r
  = Some (inr (frames, r')) ->
  frames <> [] ->
  os_system (Recorder.ffmpeg_command movie_name)
            (staged movie_name frames loop duration os) = (0, files') ->
  Recorder.save_as display os_system fuel movie_name start stop step
                   loop duration embed true r os
  = Some (inr (Some (Recorder.display_HTML (Recorder.video_tag movie_name)), r',
               Recorder.mkOS files' (Recorder.stdout os)))
  /\ staged movie_name frames loop duration os !! (movie_name +:+ ".mp4") = None
  /\ staged movie_name frames loop duration os !! (movie_name +:+ ".gif")
     = Some (Recorder.AnimatedGif frames loop duration).
Proof.
  intros Hloop Hframes Hsys. split; [|split].
  - unfold Recorder.save_as. rewrite Hloop. simpl.
    destruct frames as [|first more]; [congruence|].
    unfold staged in Hsys.
    match goal with
    | |- context [if bool_decide (is_Some (?m !! ?k)) then _ else _] =>
        destruct (bool_decide (is_Some (m !! k))) eqn:Hexists
    end; simpl.
    + rewrite Hsys. reflexivity.
    + apply bool_decide_eq_false in Hexists.
      rewrite delete_id in Hsys by (apply eq_None_not_Some; exact Hexists).
      rewrite Hsys. reflexivity.
  - unfold staged. apply lookup_delete_eq.
  - unfold staged. rewrite lookup_delete_ne by apply gif_name_ne_mp4.
    apply lookup_insert_eq.
Qed.

Lemma save_as_encoder_success_witness :
  exists frames r' files',
    Recorder.frame_loop Sample.display 5 0
      (Recorder.export_stop (Some 1%Q) Sample.no_log) (1 # 10) Sample.no_log
    = Some (inr (frames, r'))
    /\ frames <> []
    /\ MoreSamples.working_encoder (Recorder.ffmpeg_command "aitk_movie")
         (staged "aitk_movie" frames 0 100 MoreSamples.no_files) = (0, files')
    /\ Recorder.save_as Sample.display MoreSamples.working_encoder 5 "aitk_movie"
         0 (Some 1%Q) (1 # 10) 0 100 false true Sample.no_log MoreSamples.no_files
       = Some (inr (Some (Recorder.display_HTML (Recorder.video_tag "aitk_movie")),
                    r',
                    Recorder.mkOS files' (Recorder.stdout MoreSamples.no_files)))
    /\ staged "aitk_movie" frames 0 100 MoreSamples.no_files
         !! ("aitk_movie" +:+ ".mp4") = None
    /\ staged "aitk_movie" frames 0 100 MoreSamples.no_files
         !! ("aitk_movie" +:+ ".gif")
       = Some (Recorder.AnimatedGif frames 0 100).
Proof.
  eassert (Hloop : Recorder.frame_loop Sample.display 5 0
                     (Recorder.export_stop (Some 1%Q) Sample.no_log) (1 # 10)
                     Sample.no_log
                   = Some (inr ([_], _))) by (vm_compute; reflexivity).
  eassert (Hsys : MoreSamples.working_encoder (Recorder.ffmpeg_command "aitk_movie")
                    (staged "aitk_movie" _ 0 100 MoreSamples.no_files)
                  = (0, _)) by reflexivity.
  eexists _, _, _. split; [exact Hloop|]. split; [discriminate|].
  split; [exact Hsys|].
  apply (save_as_encoder_success Sample.display MoreSamples.working_encoder 5
           "aitk_movie" 0 (Some 1%Q) (1 # 10) 0 100 false Sample.no_log
           MoreSamples.no_files _ _ _ Hloop ltac:(discriminate) Hsys).
Defined.

(** ** Segments and lines *)

Lemma Qeq_bool_false (a b : Q) : Qeq_bool a b = false -> ~ (a == b)%Q.
Proof. intros H Hab. apply Qeq_bool_iff in Hab. congruence. Qed.

Lemma intersect_coefs_spec (L1_0 L1_1 L1_2 L2_0 L2_1 L2_2 : Q) :
  (utils.intersect_coefs L1_0 L1_1 L1_2 L2_0 L2_1 L2_2 = None
   <-> (L1_0 * L2_1 - L1_1 * L2_0 == 0)%Q)
  /\ forall x y,
      utils.intersect_coefs L1_0 L1_1 L1_2 L2_0 L2_1 L2_2 = Some (x, y) ->
      (L1_0 * x + L1_1 * y == L1_2)%Q /\ (L2_0 * x + L2_1 * y == L2_2)%Q.
Proof.
  unfold utils.intersect_coefs.
  destruct (Qeq_bool (L1_0 * L2_1 - L1_1 * L2_0) 0) eqn:HD; simpl.
  - apply Qeq_bool_iff in HD. split; [split; auto|]. intros x y H. discriminate H.
  - apply Qeq_bool_false in HD. split.
    + split; [intros H; discriminate H|intros H; contradiction].
    + intros x y H. injection H as <- <-. split; field; exact HD.
Qed.

(** X16.  [intersect_coefs] solves the two line equations
    [L_0 * x + L_1 * y = L_2]: it returns [None] exactly when the
    determinant of the two lines is zero (parallel or equal lines, or a
    degenerate one), and otherwise a point that satisfies both equations,
    the only one that does. *)
Theorem intersect_coefs_solves (L1_0 L1_1 L1_2 L2_0 L2_1 L2_2 : Q) :
  (utils.intersect_coefs L1_0 L1_1 L1_2 L2_0 L2_1 L2_2 = None
   <-> (L1_0 * L2_1 - L1_1 * L2_0 == 0)%Q)
  /\ forall x y,
      utils.intersect_coefs L1_0 L1_1 L1_2 L2_0 L2_1 L2_2 = Some (x, y) ->
      (L1_0 * x + L1_1 * y == L1_2)%Q /\ (L2_0 * x + L2_1 * y == L2_2)%Q
      /\ forall x' y',
          (L1_0 * x' + L1_1 * y' == L1_2)%Q -> (L2_0 * x' + L2_1 * y' == L2_2)%Q ->
          (x' == x)%Q /\ (y' == y)%Q.
Proof.
  destruct (intersect_coefs_spec L1_0 L1_1 L1_2 L2_0 L2_1 L2_2) as [Hnone Hsome].
  split; [exact Hnone|]. intros x y H.
  destruct (Hsome x y H) as [H1 H2]. split; [exact H1|]. split; [exact H2|].
  intros x' y' H1' H2'.
  assert (HD : ~ (L1_0 * L2_1 - L1_1 * L2_0 == 0)%Q).
  { intros HD. apply Hnone in HD. congruence. }
  assert (E1 : (L1_0 * (x' - x) + L1_1 * (y' - y) == 0)%Q) by lra.
  assert (E2 : (L2_0 * (x' - x) + L2_1 * (y' - y) == 0)%Q) by lra.
  assert (Hx : ((x' - x) * (L1_0 * L2_1 - L1_1 * L2_0) == 0)%Q).
  { transitivity (L2_1 * (L1_0 * (x' - x) + L1_1 * (y' - y))
                  - L1_1 * (L2_0 * (x' - x) + L2_1 * (y' - y)))%Q; [ring|].
    rewrite E1, E2. ring. }
  assert (Hy : ((y' - y) * (L1_0 * L2_1 - L1_1 * L2_0) == 0)%Q).
  { transitivity (L1_0 * (L2_0 * (x' - x) + L2_1 * (y' - y))
                  - L2_0 * (L1_0 * (x' - x) + L1_1 * (y' - y)))%Q; [ring|].
    rewrite E1, E2. ring. }
  apply Qmult_integral in Hx as [Hx|Hx]; [|contradiction].
  apply Qmult_integral in Hy as [Hy|Hy]; [|contradiction].
  split; lra.
Qed.

Lemma intersect_hit_some (p1x p1y p2x p2y p3x p3y p4x p4y x y : Q) :
  utils.intersect_hit p1x p1y p2x p2y p3x p3y p4x p4y = Some (x, y) ->
  utils.intersect_coefs (p1y - p2y) (p2x - p1x) (- (p1x * p2y - p2x * p1y))
                        (p3y - p4y) (p4x - p3x) (- (p3x * p4y - p4x * p3y))
  = Some (x, y)
  /\ (Qmin p1x p2x - (1 # 10) <= x <= Qmax p1x p2x + (1 # 10))%Q
  /\ (Qmin p1y p2y - (1 # 10) <= y <= Qmax p1y p2y + (1 # 10))%Q
  /\ (Qmin p3x p4x - (1 # 10) <= x <= Qmax p3x p4x + (1 # 10))%Q
  /\ (Qmin p3y p4y - (1 # 10) <= y <= Qmax p3y p4y + (1 # 10))%Q.
Proof.
  unfold utils.intersect_hit, utils.coefs.
  destruct (utils.intersect_coefs _ _ _ _ _ _) as [[x0 y0]|]; [|discriminate].
  repeat match goal with
         | |- context [Qle_bool ?a ?b] =>
             let E := fresh "E" in
             destruct (Qle_bool a b) eqn:E; simpl; try discriminate
         end.
  intros H. injection H as <- <-.
  repeat match goal with
         | E : Qle_bool _ _ = true |- _ => apply Qle_bool_iff in E
         end.
  repeat split; assumption.
Qed.

(** X17.  A point that [intersect_hit] returns lies on the line through
    the first segment and on the line through the second, and inside the
    bounding box of each segment widened by 0.1 on every side.  For
    parallel segments, overlapping ones included, [intersect_hit] returns
    [None]. *)
Theorem intersect_hit_sound (p1x p1y p2x p2y p3x p3y p4x p4y : Q) :
  (forall x y,
      utils.intersect_hit p1x p1y p2x p2y p3x p3y p4x p4y = Some (x, y) ->
      ((x - p1x) * (p2y - p1y) == (y - p1y) * (p2x - p1x))%Q
      /\ ((x - p3x) * (p4y - p3y) == (y - p3y) * (p4x - p3x))%Q
      /\ (Qmin p1x p2x - (1 # 10) <= x <= Qmax p1x p2x + (1 # 10))%Q
      /\ (Qmin p1y p2y - (1 # 10) <= y <= Qmax p1y p2y + (1 # 10))%Q
      /\ (Qmin p3x p4x - (1 # 10) <= x <= Qmax p3x p4x + (1 # 10))%Q
      /\ (Qmin p3y p4y - (1 # 10) <= y <= Qmax p3y p4y + (1 # 10))%Q)
  /\ (((p2x - p1x) * (p4y - p3y) == (p2y - p1y) * (p4x - p3x))%Q ->
      utils.intersect_hit p1x p1y p2x p2y p3x p3y p4x p4y = None).
Proof.
  split.
  - intros x y H.
    destruct (intersect_hit_some _ _ _ _ _ _ _ _ _ _ H) as (Hc & Hb).
    destruct (intersect_coefs_spec (p1y - p2y) (p2x - p1x)
                (- (p1x * p2y - p2x * p1y))
                (p3y - p4y) (p4x - p3x) (- (p3x * p4y - p4x * p3y)))
      as [_ Hsol].
    destruct (Hsol x y Hc) as [H1 H2].
    split; [lra|]. split; [lra|exact Hb].
  - intros Hpar. unfold utils.intersect_hit, utils.coefs.
    assert (HD : utils.intersect_coefs (p1y - p2y) (p2x - p1x)
                   (- (p1x * p2y - p2x * p1y))
                   (p3y - p4y) (p4x - p3x) (- (p3x * p4y - p4x * p3y)) = None).
    { apply intersect_coefs_spec. lra. }
    rewrite HD. reflexivity.
Qed.

Lemma ccw_spec (ax ay bx by' cx cy : Q) :
  utils.ccw ax ay bx by' cx cy = true
  <-> ((by' - ay) * (cx - ax) < (cy - ay) * (bx - ax))%Q.
Proof. unfold utils.ccw. apply Qltb_lt. Qed.

Lemma ccw_false (ax ay bx by' cx cy : Q) :
  utils.ccw ax ay bx by' cx cy = false
  <-> ((cy - ay) * (bx - ax) <= (by' - ay) * (cx - ax))%Q.
Proof.
  rewrite <- not_true_iff_false, ccw_spec. split.
  - apply Qnot_lt_le.
  - intros H1 H2. apply (Qlt_not_le _ _ H2 H1).
Qed.

(** X18.  [intersect] never reports segments that lie on one line:
    when C and D are both on the line through A and B, the answer is
    false, also when the two segments overlap or are equal. *)
Theorem intersect_collinear (ax ay bx by' cx cy dx dy : Q) :
  ((cy - ay) * (bx - ax) == (by' - ay) * (cx - ax))%Q ->
  ((dy - ay) * (bx - ax) == (by' - ay) * (dx - ax))%Q ->
  utils.intersect ax ay bx by' cx cy dx dy = false.
Proof.
  intros HC HD. unfold utils.intersect.
  assert (H1 : utils.ccw ax ay bx by' cx cy = false) by (apply ccw_false; lra).
  assert (H2 : utils.ccw ax ay bx by' dx dy = false) by (apply ccw_false; lra).
  rewrite H1, H2. simpl. apply andb_false_r.
Qed.

Lemma intersect_collinear_witness :
  ((1 - 0) * (4 - 0) == (4 - 0) * (1 - 0))%Q
  /\ ((3 - 0) * (4 - 0) == (4 - 0) * (3 - 0))%Q
  /\ utils.intersect 0 0 4 4 1 1 3 3 = false.
Proof.
  assert (HC : ((1 - 0) * (4 - 0) == (4 - 0) * (1 - 0))%Q) by reflexivity.
  assert (HD : ((3 - 0) * (4 - 0) == (4 - 0) * (3 - 0))%Q) by reflexivity.
  split; [exact HC|]. split; [exact HD|].
  apply (intersect_collinear 0 0 4 4 1 1 3 3 HC HD).
Defined.

Lemma frac_in_unit (n d : Q) :
  (0 < d)%Q -> (0 <= n <= d)%Q -> (0 <= n / d <= 1)%Q.
Proof.
  intros Hd [H0 H1]. split.
  - apply Qle_shift_div_l; [exact Hd|lra].
  - apply Qle_shift_div_r; [exact Hd|lra].
Qed.

Lemma frac_in_unit_neg (n d : Q) :
  (d < 0)%Q -> (d <= n <= 0)%Q -> (0 <= n / d <= 1)%Q.
Proof.
  intros Hd Hn.
  assert (H : (n / d == (- n) / (- d))%Q) by (field; lra).
  rewrite H. apply frac_in_unit; lra.
Qed.

(** Where the line through A and B meets the line through C and D. *)
Lemma crossing_point (ax ay bx by' cx cy dx dy : Q) :
  let fA := ((dy - ay) * (cx - ax) - (cy - ay) * (dx - ax))%Q in
  let fB := ((dy - by') * (cx - bx) - (cy - by') * (dx - bx))%Q in
  let gC := ((cy - ay) * (bx - ax) - (by' - ay) * (cx - ax))%Q in
  let gD := ((dy - ay) * (bx - ax) - (by' - ay) * (dx - ax))%Q in
  ~ (fA - fB == 0)%Q ->
  (gC - gD == - (fA - fB))%Q
  /\ (ax + fA / (fA - fB) * (bx - ax) == cx + gC / (gC - gD) * (dx - cx))%Q
  /\ (ay + fA / (fA - fB) * (by' - ay) == cy + gC / (gC - gD) * (dy - cy))%Q.
Proof.
  intros fA fB gC gD Hd.
  assert (Hrel : (gC - gD == - (fA - fB))%Q) by (unfold fA, fB, gC, gD; ring).
  assert (Hd' : ~ (gC - gD == 0)%Q) by (rewrite Hrel; lra).
  split; [exact Hrel|].
  split; unfold fA, fB, gC, gD in *; field; split; assumption.
Qed.

(** X19.  [intersect] is sound: when it answers true, the segments AB
    and CD have a point in common, [A + s (B - A) = C + t (D - C)] with
    [s] and [t] between 0 and 1. *)
Theorem intersect_sound (ax ay bx by' cx cy dx dy : Q) :
  utils.intersect ax ay bx by' cx cy dx dy = true ->
  exists s t,
    (0 <= s <= 1)%Q /\ (0 <= t <= 1)%Q
    /\ (ax + s * (bx - ax) == cx + t * (dx - cx))%Q
    /\ (ay + s * (by' - ay) == cy + t * (dy - cy))%Q.
Proof.
  unfold utils.intersect. intros H. apply andb_true_iff in H as [H1 H2].
  apply negb_true_iff, eqb_false_iff in H1.
  apply negb_true_iff, eqb_false_iff in H2.
  set (fA := ((dy - ay) * (cx - ax) - (cy - ay) * (dx - ax))%Q).
  set (fB := ((dy - by') * (cx - bx) - (cy - by') * (dx - bx))%Q).
  set (gC := ((cy - ay) * (bx - ax) - (by' - ay) * (cx - ax))%Q).
  set (gD := ((dy - ay) * (bx - ax) - (by' - ay) * (dx - ax))%Q).
  assert (Hs : (0 < fA - fB /\ 0 <= fA <= fA - fB)%Q
               \/ (fA - fB < 0 /\ fA - fB <= fA <= 0)%Q).
  { destruct (utils.ccw ax ay cx cy dx dy) eqn:EA;
      destruct (utils.ccw bx by' cx cy dx dy) eqn:EB; try congruence.
    - apply ccw_spec in EA. apply ccw_false in EB. left. unfold fA, fB. lra.
    - apply ccw_false in EA. apply ccw_spec in EB. right. unfold fA, fB. lra. }
  assert (Ht : (0 < gC - gD /\ 0 <= gC <= gC - gD)%Q
               \/ (gC - gD < 0 /\ gC - gD <= gC <= 0)%Q).
  { destruct (utils.ccw ax ay bx by' cx cy) eqn:EC;
      destruct (utils.ccw ax ay bx by' dx dy) eqn:ED; try congruence.
    - apply ccw_spec in EC. apply ccw_false in ED. left. unfold gC, gD. lra.
    - apply ccw_false in EC. apply ccw_spec in ED. right. unfold gC, gD. lra. }
  assert (Hd : ~ (fA - fB == 0)%Q) by (destruct Hs as [[? _]|[? _]]; lra).
  destruct (crossing_point ax ay bx by' cx cy dx dy Hd) as (_ & Hx & Hy).
  fold fA fB gC gD in Hx, Hy.
  exists (fA / (fA - fB))%Q, (gC / (gC - gD))%Q.
  split; [destruct Hs as [[? ?]|[? ?]];
          [apply frac_in_unit|apply frac_in_unit_neg]; assumption|].
  split; [destruct Ht as [[? ?]|[? ?]];
          [apply frac_in_unit|apply frac_in_unit_neg]; assumption|].
  split; assumption.
Qed.

Lemma intersect_sound_witness :
  utils.intersect 0 0 4 4 0 4 4 0 = true
  /\ exists s t,
      (0 <= s <= 1)%Q /\ (0 <= t <= 1)%Q
      /\ (0 + s * (4 - 0) == 0 + t * (4 - 0))%Q
      /\ (0 + s * (4 - 0) == 4 + t * (0 - 4))%Q.
Proof.
  assert (H : utils.intersect 0 0 4 4 0 4 4 0 = true) by reflexivity.
  split; [exact H|].
  apply (intersect_sound 0 0 4 4 0 4 4 0 H).
Defined.

(** ** The throttle *)

(** X20.  A throttled function is never executed twice within the
    throttle period: over any series of calls, whatever the clock shows
    at each, two executions are more than the period apart, and each is
    more than the period after the execution that preceded the series.
    (The period is not negative.) *)
Theorem throttle_spacing (self : throttle.t) (times : list Z) :
  0 <= throttle.throttle_period self ->
  (forall a, a ∈ executions self times ->
             a ∈ times
             /\ throttle.throttle_period self < a - throttle.time_of_last_call self)
  /\ (forall i j a b,
         (i < j)%nat ->
         executions self times !! i = Some a ->
         executions self times !! j = Some b ->
         throttle.throttle_period self < b - a).
Proof.
  revert self.
  induction times as [|now rest IH]; intros self Hp; simpl.
  - split; [intros a Ha; inversion Ha|intros i j a b _ Hi; discriminate Hi].
  - unfold throttle.wrapper.
    destruct (Z.ltb_spec (throttle.throttle_period self)
                (now - throttle.time_of_last_call self)) as [Hrun|Hskip].
    + destruct (IH (throttle.mk (throttle.throttle_period self) now) Hp)
        as [Hall Hpair]. simpl in Hall, Hpair. split.
      * intros a Ha. apply elem_of_cons in Ha as [->|Ha].
        -- split; [left|exact Hrun].
        -- destruct (Hall a Ha) as [Hin Hgap]. split; [right; exact Hin|lia].
      * intros [|i] [|j] a b Hij Hi Hj; simpl in Hi, Hj; try lia.
        -- injection Hi as <-.
           apply list_elem_of_lookup_2 in Hj. apply (Hall b Hj).
        -- apply (Hpair i j a b); [lia|exact Hi|exact Hj].
    + destruct (IH self Hp) as [Hall Hpair]. split.
      * intros a Ha. destruct (Hall a Ha) as [Hin Hgap].
        split; [right; exact Hin|exact Hgap].
      * exact Hpair.
Qed.


Lemma throttle_spacing_witness :
  0 <= throttle.throttle_period (throttle.init 0 1 0)
  /\ (forall a, a ∈ executions (throttle.init 0 1 0)
                     [70000000; 100000000; 130000001; 130000002] ->
                a ∈ [70000000; 100000000; 130000001; 130000002]
                /\ throttle.throttle_period (throttle.init 0 1 0)
                   < a - throttle.time_of_last_call (throttle.init 0 1 0))
  /\ (forall i j a b,
         (i < j)%nat ->
         executions (throttle.init 0 1 0)
                    [70000000; 100000000; 130000001; 130000002] !! i = Some a ->
         executions (throttle.init 0 1 0)
                    [70000000; 100000000; 130000001; 130000002] !! j = Some b ->
         throttle.throttle_period (throttle.init 0 1 0) < b - a).
Proof.
  assert (Hp : 0 <= throttle.throttle_period (throttle.init 0 1 0))
    by (vm_compute; discriminate).
  split; [exact Hp|].
  apply (throttle_spacing (throttle.init 0 1 0)
           [70000000; 100000000; 130000001; 130000002] Hp).
Defined.

(** ** Colors *)

Lemma py_int_inject_Z (n : Z) : py_int (inject_Z n) = n.
Proof. unfold py_int. simpl. apply Z.quot_1_r. Qed.

(** Two digits written by ["%02X"] are read back by [int(_, 16)]. *)
Lemma format_02X_byte (n : Z) :
  0 <= n < 256 ->
  exists c1 c2,
    format_02X n = String c1 (String c2 EmptyString)
    /\ py_int16 (String c1 (String c2 EmptyString)) = Some n.
Proof.
  intros Hn.
  assert (Hall : forallb (fun n =>
                    match format_02X n with
                    | String c1 (String c2 EmptyString) =>
                        bool_decide (py_int16 (String c1 (String c2 EmptyString))
                                     = Some n)
                    | _ => false
                    end) (seqZ 0 256) = true) by (vm_compute; reflexivity).
  rewrite forallb_forall in Hall.
  specialize (Hall n). rewrite <- list_elem_of_In, elem_of_seqZ in Hall.
  specialize (Hall ltac:(lia)).
  destruct (format_02X n) as [|c1 [|c2 [|c3 rest]]]; try discriminate.
  exists c1, c2. split; [reflexivity|]. apply bool_decide_eq_true in Hall. exact Hall.
Qed.

Lemma hex_to_rgba_four (c1 c2 c3 c4 c5 c6 c7 c8 : ascii) :
  Color.hex_to_rgba
    ("#" +:+ String c1 (String c2 EmptyString) +:+ String c3 (String c4 EmptyString)
         +:+ String c5 (String c6 EmptyString) +:+ String c7 (String c8 EmptyString))
  = (r ← py_int16 (String c1 (String c2 EmptyString));
     g ← py_int16 (String c3 (String c4 EmptyString));
     b ← py_int16 (String c5 (String c6 EmptyString));
     a ← py_int16 (String c7 (String c8 EmptyString));
     Some (r, g, b, a)).
Proof. reflexivity. Qed.

(** X21.  Writing a color as a hex code and reading the code back is the
    identity: for channels that are whole numbers from 0 to 255,
    [hex_to_rgba(to_hexcode())] returns the four channels, and a color
    made from the hex code has them. *)
Theorem hexcode_round_trip (COLORS : gmap string string) (name : option string)
        (r g b a : Z) :
  0 <= r < 256 -> 0 <= g < 256 -> 0 <= b < 256 -> 0 <= a < 256 ->
  let c := Color.mk name (inject_Z r) (inject_Z g) (inject_Z b) (inject_Z a) in
  Color.hex_to_rgba (Color.to_hexcode c) = Some (r, g, b, a)
  /\ Color.init COLORS (Color.Str (Color.to_hexcode c)) None None None
     = Some (Color.mk None (inject_Z r) (inject_Z g) (inject_Z b) (inject_Z a)).
Proof.
  intros Hr Hg Hb Ha c.
  destruct (format_02X_byte r Hr) as (r1 & r2 & Er & Pr).
  destruct (format_02X_byte g Hg) as (g1 & g2 & Eg & Pg).
  destruct (format_02X_byte b Hb) as (b1 & b2 & Eb & Pb).
  destruct (format_02X_byte a Ha) as (a1 & a2 & Ea & Pa).
  assert (Hcode : Color.to_hexcode c
                  = "#" +:+ String r1 (String r2 EmptyString)
                        +:+ String g1 (String g2 EmptyString)
                        +:+ String b1 (String b2 EmptyString)
                        +:+ String a1 (String a2 EmptyString)).
  { unfold Color.to_hexcode, Color.to_tuple, c. simpl.
    rewrite !py_int_inject_Z, Er, Eg, Eb, Ea. reflexivity. }
  assert (Hread : Color.hex_to_rgba (Color.to_hexcode c) = Some (r, g, b, a)).
  { rewrite Hcode, hex_to_rgba_four, Pr, Pg, Pb, Pa. reflexivity. }
  split; [exact Hread|].
  unfold Color.init. rewrite Hread. rewrite Hcode. reflexivity.
Qed.

Lemma hexcode_round_trip_witness :
  0 <= 255 < 256 /\ 0 <= 128 < 256 /\ 0 <= 0 < 256 /\ 0 <= 64 < 256
  /\ let c := Color.mk (Some "orange") (inject_Z 255) (inject_Z 128)
                       (inject_Z 0) (inject_Z 64) in
     Color.hex_to_rgba (Color.to_hexcode c) = Some (255, 128, 0, 64)
     /\ Color.init ∅ (Color.Str (Color.to_hexcode c)) None None None
        = Some (Color.mk None (inject_Z 255) (inject_Z 128)
                         (inject_Z 0) (inject_Z 64)).
Proof.
  assert (Hr : 0 <= 255 < 256) by lia. assert (Hg : 0 <= 128 < 256) by lia.
  assert (Hb : 0 <= 0 < 256) by lia. assert (Ha : 0 <= 64 < 256) by lia.
  split; [exact Hr|]. split; [exact Hg|]. split; [exact Hb|]. split; [exact Ha|].
  apply (hexcode_round_trip ∅ (Some "orange") 255 128 0 64 Hr Hg Hb Ha).
Defined.

(** Two hex digits, of either case, are read by [int(_, 16)] as a number
    from 0 to 255 that ["%02X"] writes in capitals. *)
Lemma py_int16_pair (c1 c2 : ascii) :
  is_hex_digit c1 = true -> is_hex_digit c2 = true ->
  exists n,
    0 <= n < 256
    /\ py_int16 (String c1 (String c2 EmptyString)) = Some n
    /\ format_02X n = String (capital c1) (String (capital c2) EmptyString).
Proof.
  intros H1 H2.
  pose (all := ascii_of_nat <$> seq 0 256).
  pose (ok := fun c1 c2 : ascii =>
                implb (is_hex_digit c1 && is_hex_digit c2)
                  match py_int16 (String c1 (String c2 EmptyString)) with
                  | Some n =>
                      (0 <=? n) && (n <? 256)
                      && String.eqb (format_02X n)
                           (String (capital c1) (String (capital c2) EmptyString))
                  | None => false
                  end).
  assert (Hall : forallb (fun c1 => forallb (ok c1) all) all = true)
    by (vm_compute; reflexivity).
  assert (Hin : forall c : ascii, In c all).
  { intros c. apply list_elem_of_In. unfold all.
    apply list_elem_of_fmap. exists (nat_of_ascii c).
    split; [symmetry; apply ascii_nat_embedding|].
    apply elem_of_seq. pose proof (nat_ascii_bounded c). lia. }
  rewrite forallb_forall in Hall. specialize (Hall c1 (Hin c1)).
  rewrite forallb_forall in Hall. specialize (Hall c2 (Hin c2)).
  unfold ok in Hall. rewrite H1, H2 in Hall. simpl in Hall.
  destruct (py_int16 (String c1 (String c2 EmptyString))) as [n|]; [|discriminate].
  apply andb_true_iff in Hall as [Hrange Hfmt].
  apply andb_true_iff in Hrange as [Hlo Hhi].
  exists n. split; [lia|]. split; [reflexivity|]. apply String.eqb_eq, Hfmt.
Qed.

(** X22.  Reading a hex code and writing it again puts it in its
    standard form: for eight hex digits of either case after the "#", the
    color made from the string is written as the same digits in capitals;
    for six digits the alpha channel is 255 and "FF" is added. *)
Theorem hex_string_round_trip (COLORS : gmap string string)
        (c1 c2 c3 c4 c5 c6 c7 c8 : ascii) :
  is_hex_digit c1 = true -> is_hex_digit c2 = true ->
  is_hex_digit c3 = true -> is_hex_digit c4 = true ->
  is_hex_digit c5 = true -> is_hex_digit c6 = true ->
  is_hex_digit c7 = true -> is_hex_digit c8 = true ->
  (exists c,
      Color.init COLORS
        (Color.Str ("#" +:+ String c1 (String c2 EmptyString)
                        +:+ String c3 (String c4 EmptyString)
                        +:+ String c5 (String c6 EmptyString)
                        +:+ String c7 (String c8 EmptyString)))
        None None None = Some c
      /\ Color.str c
         = "#" +:+ String (capital c1) (String (capital c2) EmptyString)
               +:+ String (capital c3) (String (capital c4) EmptyString)
               +:+ String (capital c5) (String (capital c6) EmptyString)
               +:+ String (capital c7) (String (capital c8) EmptyString))
  /\ (exists c,
         Color.init COLORS
           (Color.Str ("#" +:+ String c1 (String c2 EmptyString)
                           +:+ String c3 (String c4 EmptyString)
                           +:+ String c5 (String c6 EmptyString)))
           None None None = Some c
         /\ Color.alpha c = 255%Q
         /\ Color.str c
            = "#" +:+ String (capital c1) (String (capital c2) EmptyString)
                  +:+ String (capital c3) (String (capital c4) EmptyString)
                  +:+ String (capital c5) (String (capital c6) EmptyString)
                  +:+ "FF").
Proof.
  intros H1 H2 H3 H4 H5 H6 H7 H8.
  destruct (py_int16_pair c1 c2 H1 H2) as (r & _ & Pr & Fr).
  destruct (py_int16_pair c3 c4 H3 H4) as (g & _ & Pg & Fg).
  destruct (py_int16_pair c5 c6 H5 H6) as (b & _ & Pb & Fb).
  destruct (py_int16_pair c7 c8 H7 H8) as (a & _ & Pa & Fa).
  split.
  - exists (Color.mk None (inject_Z r) (inject_Z g) (inject_Z b) (inject_Z a)).
    split.
    + unfold Color.init.
      change (String.prefix "#" _) with true. cbv iota.
      rewrite hex_to_rgba_four, Pr, Pg, Pb, Pa. reflexivity.
    + unfold Color.str, Color.to_hexcode, Color.to_tuple. simpl.
      rewrite !py_int_inject_Z, Fr, Fg, Fb, Fa. reflexivity.
  - exists (Color.mk None (inject_Z r) (inject_Z g) (inject_Z b) (inject_Z 255)).
    split; [|split; [reflexivity|]].
    + unfold Color.init.
      change (String.prefix "#" _) with true. cbv iota.
      change (Color.hex_to_rgba _)
        with (r ← py_int16 (String c1 (String c2 EmptyString));
              g ← py_int16 (String c3 (String c4 EmptyString));
              b ← py_int16 (String c5 (String c6 EmptyString));
              a ← py_int16 "FF";
              Some (r, g, b, a)).
      rewrite Pr, Pg, Pb. reflexivity.
    + unfold Color.str, Color.to_hexcode, Color.to_tuple. simpl.
      rewrite !py_int_inject_Z, Fr, Fg, Fb. reflexivity.
Qed.

Lemma hex_string_round_trip_witness :
  is_hex_digit "f" = true /\ is_hex_digit "F" = true
  /\ is_hex_digit "8" = true /\ is_hex_digit "0" = true
  /\ is_hex_digit "0" = true /\ is_hex_digit "a" = true
  /\ is_hex_digit "4" = true /\ is_hex_digit "0" = true
  /\ (exists c,
         Color.init ∅ (Color.Str "#fF800a40") None None None = Some c
         /\ Color.str c = "#FF800A40")
  /\ (exists c,
         Color.init ∅ (Color.Str "#fF800a") None None None = Some c
         /\ Color.alpha c = 255%Q
         /\ Color.str c = "#FF800AFF").
Proof.
  repeat (split; [reflexivity|]).
  apply (hex_string_round_trip ∅ "f" "F" "8" "0" "0" "a" "4" "0"
           eq_refl eq_refl eq_refl eq_refl eq_refl eq_refl eq_refl eq_refl).
Defined.

Lemma length_list_ascii_of_string (s : string) :
  length (list_ascii_of_string s) = String.length s.
Proof. induction s as [|c s IH]; simpl; [reflexivity|rewrite IH; reflexivity]. Qed.

(** X23.  There is no short form of a hex code: for every string of at
    most five characters ("#" and up to four digits, "#FFF" among them)
    [hex_to_rgba] raises [ValueError], and so does the making of a color
    from such a string that starts with "#". *)
Theorem short_hex_string_raises (COLORS : gmap string string) (s : string) :
  (String.length s <= 5)%nat ->
  Color.hex_to_rgba s = None
  /\ (String.prefix "#" s = true ->
      forall green blue alpha,
        Color.init COLORS (Color.Str s) green blue alpha = None).
Proof.
  intros Hlen.
  assert (Hb : py_substring s 5 7 = EmptyString).
  { unfold py_substring, py_slice, slice_bound. simpl.
    rewrite length_list_ascii_of_string.
    rewrite (drop_ge (list_ascii_of_string s))
      by (rewrite length_list_ascii_of_string; lia).
    rewrite take_nil. reflexivity. }
  assert (Hnone : Color.hex_to_rgba s = None).
  { unfold Color.hex_to_rgba. rewrite Hb.
    destruct (py_int16 (py_substring s 1 3)); simpl; [|reflexivity].
    destruct (py_int16 (py_substring s 3 5)); reflexivity. }
  split; [exact Hnone|].
  intros Hprefix green blue alpha. unfold Color.init.
  rewrite Hprefix, Hnone. reflexivity.
Qed.

Lemma short_hex_string_raises_witness :
  (String.length "#FFF" <= 5)%nat
  /\ Color.hex_to_rgba "#FFF" = None
  /\ (String.prefix "#" "#FFF" = true ->
      forall green blue alpha,
        Color.init ∅ (Color.Str "#FFF") green blue alpha = None).
Proof.
  assert (Hlen : (String.length "#FFF" <= 5)%nat) by (simpl; lia).
  split; [exact Hlen|].
  apply (short_hex_string_raises ∅ "#FFF" Hlen).
Defined.

(** X24.  A color name that is not in [COLORS] is accepted without a
    word: the color is transparent black (all four channels 0), it keeps
    the name, and [str] of it is the name. *)
Theorem unknown_color_name (COLORS : gmap string string) (s : string)
        (green blue alpha : option Q) :
  String.prefix "#" s = false ->
  COLORS !! s = None ->
  exists c,
    Color.init COLORS (Color.Str s) green blue alpha = Some c
    /\ Color.to_tuple c = (0, 0, 0, 0)
    /\ Color.name c = Some s
    /\ Color.str c = s.
Proof.
  intros Hprefix Hname. unfold Color.init. rewrite Hprefix, Hname.
  eexists. split; [reflexivity|]. repeat split.
Qed.

Lemma unknown_color_name_witness :
  String.prefix "#" "octarine" = false
  /\ (∅ : gmap string string) !! "octarine" = None
  /\ exists c,
      Color.init ∅ (Color.Str "octarine") None None None = Some c
      /\ Color.to_tuple c = (0, 0, 0, 0)
      /\ Color.name c = Some "octarine"
      /\ Color.str c = "octarine".
Proof.
  assert (Hname : (∅ : gmap string string) !! "octarine" = None)
    by apply lookup_empty.
  split; [reflexivity|]. split; [exact Hname|].
  apply (unknown_color_name ∅ "octarine" None None None eq_refl Hname).
Defined.

(** ** Reset, and playback *)

(** X25.  After [reset] the recording is gone and scrubbing falls back on
    the real world: whatever had been recorded, [goto] at any time
    returns, leaves the log empty, and gives every robot of the copy the
    state of its robot in the real world and an empty trace. *)
Theorem reset_then_goto {Picture : Type} (display : World -> Picture)
        (t : Q) (r : Recorder) :
  well_formed r ->
  exists picture r',
    Recorder.goto display t (Recorder.reset r) = inr (picture, r')
    /\ states r' = []
    /\ forall i robot,
        robots (world r) !! i = Some robot ->
        exists orig_robot,
          robots (orig_world r) !! i = Some orig_robot
          /\ robots (world r') !! i = Some (live_robot orig_robot robot)
          /\ trace (live_robot orig_robot robot) = [].
Proof.
  intros [Hlen _].
  destruct (goto_live display t (Recorder.reset r) eq_refl)
    as (picture & r' & Hrun & Hs & _ & _ & Hin).
  { simpl. rewrite Hlen. reflexivity. }
  exists picture, r'. split; [exact Hrun|]. split; [exact Hs|].
  intros i robot Hrobot.
  destruct (lookup_lt_is_Some_2 (robots (orig_world r)) i) as [orig_robot Ho].
  { rewrite Hlen. eapply lookup_lt_Some, Hrobot. }
  exists orig_robot. split; [exact Ho|].
  split; [apply (Hin i orig_robot robot Ho Hrobot)|reflexivity].
Qed.

Lemma reset_then_goto_witness :
  well_formed Sample.three_steps
  /\ exists picture r',
      Recorder.goto Sample.display (1 # 5) (Recorder.reset Sample.three_steps)
      = inr (picture, r')
      /\ states r' = []
      /\ forall i robot,
          robots (world Sample.three_steps) !! i = Some robot ->
          exists orig_robot,
            robots (orig_world Sample.three_steps) !! i = Some orig_robot
            /\ robots (world r') !! i = Some (live_robot orig_robot robot)
            /\ trace (live_robot orig_robot robot) = [].
Proof.
  split; [exact well_formed_three_steps|].
  apply (reset_then_goto Sample.display (1 # 5) Sample.three_steps
           well_formed_three_steps).
Defined.

(** The running thread makes the presses of the "next" button. *)
Lemma run_presses {Picture : Type} (display : World -> Picture)
      (th : _Player.t) (n : nat) :
  _Player.can_run th = true ->
  forall p r p' r',
    presses (Recorder.goto display) n "next" p r = inr (p', r') ->
    _Player.run (controller_goto display) n th (p, r) = _Player.Looping (p', r').
Proof.
  intros Hrun. induction n as [|n IH]; intros p r p' r'; simpl.
  - intros H. injection H as <- <-. reflexivity.
  - rewrite Hrun. unfold controller_goto at 1. simpl.
    destruct (Player.goto (Recorder.goto display) "next" p r) as [e|[p1 r1]];
      simpl; [discriminate|].
    apply IH.
Qed.

(** X26.  Playback is a loop over the recording: the running thread of a
    widget on display, started with the cursor at 0 on a well-formed
    recorder, is still looping after any number [n] of iterations up to
    the length [L] of the slider, with the cursor at [n * 0.1]; after
    [L + 1] iterations the cursor is back at 0. *)
Theorem playback_cycles {Picture : Type} (display : World -> Picture)
        (th : _Player.t) (p : Player.t) (r : Recorder) :
  _Player.can_run th = true ->
  well_formed r -> on_display p ->
  0 <= Player.length p ->
  (Player.slider_value p == 0)%Q ->
  (forall n : nat,
      Z.of_nat n <= Player.length p ->
      exists p' r',
        _Player.run (controller_goto display) n th (p, r) = _Player.Looping (p', r')
        /\ (Player.slider_value p' == inject_Z (Z.of_nat n) * (1 # 10))%Q)
  /\ exists p' r',
      _Player.run (controller_goto display) (S (Z.to_nat (Player.length p))) th (p, r)
      = _Player.Looping (p', r')
      /\ (Player.slider_value p' == 0)%Q.
Proof.
  intros Hrun Hwf Hd HL Hv. split.
  - intros n Hn.
    destruct (presses_next_climb (Recorder.goto display) well_formed
                (goto_well_formed display) n p r 0 Hwf Hd)
      as (p' & r' & Hpress & _ & _ & Hv'); [rewrite Hv; reflexivity|lia|].
    exists p', r'. split; [apply run_presses; assumption|].
    rewrite Hv', recorded_tenths. reflexivity.
  - destruct (presses_next_round (Recorder.goto display) well_formed
                (goto_well_formed display) p r Hwf Hd Hv HL)
      as (p' & r' & Hpress & _ & _ & Hv').
    exists p', r'. split; [apply run_presses; assumption|exact Hv'].
Qed.

Lemma playback_cycles_witness :
  _Player.can_run (_Player.resume (_Player.init (1 # 10))) = true
  /\ well_formed Sample.two_steps /\ on_display (Sample.widget 2)
  /\ 0 <= Player.length (Sample.widget 2)
  /\ (Player.slider_value (Sample.widget 2) == 0)%Q
  /\ (forall n : nat,
         Z.of_nat n <= Player.length (Sample.widget 2) ->
         exists p' r',
           _Player.run (controller_goto Sample.display) n
                       (_Player.resume (_Player.init (1 # 10)))
                       (Sample.widget 2, Sample.two_steps)
           = _Player.Looping (p', r')
           /\ (Player.slider_value p' == inject_Z (Z.of_nat n) * (1 # 10))%Q)
  /\ exists p' r',
      _Player.run (controller_goto Sample.display)
                  (S (Z.to_nat (Player.length (Sample.widget 2))))
                  (_Player.resume (_Player.init (1 # 10)))
                  (Sample.widget 2, Sample.two_steps)
      = _Player.Looping (p', r')
      /\ (Player.slider_value p' == 0)%Q.
Proof.
  assert (HL : 0 <= Player.length (Sample.widget 2)) by (vm_compute; discriminate).
  assert (Hv : (Player.slider_value (Sample.widget 2) == 0)%Q)
    by (vm_compute; reflexivity).
  split; [reflexivity|]. split; [exact well_formed_two_steps|].
  split; [exact (on_display_widget 2)|]. split; [exact HL|]. split; [exact Hv|].
  apply (playback_cycles Sample.display (_Player.resume (_Player.init (1 # 10)))
           (Sample.widget 2) Sample.two_steps eq_refl well_formed_two_steps
           (on_display_widget 2) HL Hv).
Defined.

(** X27.  The running thread of a session that is in step (recorder well
    formed, widget on display, cursor within the slider) does not end:
    after any number of iterations it is still looping, and the session
    is in step again. *)
Theorem playback_never_ends {Picture : Type} (display : World -> Picture)
        (th : _Player.t) (fuel : nat) (c : Player.t * Recorder) :
  _Player.can_run th = true ->
  in_sync c ->
  exists c',
    _Player.run (controller_goto display) fuel th c = _Player.Looping c'
    /\ in_sync c'.
Proof.
  intros Hrun. revert c. induction fuel as [|fuel IH]; intros c Hc; simpl.
  - exists c. split; [reflexivity|exact Hc].
  - rewrite Hrun.
    destruct (act_in_sync display (Press "next") c Hc) as (c1 & Hpress & Hc1).
    simpl in Hpress. unfold controller_goto at 1. rewrite Hpress.
    apply IH, Hc1.
Qed.

Lemma playback_never_ends_witness :
  _Player.can_run (_Player.resume (_Player.init (1 # 10))) = true
  /\ in_sync (Sample.widget 2, Sample.two_steps)
  /\ exists c',
      _Player.run (controller_goto Sample.display) 7
                  (_Player.resume (_Player.init (1 # 10)))
                  (Sample.widget 2, Sample.two_steps)
      = _Player.Looping c'
      /\ in_sync c'.
Proof.
  split; [reflexivity|]. split; [exact in_sync_sample|].
  apply (playback_never_ends Sample.display
           (_Player.resume (_Player.init (1 # 10))) 7
           (Sample.widget 2, Sample.two_steps) eq_refl in_sync_sample).
Defined.
